(** * pyxtermjs: the pty session core of [pyxtermjs/app.py]

    A shallow embedding of the socket.io handlers [connect], [pty_input],
    [resize], of [set_winsize] and of the background task
    [read_and_forward_pty_output], over an explicit model of the process
    state they share: the [app.config] entries, the kernel side of the pty,
    and the history of the calls made to the operating system and to
    socket.io.

    Conventions:
    - a byte is a [Z] in [0, 256), a [bytes] object a [list Z];
    - a Python [str] is the list of its code points, each a [Z];
    - a Python call is a computation in the monad [Py]: it reads and
      updates the [World] and ends with a value, with a raised exception
      (the updates made before the raise stay), or never returns.

    What stands for the environment:
    - the kernel keeps, for each pty master open in the server, the bytes
      written to it, the bytes waiting to be read from it, its window size
      and whether the process on the slave end is still there;
    - the terminal between the two ends is a parameter of the kernel
      record ([Tty]): how much of a write its input queue takes before the
      writer has to wait, what it echoes of the input, what it makes of
      the child's output, and the most one read of the master returns;
    - [pty.fork] returns on one side of the fork, chosen by the kernel
      record; the outcome of each [subprocess.run] is given by the kernel
      record as well;
    - handlers and pump iterations run one at a time (see [step]). *)

From stdpp Require Import gmap strings list pretty.
From Stdlib Require Import ZArith Lia Ascii.

Open Scope Z_scope.

(** ** Python values, exceptions and results *)

Inductive PyExn : Type :=
| KeyError (key : string)
| TypeError
| AttributeError
| StructError
| UnicodeEncodeError
| UnicodeDecodeError
| OSError (errno : Z).

Definition EBADF : Z := 9.
Definition EAGAIN : Z := 11.
Definition EIO : Z := 5.

(** How a call ends: with a value, with an exception, blocked for ever in
    a system call that is never woken up ([Hang]), or still iterating a
    loop when the observation stops ([Running]). *)
Inductive Outcome (A : Type) : Type :=
| Ok (a : A)
| Raise (e : PyExn)
| Hang
| Running.
Arguments Ok {A} a.
Arguments Raise {A} e.
Arguments Hang {A}.
Arguments Running {A}.

(** The values a decoded socket.io (JSON) payload can hold, as far as the
    handlers can tell them apart. *)
Inductive PyVal : Type :=
| PyNone
| PyBool (b : bool)
| PyInt (n : Z)
| PyFloat (num : Z) (den : positive)
| PyStr (s : list Z).

(** The code points of an ASCII literal of the source. *)
Definition py_str (s : string) : list Z :=
  map (fun c => Z.of_N (Ascii.N_of_ascii c)) (String.list_ascii_of_string s).

(** ** The UTF-8 codec ([str.encode()], [bytes.decode(errors=...)])

    The handlers call [data["input"].encode()] and
    [os.read(...).decode(errors='ignore')]; both default to UTF-8.  The
    codec is CPython's: the encoder refuses surrogates, the decoder reports
    an invalid start byte (1 byte), an invalid continuation byte (the 1 to 3
    bytes before it) or an unexpected end of data (all the remaining
    bytes), and the [ignore] error handler skips the reported bytes. *)

Definition utf8_encode_char (ch : Z) : Outcome (list Z) :=
  if ch <? 0x80 then Ok [ch]
  else if ch <? 0x800 then
    Ok [Z.lor 0xC0 (ch ≫ 6); Z.lor 0x80 (Z.land ch 0x3F)]
  else if (0xD800 <=? ch) && (ch <=? 0xDFFF) then Raise UnicodeEncodeError
  else if ch <? 0x10000 then
    Ok [Z.lor 0xE0 (ch ≫ 12);
        Z.lor 0x80 (Z.land (ch ≫ 6) 0x3F);
        Z.lor 0x80 (Z.land ch 0x3F)]
  else
    Ok [Z.lor 0xF0 (ch ≫ 18);
        Z.lor 0x80 (Z.land (ch ≫ 12) 0x3F);
        Z.lor 0x80 (Z.land (ch ≫ 6) 0x3F);
        Z.lor 0x80 (Z.land ch 0x3F)].

Fixpoint str_encode (s : list Z) : Outcome (list Z) :=
  match s with
  | [] => Ok []
  | ch :: s' =>
      match utf8_encode_char ch with
      | Ok bs =>
          match str_encode s' with
          | Ok r => Ok (bs ++ r)
          | o => o
          end
      | o => o
      end
  end.

Definition IS_CONTINUATION_BYTE (ch : Z) : bool :=
  (0x80 <=? ch) && (ch <? 0xC0).

(** What the decoder finds at the head of the remaining input. *)
Inductive Utf8Step : Type :=
| Decoded (ch : Z) (len : nat)
| InvalidStart
| InvalidContinuation (len : nat)
| UnexpectedEnd.

Definition utf8_decode1 (s : list Z) : Utf8Step :=
  match s with
  | [] => UnexpectedEnd
  | ch :: s1 =>
      if ch <? 0x80 then Decoded ch 1
      else if ch <? 0xE0 then
        (* \xC2\x80-\xDF\xBF: 0080-07FF *)
        if ch <? 0xC2 then InvalidStart
        else match s1 with
             | [] => UnexpectedEnd
             | ch2 :: _ =>
                 if negb (IS_CONTINUATION_BYTE ch2) then InvalidContinuation 1
                 else Decoded ((ch ≪ 6) + ch2 - ((0xC0 ≪ 6) + 0x80)) 2
             end
      else if ch <? 0xF0 then
        (* \xE0\xA0\x80-\xEF\xBF\xBF: 0800-FFFF *)
        match s1 with
        | [] => UnexpectedEnd
        | [ch2] =>
            if negb (IS_CONTINUATION_BYTE ch2)
               || (if ch2 <? 0xA0 then ch =? 0xE0 else ch =? 0xED)
            then InvalidContinuation 1
            else UnexpectedEnd
        | ch2 :: ch3 :: _ =>
            if negb (IS_CONTINUATION_BYTE ch2) then InvalidContinuation 1
            else if (ch =? 0xE0) && (ch2 <? 0xA0) then InvalidContinuation 1
            else if (ch =? 0xED) && (0xA0 <=? ch2) then InvalidContinuation 1
            else if negb (IS_CONTINUATION_BYTE ch3) then InvalidContinuation 2
            else Decoded ((ch ≪ 12) + (ch2 ≪ 6) + ch3
                          - ((0xE0 ≪ 12) + (0x80 ≪ 6) + 0x80)) 3
        end
      else if ch <? 0xF5 then
        (* \xF0\x90\x80\x80-\xF4\x8F\xBF\xBF: 10000-10FFFF *)
        match s1 with
        | [] => UnexpectedEnd
        | [ch2] =>
            if negb (IS_CONTINUATION_BYTE ch2)
               || (if ch2 <? 0x90 then ch =? 0xF0 else ch =? 0xF4)
            then InvalidContinuation 1
            else UnexpectedEnd
        | [ch2; ch3] =>
            if negb (IS_CONTINUATION_BYTE ch2)
               || (if ch2 <? 0x90 then ch =? 0xF0 else ch =? 0xF4)
            then InvalidContinuation 1
            else if negb (IS_CONTINUATION_BYTE ch3) then InvalidContinuation 2
            else UnexpectedEnd
        | ch2 :: ch3 :: ch4 :: _ =>
            if negb (IS_CONTINUATION_BYTE ch2) then InvalidContinuation 1
            else if (ch =? 0xF0) && (ch2 <? 0x90) then InvalidContinuation 1
            else if (ch =? 0xF4) && (0x90 <=? ch2) then InvalidContinuation 1
            else if negb (IS_CONTINUATION_BYTE ch3) then InvalidContinuation 2
            else if negb (IS_CONTINUATION_BYTE ch4) then InvalidContinuation 3
            else Decoded ((ch ≪ 18) + (ch2 ≪ 12) + (ch3 ≪ 6) + ch4
                          - ((0xF0 ≪ 18) + (0x80 ≪ 12) + (0x80 ≪ 6) + 0x80)) 4
        end
      else InvalidStart
  end.

(** The [errors] argument of [bytes.decode]. *)
Inductive Errors : Type := strict | ignore.

(** The decoding loop.  [fuel] bounds the number of steps; every step
    consumes at least one byte, so [length s] steps are enough. *)
Fixpoint utf8_decode (fuel : nat) (errors : Errors) (s : list Z)
  : Outcome (list Z) :=
  match fuel, s with
  | O, _ | _, [] => Ok []
  | S fuel', _ :: _ =>
      match utf8_decode1 s with
      | Decoded ch len =>
          match utf8_decode fuel' errors (drop len s) with
          | Ok r => Ok (ch :: r)
          | o => o
          end
      | InvalidStart =>
          match errors with
          | strict => Raise UnicodeDecodeError
          | ignore => utf8_decode fuel' errors (drop 1 s)
          end
      | InvalidContinuation len =>
          match errors with
          | strict => Raise UnicodeDecodeError
          | ignore => utf8_decode fuel' errors (drop len s)
          end
      | UnexpectedEnd =>
          match errors with
          | strict => Raise UnicodeDecodeError
          | ignore => Ok []
          end
      end
  end.

Definition bytes_decode (errors : Errors) (s : list Z) : Outcome (list Z) :=
  utf8_decode (length s) errors s.

(** ** [struct.pack("HHHH", ...)]

    Four unsigned shorts in native byte order and alignment: 8 bytes, each
    short least significant byte first (the order of x86-64 and AArch64).
    A value that is not an integer, or not in [0, 65535], raises
    [struct.error]; a [bool] packs as 0 or 1. *)

Definition pack_H (v : PyVal) : Outcome (list Z) :=
  match v with
  | PyInt n =>
      if (0 <=? n) && (n <=? 0xFFFF) then Ok (Z_to_little_endian 2 8 n)
      else Raise StructError
  | PyBool b => Ok (Z_to_little_endian 2 8 (if b then 1 else 0))
  | _ => Raise StructError
  end.

Fixpoint struct_pack_H (vs : list PyVal) : Outcome (list Z) :=
  match vs with
  | [] => Ok []
  | v :: vs' =>
      match pack_H v with
      | Ok b =>
          match struct_pack_H vs' with
          | Ok r => Ok (b ++ r)
          | o => o
          end
      | o => o
      end
  end.

(** The kernel's reading of the 8 bytes of a [struct winsize]. *)
Record Winsize : Type := mkWinsize {
  ws_row : Z; ws_col : Z; ws_xpixel : Z; ws_ypixel : Z
}.

Definition unpack_winsize (b : list Z) : option Winsize :=
  match b with
  | [r0; r1; c0; c1; x0; x1; y0; y1] =>
      Some (mkWinsize (little_endian_to_Z 8 [r0; r1])
                      (little_endian_to_Z 8 [c0; c1])
                      (little_endian_to_Z 8 [x0; x1])
                      (little_endian_to_Z 8 [y0; y1]))
  | _ => None
  end.

(** ** The world the handlers run in *)

(** The entries of [app.config] the session core uses.  [fd] and
    [child_pid] start as [None] and are only ever assigned integers. *)
Record Config : Type := mkConfig {
  config_fd : option Z;
  config_child_pid : option Z;
  config_useTmp : PyVal;
  config_cmd : list string;
  config_tmp : option string
}.

(** The kernel side of one pty, keyed by the descriptor of its master end
    in the server process. *)
Record Pty : Type := mkPty {
  pty_child : Z;            (* pid of the process behind the slave end *)
  pty_slave_open : bool;    (* false once that process is gone *)
  pty_stdin : list Z;       (* every byte written to the master so far *)
  pty_stdout : list Z;      (* bytes waiting to be read from the master *)
  pty_winsize : Winsize
}.

Definition with_stdin (v : list Z) (p : Pty) : Pty :=
  mkPty (pty_child p) (pty_slave_open p) v (pty_stdout p) (pty_winsize p).
Definition with_stdout (v : list Z) (p : Pty) : Pty :=
  mkPty (pty_child p) (pty_slave_open p) (pty_stdin p) v (pty_winsize p).
Definition with_winsize (v : Winsize) (p : Pty) : Pty :=
  mkPty (pty_child p) (pty_slave_open p) (pty_stdin p) (pty_stdout p) v.
Definition with_slave_open (v : bool) (p : Pty) : Pty :=
  mkPty (pty_child p) v (pty_stdin p) (pty_stdout p) (pty_winsize p).

(** What the input queue of a terminal does with a write to the master:
    it takes all the bytes, or it is full after the first [m] and the
    writer waits for the child to read. *)
Inductive Accepts : Type :=
| AcceptsAll
| FullAfter (m : nat).

(** The terminal (line discipline) between the master and the slave end.
    Its modes are set by [pty.fork] and by the child, not by the server:
    they are a parameter.  Each of the three functions sees the pty it
    acts on. *)
Record Tty : Type := mkTty {
  tty_read_max : positive;
      (* the most one read of the master returns (4095 on Linux) *)
  tty_input_queue : Pty -> list Z -> Accepts;
      (* the fate of a write to the master *)
  tty_echo : Pty -> list Z -> list Z;
      (* what the master gets back for input bytes (ECHO) *)
  tty_opost : Pty -> list Z -> list Z
      (* what the master gets for bytes the child writes (OPOST, ONLCR) *)
}.

(** Which process the execution follows when [pty.fork] returns. *)
Inductive ForkSide : Type := Parent | Child.

(** How one [subprocess.run] ends. *)
Inductive RunResult : Type :=
| Returned (returncode : Z)
| Failed (errno : Z)
| NeverReturns.

Record Kernel : Type := mkKernel {
  k_ptys : gmap Z Pty;
  k_next_pid : positive;    (* pids are positive *)
  k_next_fd : Z;
  k_nproc : nat;            (* processes that may still be created *)
  k_eof_eio : bool;         (* reading a master whose slave is closed:
                               EIO (Linux) or end of file, b'' (BSD) *)
  k_fork_side : ForkSide;
  k_exec : list string -> nat -> RunResult;
                            (* the outcome of the i-th run of a command *)
  k_runs : nat;             (* [subprocess.run] calls made so far *)
  k_tmpdirs : nat;          (* directories made by [tempfile.mkdtemp] *)
  k_tty : Tty               (* the terminal of the ptys *)
}.

Inductive Level : Type := DEBUG | INFO.

(** The calls the program makes, in the order it makes them. *)
Inductive Call : Type :=
| Sleep (seconds : PyVal)
| Select (rlist : list Z) (timeout : Z) (ready : list Z)
| Read (fd : Z) (n : Z) (result : Outcome (list Z))
| Write (fd : Z) (data : list Z)
| Ioctl (fd : Z) (request : Z) (arg : list Z)
| Fork
| Emit (event : string) (data : gmap string PyVal) (namespace : string)
| StartTask (target : string)
| Mkdtemp (path : string)
| Run (args : list string) (cwd : option string)
| Log (level : Level) (msg : string).

(** A background task started by [socketio.start_background_task]. *)
Inductive TaskState : Type :=
| TaskRunning
| TaskDied (e : PyExn).

Record World : Type := mkWorld {
  config : Config;
  kernel : Kernel;
  tasks : list TaskState;
  history : list Call
}.

Definition set_config (f : Config -> Config) (w : World) : World :=
  mkWorld (f (config w)) (kernel w) (tasks w) (history w).
Definition set_kernel (f : Kernel -> Kernel) (w : World) : World :=
  mkWorld (config w) (f (kernel w)) (tasks w) (history w).
Definition set_tasks (f : list TaskState -> list TaskState) (w : World)
  : World :=
  mkWorld (config w) (kernel w) (f (tasks w)) (history w).
Definition called (c : Call) (w : World) : World :=
  mkWorld (config w) (kernel w) (tasks w) (history w ++ [c]).

Definition set_ptys (f : gmap Z Pty -> gmap Z Pty) (k : Kernel) : Kernel :=
  mkKernel (f (k_ptys k)) (k_next_pid k) (k_next_fd k) (k_nproc k)
           (k_eof_eio k) (k_fork_side k) (k_exec k) (k_runs k) (k_tmpdirs k)
           (k_tty k).

(** ** The monad of Python calls *)

Definition Py (A : Type) : Type := World -> Outcome A * World.

#[global] Instance Py_ret : MRet Py := fun A a w => (Ok a, w).
#[global] Instance Py_bind : MBind Py := fun A B f c w =>
  match c w with
  | (Ok a, w') => f a w'
  | (Raise e, w') => (Raise e, w')
  | (Hang, w') => (Hang, w')
  | (Running, w') => (Running, w')
  end.

Definition raise {A : Type} (e : PyExn) : Py A := fun w => (Raise e, w).
Definition hang {A : Type} : Py A := fun w => (Hang, w).
Definition get_world : Py World := fun w => (Ok w, w).
Definition update (f : World -> World) : Py unit := fun w => (Ok tt, f w).
Definition call (c : Call) : Py unit := update (called c).

(** A pure computation that may raise. *)
Definition lift {A : Type} (o : Outcome A) : Py A := fun w => (o, w).

(** [while True: body], observed for [fuel] iterations.  There is no
    [break] in the source loops: the loop is left only by an exception or
    by a call that never returns, and after [fuel] iterations that all
    returned it is back at its head, still [Running]. *)
Fixpoint while_True {A : Type} (fuel : nat) (body : Py unit) : Py A :=
  match fuel with
  | O => fun w => (Running, w)
  | S fuel' => body;; while_True fuel' body
  end.

(** ** Python built-ins the handlers use *)

(** The truth value of an [app.config] entry that is [None] or an int:
    [None] and [0] are false. *)
Definition truthy (v : option Z) : bool :=
  match v with
  | None => false
  | Some n => negb (n =? 0)
  end.

Definition py_truthy (v : PyVal) : bool :=
  match v with
  | PyNone => false
  | PyBool b => b
  | PyInt n => negb (n =? 0)
  | PyFloat n _ => negb (n =? 0)
  | PyStr s => negb (bool_decide (s = []))
  end.

(** An argument that must be a file descriptor. *)
Definition as_fd (v : option Z) : Py Z :=
  match v with
  | Some n => mret n
  | None => raise TypeError
  end.

(** [key in data] and [data[key]] on a payload dict. *)
Definition py_in (key : string) (data : gmap string PyVal) : bool :=
  bool_decide (is_Some (data !! key)).

Definition getitem (data : gmap string PyVal) (key : string) : Py PyVal :=
  match data !! key with
  | Some v => mret v
  | None => raise (KeyError key)
  end.

(** [v.encode()]: only a [str] has the method. *)
Definition encode (v : PyVal) : Py (list Z) :=
  match v with
  | PyStr s => lift (str_encode s)
  | _ => raise AttributeError
  end.

(** [a + b]. *)
Definition py_add (a b : PyVal) : Py PyVal :=
  match a, b with
  | PyStr s, PyStr t => mret (PyStr (s ++ t))
  | PyInt m, PyInt n => mret (PyInt (m + n))
  | _, _ => raise TypeError
  end.

(** ** The library and system calls *)

Definition logging_debug (msg : string) : Py unit := call (Log DEBUG msg).
Definition logging_info (msg : string) : Py unit := call (Log INFO msg).

(** [socketio.sleep(seconds)]: the task gives way for that long. *)
Definition socketio_sleep (seconds : PyVal) : Py unit := call (Sleep seconds).

Definition socketio_emit (event : string) (data : gmap string PyVal)
    (namespace : string) : Py unit :=
  call (Emit event data namespace).

Definition socketio_start_background_task (target : string) : Py unit :=
  call (StartTask target);;
  update (set_tasks (fun ts => ts ++ [TaskRunning])).

(** A pty master is readable when it holds unread output, or when its
    slave end is closed (the read then reports the hang-up at once). *)
Definition readable (p : Pty) : bool :=
  negb (bool_decide (pty_stdout p = [])) || negb (pty_slave_open p).

Definition fd_readable (k : Kernel) (fd : Z) : bool :=
  match k_ptys k !! fd with
  | Some p => readable p
  | None => false
  end.

Definition fd_open (k : Kernel) (fd : Z) : bool :=
  bool_decide (is_Some (k_ptys k !! fd)).

(** [select.select(rlist, [], [], timeout)] with a number as timeout:
    returns after at most [timeout] seconds with the descriptors that are
    ready. *)
Definition select_select (rlist : list Z) (timeout : Z)
  : Py (list Z * list Z * list Z) :=
  w ← get_world;
  if forallb (fd_open (kernel w)) rlist then
    let ready := filter (fun fd => fd_readable (kernel w) fd = true) rlist in
    call (Select rlist timeout ready);;
    mret (ready, [], [])
  else
    call (Select rlist timeout []);;
    raise (OSError EBADF).

(** The number of bytes a read of [n] bytes on a pty master returns when
    at least as many are waiting: [n], or the most the terminal hands
    out in one read if that is less. *)
Definition read_size (k : Kernel) (n : Z) : nat :=
  Nat.min (Z.to_nat n) (Pos.to_nat (tty_read_max (k_tty k))).

(** [os.read(fd, n)]: the first [read_size] of the waiting bytes, or all
    of them if they are fewer.  With nothing waiting the call blocks
    until the child writes; if the slave end is closed it fails with EIO
    or returns [b''], by platform. *)
Definition os_read (fd : Z) (n : Z) : Py (list Z) :=
  w ← get_world;
  match k_ptys (kernel w) !! fd with
  | None =>
      call (Read fd n (Raise (OSError EBADF)));;
      raise (OSError EBADF)
  | Some p =>
      match pty_stdout p with
      | [] =>
          if pty_slave_open p then
            call (Read fd n Hang);; hang
          else if k_eof_eio (kernel w) then
            call (Read fd n (Raise (OSError EIO)));;
            raise (OSError EIO)
          else
            call (Read fd n (Ok []));;
            mret []
      | out =>
          let got := take (read_size (kernel w) n) out in
          let rest := drop (read_size (kernel w) n) out in
          call (Read fd n (Ok got));;
          update (set_kernel (set_ptys <[fd := with_stdout rest p]>));;
          mret got
      end
  end.

(** The pty after the terminal took [data] from a write to the master:
    the bytes are part of the input, and what the terminal echoes of them
    waits to be read from the master. *)
Definition received (tty : Tty) (data : list Z) (p : Pty) : Pty :=
  with_stdout (pty_stdout p ++ tty_echo tty p data)
    (with_stdin (pty_stdin p ++ data) p).

(** [os.write(fd, data)] on a pty master, a blocking descriptor: the call
    returns when the terminal has taken all the bytes, and their number
    is its result.  When the input queue is full before that, the call
    waits for the child to read, and does not return if the child does
    not.  That the process behind the slave end is gone is no error for
    the write. *)
Definition os_write (fd : Z) (data : list Z) : Py Z :=
  w ← get_world;
  call (Write fd data);;
  match k_ptys (kernel w) !! fd with
  | None => raise (OSError EBADF)
  | Some p =>
      let tty := k_tty (kernel w) in
      match tty_input_queue tty p data with
      | AcceptsAll =>
          update (set_kernel (set_ptys <[fd := received tty data p]>));;
          mret (Z.of_nat (length data))
      | FullAfter m =>
          update (set_kernel (set_ptys
            <[fd := received tty (take m data) p]>));;
          hang
      end
  end.

Definition TIOCSWINSZ : Z := 0x5414.
Definition EINVAL : Z := 22.

(** [fcntl.ioctl(fd, request, arg)]; the only request the program makes is
    [TIOCSWINSZ], which stores the window size. *)
Definition fcntl_ioctl (fd : Z) (request : Z) (arg : list Z) : Py Z :=
  w ← get_world;
  call (Ioctl fd request arg);;
  match k_ptys (kernel w) !! fd with
  | None => raise (OSError EBADF)
  | Some p =>
      match unpack_winsize arg with
      | Some ws =>
          if request =? TIOCSWINSZ then
            update (set_kernel (set_ptys <[fd := with_winsize ws p]>));;
            mret 0
          else raise (OSError EINVAL)
      | None => raise (OSError EINVAL)
      end
  end.

(** [pty.fork()]: a new process behind a new pty.  The parent gets the
    child's pid and the master's descriptor, the child gets pid 0 and an
    invalid descriptor.  The new pty has no window size yet.

    When no process can be created, [os.forkpty()] fails; [pty.fork]
    catches that error and goes on with [openpty()], which opens a master
    and a slave descriptor, and [os.fork()], which fails in turn: its
    [OSError] is the one the caller gets, and the two descriptors stay
    open in the server, the master at [k_next_fd] and the slave after
    it. *)
Definition pty_fork : Py (Z * Z) :=
  w ← get_world;
  call Fork;;
  let k := kernel w in
  match k_nproc k with
  | O =>
      let fd := k_next_fd k in
      update (set_kernel (fun _ =>
        mkKernel (<[fd := mkPty 0 true [] [] (mkWinsize 0 0 0 0)]>
                    (k_ptys k))
                 (k_next_pid k) (fd + 2) O
                 (k_eof_eio k) (k_fork_side k) (k_exec k) (k_runs k)
                 (k_tmpdirs k) (k_tty k)));;
      raise (OSError EAGAIN)
  | S nproc =>
      match k_fork_side k with
      | Child => mret (0, -1)
      | Parent =>
          let pid := Z.pos (k_next_pid k) in
          let fd := k_next_fd k in
          update (set_kernel (fun _ =>
            mkKernel (<[fd := mkPty pid true [] [] (mkWinsize 0 0 0 0)]>
                        (k_ptys k))
                     (Pos.succ (k_next_pid k)) (fd + 1) nproc
                     (k_eof_eio k) (k_fork_side k) (k_exec k) (k_runs k)
                     (k_tmpdirs k) (k_tty k)));;
          mret (pid, fd)
      end
  end.

(** [tempfile.mkdtemp()]: a fresh directory. *)
Definition tempfile_mkdtemp : Py string :=
  w ← get_world;
  let k := kernel w in
  let path := ("/tmp/tmp" +:+ pretty (k_tmpdirs k))%string in
  call (Mkdtemp path);;
  update (set_kernel (fun _ =>
    mkKernel (k_ptys k) (k_next_pid k) (k_next_fd k) (k_nproc k)
             (k_eof_eio k) (k_fork_side k) (k_exec k) (k_runs k)
             (S (k_tmpdirs k)) (k_tty k)));;
  mret path.

(** [subprocess.run(args, cwd=cwd)]: runs the command and waits for it.
    No [check=True]: a non-zero return code is not an error; a command
    that cannot be started raises [OSError]. *)
Definition subprocess_run (args : list string) (cwd : option string)
  : Py Z :=
  w ← get_world;
  let k := kernel w in
  call (Run args cwd);;
  update (set_kernel (fun _ =>
    mkKernel (k_ptys k) (k_next_pid k) (k_next_fd k) (k_nproc k)
             (k_eof_eio k) (k_fork_side k) (k_exec k) (S (k_runs k))
             (k_tmpdirs k) (k_tty k)));;
  match k_exec k args (k_runs k) with
  | Returned rc => mret rc
  | Failed errno => raise (OSError errno)
  | NeverReturns => hang
  end.

(** [shlex.quote(s)]: [s] itself when it has only safe characters, else
    [s] between single quotes, with each single quote of [s] written as
    a quote-doublequote-quote-doublequote-quote group. *)
Definition shlex_safe (c : ascii) : bool :=
  let n := Ascii.nat_of_ascii c in
  ((48 <=? n) && (n <=? 57) || (65 <=? n) && (n <=? 90)
   || (97 <=? n) && (n <=? 122))%nat
  || bool_decide (c ∈ String.list_ascii_of_string "_@%+=:,./-").

Definition dquote : string := String (Ascii.ascii_of_nat 34) EmptyString.

Fixpoint shlex_replace_quote (s : string) : string :=
  match s with
  | EmptyString => EmptyString
  | String c s' =>
      if bool_decide (c = "'"%char)
      then "'" +:+ dquote +:+ "'" +:+ dquote +:+ "'"
           +:+ shlex_replace_quote s'
      else String c (shlex_replace_quote s')
  end.

Definition shlex_quote (s : string) : string :=
  if bool_decide (s = EmptyString) then "''"
  else if forallb shlex_safe (String.list_ascii_of_string s) then s
  else "'" +:+ shlex_replace_quote s +:+ "'".

(** The text of a [str] made of characters below 256, for the log. *)
Definition text_of (v : PyVal) : string :=
  match v with
  | PyStr s =>
      String.string_of_list_ascii
        (map (fun ch => Ascii.ascii_of_N (Z.to_N ch)) s)
  | _ => EmptyString
  end.

(** ** The session core of [app.py] *)

Definition set_fd (v : option Z) (c : Config) : Config :=
  mkConfig v (config_child_pid c) (config_useTmp c) (config_cmd c)
           (config_tmp c).
Definition set_child_pid (v : option Z) (c : Config) : Config :=
  mkConfig (config_fd c) v (config_useTmp c) (config_cmd c) (config_tmp c).
Definition set_tmp (v : option string) (c : Config) : Config :=
  mkConfig (config_fd c) (config_child_pid c) (config_useTmp c)
           (config_cmd c) v.

(** [app.config[...]] reads. *)
Definition app_config : Py Config := w ← get_world; mret (config w).

(** [set_winsize(fd, row, col, xpix=0, ypix=0)] *)
Definition set_winsize (fd : Z) (row col xpix ypix : PyVal) : Py unit :=
  logging_debug "setting window size with termios";;
  winsize ← lift (struct_pack_H [row; col; xpix; ypix]);
  fcntl_ioctl fd TIOCSWINSZ winsize;;
  mret tt.

Definition max_read_bytes : Z := 1024 * 20.

(** One iteration of the loop of [read_and_forward_pty_output]. *)
Definition read_and_forward_pty_output_body : Py unit :=
  socketio_sleep (PyFloat 1 100);;
  c ← app_config;
  if truthy (config_fd c) then
    let timeout_sec := 0 in
    c ← app_config;
    fd ← as_fd (config_fd c);
    '(data_ready, _, _) ← select_select [fd] timeout_sec;
    if negb (bool_decide (data_ready = [])) then
      c ← app_config;
      fd ← as_fd (config_fd c);
      b ← os_read fd max_read_bytes;
      output ← lift (bytes_decode ignore b);
      socketio_emit "pty-output" {[ "output" := PyStr output ]} "/pty"
    else mret tt
  else mret tt.

(** [read_and_forward_pty_output()], observed for [fuel] iterations. *)
Definition read_and_forward_pty_output (fuel : nat) : Py unit :=
  while_True fuel read_and_forward_pty_output_body.

(** [pty_input(data)], the handler of the [pty-input] event. *)
Definition pty_input (data : gmap string PyVal) : Py unit :=
  c ← app_config;
  if truthy (config_fd c) then
    _ ← getitem data "input";
    logging_debug "received input from browser: %s";;
    c ← app_config;
    fd ← as_fd (config_fd c);
    input ← getitem data "input";
    b ← encode input;
    os_write fd b;;
    mret tt
  else mret tt.

(** [resize(data)], the handler of the [resize] event. *)
Definition resize (data : gmap string PyVal) : Py unit :=
  c ← app_config;
  if truthy (config_fd c) && py_in "rows" data && py_in "cols" data then
    _ ← getitem data "rows";
    _ ← getitem data "cols";
    logging_debug "Resizing window to {data['rows']}x{data['cols']}";;
    c ← app_config;
    fd ← as_fd (config_fd c);
    rows ← getitem data "rows";
    cols ← getitem data "cols";
    set_winsize fd rows cols (PyInt 0) (PyInt 0)
  else mret tt.

(** The body of the child's loop in [connect]. *)
Definition connect_child_body : Py unit :=
  c ← app_config;
  if py_truthy (config_useTmp c) then
    tmp ← tempfile_mkdtemp;
    update (set_config (set_tmp (Some tmp)));;
    c ← app_config;
    subprocess_run (config_cmd c) (config_tmp c);;
    mret tt
  else
    c ← app_config;
    subprocess_run (config_cmd c) None;;
    mret tt.

(** [connect()], the handler of the [connect] event.  [fuel] is the number
    of iterations for which the child's loop is observed; the parent's
    side does not use it. *)
Definition connect (fuel : nat) : Py unit :=
  logging_info "new client connected";;
  c ← app_config;
  if truthy (config_child_pid c) then
    (* already started child process, don't start another *)
    mret tt
  else
    '(child_pid, fd) ← pty_fork;
    if child_pid =? 0 then
      while_True fuel connect_child_body
    else
      update (set_config (set_fd (Some fd)));;
      update (set_config (set_child_pid (Some child_pid)));;
      set_winsize fd (PyInt 50) (PyInt 50) (PyInt 0) (PyInt 0);;
      c ← app_config;
      let cmd := String.concat " " (map shlex_quote (config_cmd c)) in
      socketio_start_background_task "read_and_forward_pty_output";;
      msg ← py_add (PyStr (py_str "child pid is ")) (PyInt child_pid);
      logging_info (text_of msg);;
      logging_info ("starting background task with command `" +:+ cmd
                    +:+ "` to continously read and forward pty output to client");;
      logging_info "task started".

(** [connect] cut in two between the test of line 80 and what follows
    it: the log line and the test of [app.config["child_pid"]], then,
    when no child was started, the fork and all that comes after it,
    among it the assignment of [app.config["child_pid"]] of line 100. *)
Definition connect_test : Py bool :=
  logging_info "new client connected";;
  c ← app_config;
  mret (truthy (config_child_pid c)).

Definition connect_after_test (fuel : nat) : Py unit :=
  '(child_pid, fd) ← pty_fork;
  if child_pid =? 0 then
    while_True fuel connect_child_body
  else
    update (set_config (set_fd (Some fd)));;
    update (set_config (set_child_pid (Some child_pid)));;
    set_winsize fd (PyInt 50) (PyInt 50) (PyInt 0) (PyInt 0);;
    c ← app_config;
    let cmd := String.concat " " (map shlex_quote (config_cmd c)) in
    socketio_start_background_task "read_and_forward_pty_output";;
    msg ← py_add (PyStr (py_str "child pid is ")) (PyInt child_pid);
    logging_info (text_of msg);;
    logging_info ("starting background task with command `" +:+ cmd
                  +:+ "` to continously read and forward pty output to client");;
    logging_info "task started".

Definition connect_rest (started : bool) : Py unit :=
  if started then mret tt else connect_after_test 0.

(** Two [connect] handlers of which the second makes its test before the
    first has gone on: both tests, then the rest of the first handler,
    then the rest of the second.  An exception ends the handler that
    raised it, not the other one. *)
Definition racing_connects (w : World) : list (Outcome unit) * World :=
  match connect_test w with
  | (Ok a, w1) =>
      match connect_test w1 with
      | (Ok b, w2) =>
          let '(ra, w3) := connect_rest a w2 in
          let '(rb, w4) := connect_rest b w3 in
          ([ra; rb], w4)
      | (_, w2) => ([], w2)
      end
  | (_, w1) => ([], w1)
  end.

(** ** The running server

    Handlers and tasks run one at a time: a handler runs to its end, a
    task from one [socketio.sleep] to the next.  Between them the child
    may write to its terminal or go away.  What the child writes passes
    through the terminal's output processing before it waits at the
    master. *)

Inductive Event : Type :=
| OnConnect
| OnPtyInput (data : gmap string PyVal)
| OnResize (data : gmap string PyVal)
| Pump (task : nat)
| ChildWrites (fd : Z) (data : list Z)
| ChildExits (fd : Z).

Definition child_writes (fd : Z) (data : list Z) (w : World) : World :=
  match k_ptys (kernel w) !! fd with
  | Some p =>
      if pty_slave_open p then
        set_kernel (set_ptys
          <[fd := with_stdout
                    (pty_stdout p ++ tty_opost (k_tty (kernel w)) p data) p]>)
          w
      else w
  | None => w
  end.

Definition child_exits (fd : Z) (w : World) : World :=
  match k_ptys (kernel w) !! fd with
  | Some p =>
      set_kernel (set_ptys <[fd := with_slave_open false p]>) w
  | None => w
  end.

(** One iteration of task [i], if it is still running; an exception that
    leaves the loop ends the task. *)
Definition pump (i : nat) : Py unit := fun w =>
  match tasks w !! i with
  | Some TaskRunning =>
      match read_and_forward_pty_output_body w with
      | (Raise e, w') => (Raise e, set_tasks <[i := TaskDied e]> w')
      | r => r
      end
  | _ => (Ok tt, w)
  end.

Definition step (e : Event) : Py unit :=
  match e with
  | OnConnect => connect 0
  | OnPtyInput data => pty_input data
  | OnResize data => resize data
  | Pump i => pump i
  | ChildWrites fd data => update (child_writes fd data)
  | ChildExits fd => update (child_exits fd)
  end.

(** The server over a sequence of events: the result of each, and the
    world at the end. *)
Fixpoint run (es : list Event) (w : World) : list (Outcome unit) * World :=
  match es with
  | [] => ([], w)
  | e :: es' =>
      let '(r, w') := step e w in
      let '(rs, w'') := run es' w' in
      (r :: rs, w'')
  end.

(** The state at start-up: [app.config["fd"]] and
    [app.config["child_pid"]] are [None], nothing has been called. *)
Definition initial_config (useTmp : PyVal) (cmd : list string) : Config :=
  mkConfig None None useTmp cmd None.

Definition initial_world (useTmp : PyVal) (cmd : list string) (k : Kernel)
  : World :=
  mkWorld (initial_config useTmp cmd) k [] [].

(** ** Reading the history *)

Definition is_fork (c : Call) : bool :=
  match c with Fork => true | _ => false end.
Definition is_start_task (c : Call) : bool :=
  match c with StartTask _ => true | _ => false end.
Definition is_ioctl (c : Call) : bool :=
  match c with Ioctl _ _ _ => true | _ => false end.
Definition is_run (c : Call) : bool :=
  match c with Run _ _ => true | _ => false end.
Definition is_read (c : Call) : bool :=
  match c with Read _ _ _ => true | _ => false end.

(** How many calls of a kind a history holds. *)
Definition count (p : Call -> bool) (h : list Call) : nat :=
  length (List.filter p h).

(** The bytes of the reads that returned, and the payloads of the
    [pty-output] events sent, oldest first. *)
Definition reads (h : list Call) : list (list Z) :=
  omap (fun c => match c with Read _ _ (Ok b) => Some b | _ => None end) h.

Definition outputs (h : list Call) : list (gmap string PyVal) :=
  omap (fun c => match c with Emit _ data _ => Some data | _ => None end) h.

(** The text [bytes.decode(errors='ignore')] returns. *)
Definition decode_ignore (b : list Z) : list Z :=
  match bytes_decode ignore b with
  | Ok s => s
  | _ => []
  end.

(** The payload of the [pty-output] event for the bytes of one read. *)
Definition output_of (b : list Z) : gmap string PyVal :=
  {[ "output"%string := PyStr (decode_ignore b) ]}.

(** A [socketio.sleep] argument in milliseconds. *)
Definition milliseconds (seconds : PyVal) : option Z :=
  match seconds with
  | PyInt n => Some (1000 * n)
  | PyFloat num den =>
      if (1000 * num) mod Z.pos den =? 0 then Some (1000 * num / Z.pos den)
      else None
  | _ => None
  end.

(** The calls a handler of the server process makes once the child is
    started, the calls of the pump, and the calls that create a process
    or a task. *)
Definition handler_call (c : Call) : bool :=
  match c with
  | Log _ _ | Write _ _ | Ioctl _ _ _ => true
  | _ => false
  end.

Definition pump_call (c : Call) : bool :=
  match c with
  | Sleep _ | Select _ _ _ | Read _ _ _ | Emit _ _ _ => true
  | _ => false
  end.

Definition spawn_call (c : Call) : bool :=
  match c with
  | Fork | StartTask _ => true
  | _ => false
  end.

(** A call that creates neither a process nor a task. *)
Definition no_spawn (c : Call) : Prop := spawn_call c = false.

(** ** What a call leaves alone *)

(** [c] takes every world to a world related to it by [R], however it
    ends. *)
Definition stable (R : World -> World -> Prop) {A : Type} (c : Py A)
  : Prop :=
  forall w, R w (c w).2.

(** [appends P w w']: the history grew by calls that all satisfy [P]. *)
Definition appends (P : Call -> Prop) (w w' : World) : Prop :=
  exists calls, history w' = history w ++ calls /\ Forall P calls.

(** [frame P Q w w']: from [w] to [w'] the [app.config] entries, the pid
    and descriptor counters, the terminal and the number of tasks are the
    same, the same descriptors are open, each pty is related to what it
    was by [Q], and the history grew by calls that all satisfy [P]. *)
Record frame (P : Call -> Prop) (Q : Pty -> Pty -> Prop) (w w' : World)
  : Prop := mk_frame {
  frame_config : config w' = config w;
  frame_next_pid : k_next_pid (kernel w') = k_next_pid (kernel w);
  frame_next_fd : k_next_fd (kernel w') = k_next_fd (kernel w);
  frame_nproc : k_nproc (kernel w') = k_nproc (kernel w);
  frame_eof : k_eof_eio (kernel w') = k_eof_eio (kernel w);
  frame_tty : k_tty (kernel w') = k_tty (kernel w);
  frame_tasks : length (tasks w') = length (tasks w);
  frame_ptys : forall fd,
    option_Forall2 Q (k_ptys (kernel w) !! fd) (k_ptys (kernel w') !! fd);
  frame_history : appends P w w'
}.

(** Relations between a pty and what it becomes. *)
Definition any_pty (p p' : Pty) : Prop := True.

Definition same_input (p p' : Pty) : Prop :=
  pty_stdin p' = pty_stdin p /\ pty_slave_open p' = pty_slave_open p.

(** A session is running on [fd]: the handlers' check on
    [app.config["fd"]] passes, a child was started, and the process
    behind the pty [p] of [fd] is alive. *)
Record running (w : World) (fd : Z) (p : Pty) : Prop := mk_running {
  running_fd : config_fd (config w) = Some fd;
  running_attached : fd <> 0;
  running_started : truthy (config_child_pid (config w)) = true;
  running_pty : k_ptys (kernel w) !! fd = Some p;
  running_alive : pty_slave_open p = true
}.

(** What a write of [data] to the master of [p] comes to: the bytes the
    terminal takes, and how the call ends for a caller that drops its
    result. *)
Definition accepted (tty : Tty) (p : Pty) (data : list Z) : list Z :=
  match tty_input_queue tty p data with
  | AcceptsAll => data
  | FullAfter m => take m data
  end.

Definition write_ends (tty : Tty) (p : Pty) (data : list Z) : Outcome unit :=
  match tty_input_queue tty p data with
  | AcceptsAll => Ok tt
  | FullAfter _ => Hang
  end.



Definition is_child_exit (e : Event) : bool :=
  match e with ChildExits _ => true | _ => false end.

(** The values [struct.pack] accepts for an [H] field. *)
Definition is_H (v : PyVal) : bool :=
  match v with
  | PyInt n => (0 <=? n) && (n <=? 0xFFFF)
  | PyBool _ => true
  | _ => false
  end.

(** The world after [connect] in the server process when no child was
    started. *)
Definition connected (w : World) : World :=
  let k := kernel w in
  let pid := Z.pos (k_next_pid k) in
  let fd := k_next_fd k in
  mkWorld
    (set_child_pid (Some pid) (set_fd (Some fd) (config w)))
    (mkKernel
       (<[fd := mkPty pid true [] [] (mkWinsize 50 50 0 0)]> (k_ptys k))
       (Pos.succ (k_next_pid k)) (fd + 1) (pred (k_nproc k)) (k_eof_eio k)
       (k_fork_side k) (k_exec k) (k_runs k) (k_tmpdirs k) (k_tty k))
    (tasks w ++ [TaskRunning])
    (history w ++
       [Log INFO "new client connected"; Fork;
        Log DEBUG "setting window size with termios";
        Ioctl fd TIOCSWINSZ [50; 0; 50; 0; 0; 0; 0; 0];
        StartTask "read_and_forward_pty_output"]).

(** Calls that neither read the pty nor send an event. *)
Definition quiet_call (c : Call) : bool :=
  match c with
  | Read _ _ _ | Emit _ _ _ => false
  | _ => true
  end.

(** [forwards w w']: the history grew, and in what was added every read
    that returned is matched, in order, by one event carrying its text. *)
Definition forwards (w w' : World) : Prop :=
  exists calls,
    history w' = history w ++ calls
    /\ outputs calls = output_of <$> reads calls.

(** ** Sample worlds

    The terminal as [pty.fork] leaves it, with ECHO, ICRNL and ONLCR set,
    on text and line ends (the control characters that the terminal acts
    on are not in the samples): a line feed written by the child comes
    out as carriage return and line feed; input is echoed as it is, a
    line feed or carriage return as carriage return and line feed, as
    long as the slave end is open; a read returns at most 4095 bytes; the
    child reads what it is sent. *)
Definition onlcr (data : list Z) : list Z :=
  concat (map (fun c => if c =? 10 then [13; 10] else [c]) data).

Definition echo_text (data : list Z) : list Z :=
  concat (map (fun c => if (c =? 10) || (c =? 13) then [13; 10] else [c])
              data).

Definition cooked : Tty :=
  mkTty 4095 (fun _ _ => AcceptsAll)
        (fun p data => if pty_slave_open p then echo_text data else [])
        (fun _ data => onlcr data).



(** A server started as [pyxtermjs --command bash]: [useTmp] holds the
    default of [--tmp], the string [False].  The kernel hands out pid 4242
    and descriptor 5 next; [linux] fails a read after a hang-up with EIO,
    [bsd] reports end of file. *)
Definition sample_kernel (eof_eio : bool) (side : ForkSide)
    (exec : list string -> nat -> RunResult) : Kernel :=
  mkKernel ∅ 4242%positive 5 8%nat eof_eio side exec 0 0 cooked.

Definition linux : World :=
  initial_world (PyStr (py_str "False")) ["bash"%string]
    (sample_kernel true Parent (fun _ _ => Returned 0)).

Definition bsd : World :=
  initial_world (PyStr (py_str "False")) ["bash"%string]
    (sample_kernel false Parent (fun _ _ => Returned 0)).

(** The child's side of the fork, for a command that returns each time
    it is run, and for one that cannot be started (ENOENT). *)
Definition ENOENT : Z := 2.

Definition child_of_bash : World :=
  initial_world (PyStr (py_str "False")) ["bash"%string]
    (sample_kernel true Child (fun _ _ => Returned 0)).

Definition child_of_typo : World :=
  initial_world PyNone ["bahs"%string]
    (sample_kernel true Child (fun _ _ => Failed ENOENT)).


Definition input_of (s : string) : gmap string PyVal :=
  {[ "input"%string := PyStr (py_str s) ]}.

Definition size_of (rows cols : PyVal) : gmap string PyVal :=
  {[ "rows"%string := rows; "cols"%string := cols ]}.

(** The number an accepted [H] field stands for. *)
Definition H_value (v : PyVal) : Z :=
  match v with
  | PyInt n => n
  | PyBool true => 1
  | _ => 0
  end.

(** What the runs of the command have in common from one iteration to the
    next, and how many more of them there were. *)
Record child_ran (n : nat) (w w' : World) : Prop := mk_child_ran {
  ran_cmd : config_cmd (config w') = config_cmd (config w);
  ran_exec : k_exec (kernel w') = k_exec (kernel w);
  ran_runs : k_runs (kernel w') = (n + k_runs (kernel w))%nat;
  ran_history : count is_run (history w')
                = (n + count is_run (history w))%nat
}.

Definition outcome_of_run (r : RunResult) : Outcome unit :=
  match r with
  | Returned _ => Ok tt
  | Failed errno => Raise (OSError errno)
  | NeverReturns => Hang
  end.

(** The code points a Python [str] can hold. *)
Definition code_point (ch : Z) : Prop := 0 <= ch <= 0x10FFFF.

(** A UTF-8 continuation byte, and a byte that starts no character: a
    continuation byte, [0xC0], [0xC1], or [0xF5] and above. *)
Definition continuation (c : Z) : Prop := 0x80 <= c < 0xC0.


(** ** Reading runs of the server *)

(** A descriptor is attached: the handlers' check on [app.config["fd"]]
    passes, a child was started, and the descriptor is open on the pty
    [p].  The child may be gone. *)
Record attached (w : World) (fd : Z) (p : Pty) : Prop := mk_attached {
  attached_fd : config_fd (config w) = Some fd;
  attached_nonzero : fd <> 0;
  attached_started : truthy (config_child_pid (config w)) = true;
  attached_pty : k_ptys (kernel w) !! fd = Some p
}.

(** Relations between a pty and what it becomes. *)
Definition same_output (p p' : Pty) : Prop :=
  pty_stdout p' = pty_stdout p /\ pty_slave_open p' = pty_slave_open p.

Definition same_window (p p' : Pty) : Prop :=
  pty_winsize p' = pty_winsize p.

(** The bytes the reads on [fd] returned, in the order they were read. *)
Definition read_from (fd : Z) (h : list Call) : list Z :=
  concat (omap (fun c =>
    match c with
    | Read fd' _ (Ok b) => if bool_decide (fd' = fd) then Some b else None
    | _ => None
    end) h).

(** The bytes the terminal of [fd] puts in front of the master when the
    event [e] happens in the world [w]: what it makes of the bytes the
    child writes, and what it echoes of the bytes that a [pty-input]
    handler writes and it takes. *)
Definition arrives (fd : Z) (e : Event) (w : World) : list Z :=
  match k_ptys (kernel w) !! fd with
  | Some p =>
      let tty := k_tty (kernel w) in
      match e with
      | ChildWrites fd' data =>
          if bool_decide (fd' = fd) && pty_slave_open p
          then tty_opost tty p data else []
      | OnPtyInput data =>
          match config_fd (config w), data !! "input"%string with
          | Some fd', Some (PyStr s) =>
              match str_encode s with
              | Ok b =>
                  if bool_decide (fd' = fd)
                  then tty_echo tty p (accepted tty p b) else []
              | _ => []
              end
          | _, _ => []
          end
      | _ => []
      end
  | None => []
  end.

(** The same over a sequence of events, each in the world the events
    before it have made. *)
Fixpoint delivered (fd : Z) (es : list Event) (w : World) : list Z :=
  match es with
  | [] => []
  | e :: es' => arrives fd e w ++ delivered fd es' (step e w).2
  end.

(** The window a [resize] payload asks for, when [resize] acts on it: both
    keys present and both values accepted by [struct.pack]. *)
Definition requested_size (data : gmap string PyVal) : option Winsize :=
  match data !! "rows"%string, data !! "cols"%string with
  | Some rows, Some cols =>
      if is_H rows && is_H cols
      then Some (mkWinsize (H_value rows) (H_value cols) 0 0)
      else None
  | _, _ => None
  end.

(** The window after an event, and after a sequence of events. *)
Definition resized (ws : Winsize) (e : Event) : Winsize :=
  match e with
  | OnResize data => default ws (requested_size data)
  | _ => ws
  end.

Definition last_size (es : list Event) (ws : Winsize) : Winsize :=
  foldl resized ws es.

Definition is_connect (e : Event) : bool :=
  match e with OnConnect => true | _ => false end.

(** The kernel after a [pty.fork] that could not create a process: the
    master and the slave that [openpty()] opened are still open. *)
Definition fork_failed (k : Kernel) : Kernel :=
  mkKernel (<[k_next_fd k := mkPty 0 true [] [] (mkWinsize 0 0 0 0)]>
              (k_ptys k))
           (k_next_pid k) (k_next_fd k + 2) O (k_eof_eio k) (k_fork_side k)
           (k_exec k) (k_runs k) (k_tmpdirs k) (k_tty k).

(** A surrogate code point, which [str.encode] refuses. *)
Definition surrogate (ch : Z) : Prop := 0xD800 <= ch <= 0xDFFF.

(** The first [fuel] pieces of [l] cut every [n] bytes, stopping when
    nothing is left: what [fuel] successive reads of at most [n] bytes
    return. *)
Fixpoint chunks (fuel : nat) (n : nat) (l : list Z) : list (list Z) :=
  match fuel, l with
  | O, _ | _, [] => []
  | S fuel', _ :: _ => take n l :: chunks fuel' n (drop n l)
  end.

(** Events that come from a client's terminal: input and resize. *)
Definition is_client_io (e : Event) : bool :=
  match e with
  | OnPtyInput _ | OnResize _ => true
  | _ => false
  end.

(** The directory [tempfile.mkdtemp] makes when [i] were made before. *)
Definition tmp_path (i : nat) : string := ("/tmp/tmp" +:+ pretty i)%string.

(** The calls of [n] iterations of the child's loop, when [made]
    directories were made before: with [useTmp] a new directory and a run
    in it each time, else a run in the current directory. *)
Fixpoint child_calls (useTmp : bool) (cmd : list string) (made n : nat)
  : list Call :=
  match n with
  | O => []
  | S n' =>
      if useTmp then
        Mkdtemp (tmp_path made) :: Run cmd (Some (tmp_path made))
        :: child_calls useTmp cmd (S made) n'
      else Run cmd None :: child_calls useTmp cmd made n'
  end.

(** ** [shlex.split]

    [main] cuts the text of [--cmd-args] with [shlex.split(s)]: a POSIX
    lexer on [s] with [whitespace_split] set and no comment characters,
    whose tokens are listed until it reports the end of the text.
    [read_token] reads one character at a time and keeps four variables:
    [state] (a blank between tokens, [a] in a word, the quote character
    inside quotes, the escape character after a backslash),
    [escapedstate] (the state to return to after an escaped character),
    [quoted] (a quote was seen in this token) and [token]. *)
Inductive LexState : Type :=
| InSpace                 (* state == ' ' *)
| InWord                  (* state == 'a' *)
| InQuote (q : ascii)     (* state in quotes *)
| InEscape (e : ascii).   (* state in escape *)

Definition dq : ascii := Ascii.ascii_of_nat 34.
Definition backslash : ascii := Ascii.ascii_of_nat 92.

(** [whitespace] is blank, tab, carriage return and line feed; [quotes]
    the single and the double quote; [escape] the backslash;
    [escapedquotes] the double quote. *)
Definition lex_whitespace (c : ascii) : bool :=
  bool_decide (c ∈ [" "%char; Ascii.ascii_of_nat 9; Ascii.ascii_of_nat 13;
                    Ascii.ascii_of_nat 10]).
Definition lex_quotes (c : ascii) : bool :=
  bool_decide (c ∈ ["'"%char; dq]).
Definition lex_escape (c : ascii) : bool := bool_decide (c = backslash).
Definition lex_escapedquotes (c : ascii) : bool := bool_decide (c = dq).

(** What [shlex.split] gives: the tokens, or the [ValueError] of the
    lexer. *)
Inductive Split : Type :=
| Tokens (l : list string)
| ValueError (msg : string).

(** The end of one [read_token]: the result is [None], which ends the
    list, when the token is empty and no quote was seen; else the token is
    listed and the next call reads on. *)
Definition emit (quoted : bool) (token : string) (rest : Split) : Split :=
  if negb quoted && bool_decide (token = EmptyString) then Tokens []
  else match rest with
       | Tokens l => Tokens (token :: l)
       | ValueError msg => ValueError msg
       end.

Definition push (token : string) (c : ascii) : string :=
  token +:+ String c EmptyString.

(** The loop of [read_token], over the characters left to read.  A
    [break] is [emit]; the next call starts with [quoted] false,
    [escapedstate] a blank and an empty token, in the state the lexer was
    left in.  With [whitespace_split] set a character that is no blank,
    no quote and no backslash starts or extends a word, whether or not
    it is in [wordchars], which holds no blank, quote or backslash. *)
Fixpoint read_token (state escapedstate : LexState) (quoted : bool)
    (token : string) (instream : string) : Split :=
  match instream with
  | EmptyString =>
      match state with
      | InSpace | InWord => emit quoted token (Tokens [])
      | InQuote _ => ValueError "No closing quotation"
      | InEscape _ => ValueError "No escaped character"
      end
  | String nextchar rest =>
      match state with
      | InSpace =>
          if lex_whitespace nextchar then
            if negb (bool_decide (token = EmptyString)) || quoted
            then emit quoted token
                   (read_token InSpace InSpace false EmptyString rest)
            else read_token InSpace escapedstate quoted token rest
          else if lex_escape nextchar then
            read_token (InEscape nextchar) InWord quoted token rest
          else if lex_quotes nextchar then
            read_token (InQuote nextchar) escapedstate quoted token rest
          else
            read_token InWord escapedstate quoted
              (String nextchar EmptyString) rest
      | InQuote q =>
          if bool_decide (nextchar = q) then
            read_token InWord escapedstate true token rest
          else if lex_escape nextchar && lex_escapedquotes q then
            read_token (InEscape nextchar) (InQuote q) true token rest
          else
            read_token (InQuote q) escapedstate true (push token nextchar)
              rest
      | InEscape e =>
          let token :=
            match escapedstate with
            | InQuote q =>
                if negb (bool_decide (nextchar = e))
                   && negb (bool_decide (nextchar = q))
                then push token e else token
            | _ => token
            end in
          read_token escapedstate escapedstate quoted (push token nextchar)
            rest
      | InWord =>
          if lex_whitespace nextchar then
            if negb (bool_decide (token = EmptyString)) || quoted
            then emit quoted token
                   (read_token InSpace InSpace false EmptyString rest)
            else read_token InSpace escapedstate quoted token rest
          else if lex_quotes nextchar then
            read_token (InQuote nextchar) escapedstate quoted token rest
          else if lex_escape nextchar then
            read_token (InEscape nextchar) InWord quoted token rest
          else
            read_token InWord escapedstate quoted (push token nextchar) rest
      end
  end.

Definition shlex_split (s : string) : Split :=
  read_token InSpace InSpace false EmptyString s.

(** ** [main()]

    [parser.parse_args()] gives the options as a namespace.  No option
    has a [type]: what the command line gives is a [str]; what it leaves
    out is the default, the [int] 5000 for [--port], [False] for
    [--cors] and a [str] for the others; [--debug] and [--version] are
    flags. *)
Record Args : Type := mkArgs {
  args_port : PyVal;
  args_cors : PyVal;
  args_host : string;
  args_debug : bool;
  args_version : bool;
  args_command : string;
  args_cmd_args : string;
  args_tmp : string
}.

(** The namespace of a command line without options. *)
Definition default_args : Args :=
  mkArgs (PyInt 5000) (PyBool false) "127.0.0.1" false false "bash" "" "False".

Definition __version__ : string := "0.5.0.0".

(** [os.environ] maps names to texts; [os.environ.get(name)] is the text
    or [None]. *)
Definition Environ : Type := gmap string string.

Definition os_environ_get (environ : Environ) (name : string)
  : option string := environ !! name.

(** [a or b], on values that are a [str] or [None] and on any values. *)
Definition str_or (a b : option string) : option string :=
  match a with
  | Some (String _ _) => a
  | _ => b
  end.

Definition py_of (v : option string) : PyVal :=
  match v with
  | Some s => PyStr (py_str s)
  | None => PyNone
  end.

Definition py_or (a b : PyVal) : PyVal := if py_truthy a then a else b.

(** [str(v)] for a port: an [int] or a [str]. *)
Definition str_of_port (v : PyVal) : string :=
  match v with
  | PyInt n => pretty n
  | _ => text_of v
  end.

(** What [main] has set up when it calls [socketio.run]:
    [app.config["cmd"]] and [app.config["useTmp"]], whether [CORS(app)]
    was called, the level given to [logging.basicConfig], the line logged,
    and the arguments [debug], [port] and [host] of [socketio.run]. *)
Record Served : Type := mkServed {
  served_cmd : list (option string);
  served_useTmp : option string;
  served_cors : bool;
  served_level : Level;
  served_logged : string;
  served_debug : PyVal;
  served_port : PyVal;
  served_host : option string
}.

(** How [main] goes: [exit(0)] after printing the version, the
    [ValueError] of [shlex.split], or the call of [socketio.run]. *)
Inductive MainResult : Type :=
| SystemExit (code : Z) (printed : string)
| MainRaises (msg : string)
| Serves (s : Served).

Definition main (args : Args) (environ : Environ) : MainResult :=
  if args_version args then SystemExit 0 __version__
  else
    let get := os_environ_get environ in
    match shlex_split (default EmptyString
                         (str_or (str_or (Some (args_cmd_args args))
                                         (get "PYXTERM_CMD_ARGS"))
                                 (Some EmptyString))) with
    | ValueError msg => MainRaises msg
    | Tokens words =>
        Serves {|
          served_cmd :=
            [str_or (Some (args_command args)) (get "PYXTERM_CMD")]
            ++ map Some words;
          served_useTmp := str_or (Some (args_tmp args)) (get "PYXTERM_USE_TMP");
          served_cors :=
            py_truthy (py_or (args_cors args) (py_of (get "PYXTERM_CORS")));
          served_level :=
            if py_truthy (py_or (PyBool (args_debug args))
                                (py_of (get "PYXTERM_DEBUG")))
            then DEBUG else INFO;
          served_logged :=
            "serving on http://" +:+ args_host args +:+ ":"
            +:+ str_of_port (args_port args);
          served_debug :=
            py_or (PyBool (args_debug args)) (py_of (get "PYXTERM_DEBUG"));
          served_port := py_or (args_port args) (py_of (get "PYXTERM_PORT"));
          served_host := str_or (Some (args_host args)) (get "PYXTERM_HOST")
        |}
    end.

(** The server that [main] started, before any event: the configuration
    of the module with the command and [useTmp] that [main] stored.
    [app.config["cmd"]] is a command when it holds texts only. *)
Definition server (s : Served) (k : Kernel) : option World :=
  cmd ← mapM id (served_cmd s);
  Some (initial_world (py_of (served_useTmp s)) cmd k).

(** Tokens listed before what the lexer gives on the rest of the text. *)
Definition prepend (l : list string) (r : Split) : Split :=
  match r with
  | Tokens l' => Tokens (l ++ l')
  | ValueError msg => ValueError msg
  end.

(** The characters of a text. *)
Definition chars (s : string) : list ascii := String.list_ascii_of_string s.

(** * Properties *)

(** ** Computations and the relations they keep *)

Section Stable.
Context (R : World -> World -> Prop) `{!PreOrder R}.

Lemma stable_ret {A : Type} (a : A) : stable R (mret a).
Proof. intros w. reflexivity. Qed.

Lemma stable_raise {A : Type} (e : PyExn) : stable R (@raise A e).
Proof. intros w. reflexivity. Qed.

Lemma stable_hang {A : Type} : stable R (@hang A).
Proof. intros w. reflexivity. Qed.

Lemma stable_lift {A : Type} (o : Outcome A) : stable R (lift o).
Proof. intros w. reflexivity. Qed.

Lemma stable_get_world : stable R get_world.
Proof. intros w. reflexivity. Qed.

Lemma stable_update (f : World -> World) :
  (forall w, R w (f w)) -> stable R (update f).
Proof. intros H w. apply H. Qed.

Lemma stable_bind {A B : Type} (c : Py A) (f : A -> Py B) :
  stable R c -> (forall a, stable R (f a)) -> stable R (c ≫= f).
Proof.
  intros Hc Hf w. unfold mbind, Py_bind.
  specialize (Hc w). destruct (c w) as [[a| | |] w1]; try exact Hc.
  etransitivity; [exact Hc | apply Hf].
Qed.

Lemma stable_while {A : Type} (fuel : nat) (body : Py unit) :
  stable R body -> stable R (@while_True A fuel body).
Proof.
  intros Hb. induction fuel as [|fuel IH]; simpl.
  - intros w. reflexivity.
  - apply stable_bind; [exact Hb | intros _; exact IH].
Qed.
End Stable.

(** Breaks a computation into its calls. *)
Ltac stable_step :=
  lazymatch goal with
  | |- stable ?R (mret _) => apply (stable_ret R)
  | |- stable ?R (raise _) => apply (stable_raise R)
  | |- stable ?R hang => apply (stable_hang R)
  | |- stable ?R (lift _) => apply (stable_lift R)
  | |- stable ?R get_world => apply (stable_get_world R)
  | |- stable ?R (_ ≫= _) => apply (stable_bind R); [| intros ?]
  | |- stable ?R (update _) => apply (stable_update R); intros ?
  end.

Ltac stable_auto :=
  repeat first
    [ stable_step
    | match goal with
      | |- stable _ (match ?x with _ => _ end) => destruct x
      end ].

#[global] Instance appends_preorder P : PreOrder (appends P).
Proof.
  split.
  - intros w. exists []. split; [by rewrite app_nil_r | constructor].
  - intros w1 w2 w3 (c1 & H1 & ?) (c2 & H2 & ?).
    exists (c1 ++ c2). rewrite H2, H1.
    split; [by rewrite app_assoc | by apply Forall_app].
Qed.

#[global] Instance any_pty_preorder : PreOrder any_pty.
Proof. by split. Qed.

#[global] Instance same_input_preorder : PreOrder same_input.
Proof.
  split.
  - by intros p.
  - intros p1 p2 p3 [] []. split; congruence.
Qed.

#[global] Instance frame_preorder P Q `{!PreOrder Q} : PreOrder (frame P Q).
Proof.
  split.
  - intros w. split; reflexivity.
  - intros w1 w2 w3 [] []. split; try (etransitivity; eassumption).
    intros fd. specialize (frame_ptys0 fd). specialize (frame_ptys1 fd).
    destruct frame_ptys0; inversion frame_ptys1; subst; constructor.
    etransitivity; eassumption.
Qed.

Lemma appends_called (P : Call -> Prop) (c : Call) (w : World) :
  P c -> appends P w (called c w).
Proof. intros Hc. exists [c]. split; [reflexivity | by constructor]. Qed.

Lemma appends_nothing (P : Call -> Prop) (w w' : World) :
  history w' = history w -> appends P w w'.
Proof.
  intros H. exists []. split; [by rewrite app_nil_r | constructor].
Qed.

Section Frame.
Context (P : Call -> Prop) (Q : Pty -> Pty -> Prop) `{!PreOrder Q}.

Lemma frame_called (c : Call) (w : World) : P c -> frame P Q w (called c w).
Proof.
  intros Hc. split; try reflexivity.
  - by apply appends_called.
Qed.

Lemma frame_set_pty (fd : Z) (p p' : Pty) (w : World) :
  k_ptys (kernel w) !! fd = Some p -> Q p p' ->
  frame P Q w (set_kernel (set_ptys <[fd := p']>) w).
Proof.
  intros Hp Hq. split; try reflexivity.
  - intros fd'. simpl. destruct (decide (fd = fd')) as [<-|Hne].
    + rewrite lookup_insert_eq, Hp. by constructor.
    + rewrite lookup_insert_ne by done.
      destruct (k_ptys (kernel w) !! fd'); constructor. reflexivity.
  - by apply appends_nothing.
Qed.

Lemma frame_set_tasks (i : nat) (t : TaskState) (w : World) :
  frame P Q w (set_tasks <[i := t]> w).
Proof.
  split; try reflexivity.
  - simpl. apply length_insert.
  - by apply appends_nothing.
Qed.

Lemma stable_call (c : Call) : P c -> stable (frame P Q) (call c).
Proof. intros Hc w. by apply frame_called. Qed.

Lemma select_select_frame (rlist : list Z) (timeout : Z) :
  (forall ready, P (Select rlist timeout ready)) ->
  stable (frame P Q) (select_select rlist timeout).
Proof.
  intros HP. unfold select_select.
  stable_step; [stable_step|].
  destruct (forallb _ _); stable_auto; by apply stable_call.
Qed.

Lemma os_read_frame (fd n : Z) :
  (forall r, P (Read fd n r)) ->
  (forall p out, Q p (with_stdout out p)) ->
  stable (frame P Q) (os_read fd n).
Proof.
  intros HP HQ w. unfold os_read, mbind, Py_bind, get_world. simpl.
  destruct (k_ptys (kernel w) !! fd) as [p|] eqn:Hp; simpl.
  - destruct (pty_stdout p) as [|b out] eqn:Hout; simpl.
    + destruct (pty_slave_open p); [|destruct (k_eof_eio (kernel w))];
        simpl; by apply frame_called.
    + etransitivity; [by apply frame_called|].
      eapply frame_set_pty; [exact Hp | apply HQ].
  - by apply frame_called.
Qed.

Lemma os_write_frame (fd : Z) (data : list Z) :
  P (Write fd data) ->
  (forall tty p b, Q p (received tty b p)) ->
  stable (frame P Q) (os_write fd data).
Proof.
  intros HP HQ w. unfold os_write, mbind, Py_bind, get_world. simpl.
  destruct (k_ptys (kernel w) !! fd) as [p|] eqn:Hp; simpl.
  - destruct (tty_input_queue _ p data) as [|m]; simpl;
      (etransitivity; [by apply frame_called|]);
      eapply frame_set_pty; [exact Hp | apply HQ | exact Hp | apply HQ].
  - by apply frame_called.
Qed.

Lemma fcntl_ioctl_frame (fd request : Z) (arg : list Z) :
  P (Ioctl fd request arg) ->
  (forall p ws, Q p (with_winsize ws p)) ->
  stable (frame P Q) (fcntl_ioctl fd request arg).
Proof.
  intros HP HQ w. unfold fcntl_ioctl, mbind, Py_bind, get_world. simpl.
  destruct (k_ptys (kernel w) !! fd) as [p|] eqn:Hp; simpl.
  - destruct (unpack_winsize arg) as [ws|]; simpl.
    + destruct (request =? TIOCSWINSZ); simpl.
      * etransitivity; [by apply frame_called|].
        eapply frame_set_pty; [exact Hp | apply HQ].
      * by apply frame_called.
    + by apply frame_called.
  - by apply frame_called.
Qed.

Lemma set_winsize_frame (fd : Z) (row col xpix ypix : PyVal) :
  (forall c, handler_call c = true -> P c) ->
  (forall p ws, Q p (with_winsize ws p)) ->
  stable (frame P Q) (set_winsize fd row col xpix ypix).
Proof.
  intros HP HQ. unfold set_winsize, logging_debug.
  stable_auto; first [by apply stable_call; apply HP
                     | by apply fcntl_ioctl_frame; [apply HP|] ].
Qed.

Lemma resize_frame (data : gmap string PyVal) :
  (forall c, handler_call c = true -> P c) ->
  (forall p ws, Q p (with_winsize ws p)) ->
  stable (frame P Q) (resize data).
Proof.
  intros HP HQ. unfold resize, app_config, getitem, as_fd, logging_debug.
  stable_auto; first [by apply stable_call; apply HP
                     | by apply set_winsize_frame ].
Qed.

Lemma pty_input_frame (data : gmap string PyVal) :
  (forall c, handler_call c = true -> P c) ->
  (forall tty p b, Q p (received tty b p)) ->
  stable (frame P Q) (pty_input data).
Proof.
  intros HP HQ.
  unfold pty_input, app_config, getitem, as_fd, encode, logging_debug.
  stable_auto; first [by apply stable_call; apply HP
                     | by apply os_write_frame; [apply HP | auto] ].
Qed.

Lemma read_and_forward_pty_output_body_frame :
  (forall c, pump_call c = true -> P c) ->
  (forall p out, Q p (with_stdout out p)) ->
  stable (frame P Q) read_and_forward_pty_output_body.
Proof.
  intros HP HQ.
  unfold read_and_forward_pty_output_body, app_config, as_fd,
    socketio_sleep, socketio_emit.
  stable_auto; first [by apply stable_call; apply HP
                     | by apply select_select_frame; intros; apply HP
                     | by apply os_read_frame; [intros; apply HP|] ].
Qed.

Lemma pump_frame (i : nat) :
  (forall c, pump_call c = true -> P c) ->
  (forall p out, Q p (with_stdout out p)) ->
  stable (frame P Q) (pump i).
Proof.
  intros HP HQ w. unfold pump.
  destruct (tasks w !! i) as [[|e]|]; try reflexivity.
  pose proof (read_and_forward_pty_output_body_frame HP HQ w) as H.
  destruct (read_and_forward_pty_output_body w) as [[[]| e | |] w'];
    simpl in *; try exact H.
  etransitivity; [exact H | apply frame_set_tasks].
Qed.

Lemma child_writes_frame (fd : Z) (data : list Z) (w : World) :
  (forall p out, Q p (with_stdout out p)) ->
  frame P Q w (child_writes fd data w).
Proof.
  intros HQ. unfold child_writes.
  destruct (k_ptys (kernel w) !! fd) as [p|] eqn:Hp; [|reflexivity].
  destruct (pty_slave_open p); [|reflexivity].
  eapply frame_set_pty; [exact Hp | apply HQ].
Qed.

Lemma child_exits_frame (fd : Z) (w : World) :
  (forall p, Q p (with_slave_open false p)) ->
  frame P Q w (child_exits fd w).
Proof.
  intros HQ. unfold child_exits.
  destruct (k_ptys (kernel w) !! fd) as [p|] eqn:Hp; [|reflexivity].
  eapply frame_set_pty; [exact Hp | apply HQ].
Qed.
End Frame.

(** [connect] once a child is started: only the log line. *)
Lemma connect_started (fuel : nat) (w : World) :
  truthy (config_child_pid (config w)) = true ->
  connect fuel w = (Ok tt, called (Log INFO "new client connected") w).
Proof.
  intros H. unfold connect, logging_info, app_config, call, update, get_world,
    mbind, mret, Py_bind, Py_ret. simpl. by rewrite H.
Qed.

(** ** Once a child is started, nothing is spawned, closed or reset *)

Lemma handler_call_no_spawn (c : Call) : handler_call c = true -> no_spawn c.
Proof. by destruct c. Qed.

Lemma pump_call_no_spawn (c : Call) : pump_call c = true -> no_spawn c.
Proof. by destruct c. Qed.

Lemma step_frame_started (e : Event) (w : World) :
  truthy (config_child_pid (config w)) = true ->
  frame no_spawn any_pty w (step e w).2.
Proof.
  intros Hpid. destruct e as [|data|data|i|fd data|fd]; simpl.
  - rewrite connect_started by done. by apply frame_called.
  - by apply (pty_input_frame no_spawn any_pty data handler_call_no_spawn).
  - by apply (resize_frame no_spawn any_pty data handler_call_no_spawn).
  - by apply (pump_frame no_spawn any_pty i pump_call_no_spawn).
  - by apply child_writes_frame.
  - by apply child_exits_frame.
Qed.

Lemma run_cons (e : Event) (es : list Event) (w : World) :
  run (e :: es) w =
  ((step e w).1 :: (run es (step e w).2).1, (run es (step e w).2).2).
Proof.
  simpl. destruct (step e w) as [r w1]. simpl.
  by destruct (run es w1) as [rs w2].
Qed.

Lemma run_frame_started (es : list Event) (w : World) :
  truthy (config_child_pid (config w)) = true ->
  frame no_spawn any_pty w (run es w).2.
Proof.
  revert w. induction es as [|e es IH]; intros w Hpid; [reflexivity|].
  rewrite run_cons. simpl.
  pose proof (step_frame_started e w Hpid) as H1.
  etransitivity; [exact H1|]. apply IH.
  by rewrite (frame_config _ _ _ _ H1).
Qed.

Lemma count_app (p : Call -> bool) (h1 h2 : list Call) :
  count p (h1 ++ h2) = (count p h1 + count p h2)%nat.
Proof. unfold count. by rewrite List.filter_app, length_app. Qed.

Lemma count_none (p : Call -> bool) (h : list Call) :
  Forall (fun c => p c = false) h -> count p h = O.
Proof.
  unfold count. induction 1 as [|c h Hc _ IH]; simpl; [done|].
  by rewrite Hc.
Qed.

Lemma frame_open (P : Call -> Prop) (Q : Pty -> Pty -> Prop) (w w' : World)
    (fd : Z) :
  frame P Q w w' ->
  is_Some (k_ptys (kernel w) !! fd) <-> is_Some (k_ptys (kernel w') !! fd).
Proof.
  intros H. destruct (frame_ptys _ _ _ _ H fd); split; intros [? ?]; eauto;
    discriminate.
Qed.

(** C10: once [fd] and [child_pid] are set nothing clears or replaces them.
    For every sequence of events (connects, inputs, resizes, pump iterations,
    output or exit of the child) from a world where [app.config["fd"]] is
    [fd] and [app.config["child_pid"]] is a non-zero [pid], both entries
    still hold these values at the end, the handlers' check on the
    descriptor gives what it gave before, and the descriptor is still open
    if it was: there is no teardown, also after the child has exited. *)
Theorem session_handles_never_cleared (es : list Event) (w : World)
    (fd pid : Z) :
  config_fd (config w) = Some fd ->
  config_child_pid (config w) = Some pid ->
  pid <> 0 ->
  let w' := (run es w).2 in
  config_fd (config w') = Some fd
  /\ config_child_pid (config w') = Some pid
  /\ truthy (config_fd (config w')) = truthy (config_fd (config w))
  /\ (is_Some (k_ptys (kernel w) !! fd) ->
      is_Some (k_ptys (kernel w') !! fd)).
Proof.
  intros Hfd Hpid Hne w'.
  assert (Hstarted : truthy (config_child_pid (config w)) = true).
  { rewrite Hpid. simpl. by apply negb_true_iff, Z.eqb_neq. }
  pose proof (run_frame_started es w Hstarted) as H.
  fold w' in H. rewrite (frame_config _ _ _ _ H).
  repeat split; try done.
  by apply (frame_open _ _ _ _ fd H).
Qed.

(** ** The first [connect] *)

Lemma winsize_50_50 :
  struct_pack_H [PyInt 50; PyInt 50; PyInt 0; PyInt 0]
  = Ok [50; 0; 50; 0; 0; 0; 0; 0].
Proof. reflexivity. Qed.

Lemma connect_idle_parent (fuel : nat) (w : World) :
  truthy (config_child_pid (config w)) = false ->
  k_fork_side (kernel w) = Parent ->
  k_nproc (kernel w) <> O ->
  connect fuel w = (Raise TypeError, connected w).
Proof.
  intros Hidle Hside Hnproc.
  destruct (k_nproc (kernel w)) as [|nproc] eqn:Hn; [done|].
  unfold connect, logging_info, app_config, pty_fork, set_winsize,
    logging_debug, fcntl_ioctl, socketio_start_background_task, py_add,
    call, update, lift, raise, get_world, mbind, mret, Py_bind, Py_ret,
    connected, set_kernel, set_ptys, set_config, set_tasks, called.
  repeat (progress (simpl; rewrite ?Hidle, ?Hn, ?Hside, ?lookup_insert_eq,
                      ?insert_insert_eq)).
  by rewrite <- !app_assoc.
Qed.

Lemma connected_started (w : World) :
  truthy (config_child_pid (config (connected w))) = true.
Proof. reflexivity. Qed.

Lemma run_connects_started (n : nat) (w : World) :
  truthy (config_child_pid (config w)) = true ->
  run (replicate n OnConnect) w =
  (replicate n (Ok tt),
   mkWorld (config w) (kernel w) (tasks w)
           (history w ++ replicate n (Log INFO "new client connected"))).
Proof.
  revert w. induction n as [|n IH]; intros w Hpid; simpl.
  - rewrite app_nil_r. by destruct w.
  - rewrite connect_started by done.
    rewrite IH by done. simpl. by rewrite <- app_assoc.
Qed.

(** C1: connect events.  In the server process, with no child started
    and a process to spare, the first [connect] forks exactly once, stores
    the descriptor and the pid, sets the window of the new pty to 50 x 50
    before the handler ends (so before any resize), and starts exactly one
    [read_and_forward_pty_output] task; it then ends in the [TypeError] of
    its next log line.  Every [connect] on a world with a child started
    only logs.  So after the first connect, [n] more connects change
    nothing but the log, and whatever events follow, one fork, one started
    task, one new pid and one new descriptor are all there is. *)
Theorem connect_spawns_once (w : World) (es : list Event) (n : nat) :
  truthy (config_child_pid (config w)) = false ->
  k_fork_side (kernel w) = Parent ->
  k_nproc (kernel w) <> O ->
  let w1 := (step OnConnect w).2 in
  let w2 := (run es w1).2 in
  step OnConnect w = (Raise TypeError, connected w)
  /\ (forall w', truthy (config_child_pid (config w')) = true ->
        step OnConnect w'
        = (Ok tt, called (Log INFO "new client connected") w'))
  /\ run (replicate n OnConnect) w1 =
       (replicate n (Ok tt),
        mkWorld (config w1) (kernel w1) (tasks w1)
          (history w1 ++ replicate n (Log INFO "new client connected")))
  /\ count is_fork (history w2) = S (count is_fork (history w))
  /\ count is_start_task (history w2) = S (count is_start_task (history w))
  /\ length (tasks w2) = S (length (tasks w))
  /\ k_next_pid (kernel w2) = Pos.succ (k_next_pid (kernel w))
  /\ (forall fd, is_Some (k_ptys (kernel w2) !! fd) <->
        fd = k_next_fd (kernel w) \/ is_Some (k_ptys (kernel w) !! fd)).
Proof.
  intros Hidle Hside Hnproc w1 w2.
  assert (H1 : step OnConnect w = (Raise TypeError, connected w))
    by by apply connect_idle_parent.
  assert (Hw1 : w1 = connected w) by (unfold w1; by rewrite H1).
  assert (Hstarted : truthy (config_child_pid (config w1)) = true)
    by (rewrite Hw1; apply connected_started).
  pose proof (run_frame_started es w1 Hstarted) as Hframe. fold w2 in Hframe.
  destruct (frame_history _ _ _ _ Hframe) as (calls & Hh & Hcalls).
  split; [exact H1|].
  split; [intros w' Hw'; by apply connect_started|].
  split; [by apply run_connects_started|].
  split; [|split; [|split; [|split]]].
  - rewrite Hh, Hw1. simpl. rewrite !count_app.
    rewrite (count_none is_fork calls).
    + unfold count at 2. simpl. lia.
    + eapply Forall_impl; [exact Hcalls|]. by intros [].
  - rewrite Hh, Hw1. simpl. rewrite !count_app.
    rewrite (count_none is_start_task calls).
    + unfold count at 2. simpl. lia.
    + eapply Forall_impl; [exact Hcalls|]. by intros [].
  - rewrite (frame_tasks _ _ _ _ Hframe), Hw1. simpl.
    rewrite length_app. simpl. lia.
  - by rewrite (frame_next_pid _ _ _ _ Hframe), Hw1.
  - intros fd. rewrite <- (frame_open _ _ _ _ fd Hframe), Hw1. simpl.
    destruct (decide (k_next_fd (kernel w) = fd)) as [<-|Hne].
    + rewrite lookup_insert_eq. split; eauto.
    + rewrite lookup_insert_ne by done. split; [eauto|].
      intros [->|]; done.
Qed.

(** ** Input *)

Ltac py_unfold :=
  unfold app_config, as_fd, getitem, encode, logging_debug, logging_info,
    socketio_sleep, socketio_emit, select_select, os_read, os_write,
    fcntl_ioctl, set_winsize, call, update, lift, raise, hang, get_world,
    mbind, mret, Py_bind, Py_ret, set_kernel, set_ptys, set_config,
    set_tasks, called.

Lemma truthy_fd (fd : Z) : fd <> 0 -> truthy (Some fd) = true.
Proof. intros H. simpl. by apply negb_true_iff, Z.eqb_neq. Qed.

(** [pty_input] without an attached descriptor: nothing happens, whatever
    the payload. *)
Lemma pty_input_detached (data : gmap string PyVal) (w : World) :
  truthy (config_fd (config w)) = false -> pty_input data w = (Ok tt, w).
Proof. intros H. unfold pty_input. py_unfold. simpl. by rewrite H. Qed.

(** [pty_input] on an attached descriptor, by payload. *)
Lemma pty_input_open (data : gmap string PyVal) (w : World) (fd : Z)
    (p : Pty) :
  config_fd (config w) = Some fd -> fd <> 0 ->
  k_ptys (kernel w) !! fd = Some p ->
  pty_input data w =
  match data !! "input"%string with
  | None => (Raise (KeyError "input"), w)
  | Some v =>
      let w1 := called (Log DEBUG "received input from browser: %s") w in
      match v with
      | PyStr s =>
          match str_encode s with
          | Ok b =>
              let tty := k_tty (kernel w) in
              (write_ends tty p b,
               set_kernel
                 (set_ptys <[fd := received tty (accepted tty p b) p]>)
                 (called (Write fd b) w1))
          | Raise e => (Raise e, w1)
          | Hang => (Hang, w1)
          | Running => (Running, w1)
          end
      | _ => (Raise AttributeError, w1)
      end
  end.
Proof.
  intros Hfd Hne Hp.
  unfold pty_input. py_unfold. simpl.
  rewrite Hfd, (truthy_fd fd Hne).
  destruct (data !! "input"%string) as [v|]; [|done]. simpl.
  rewrite Hfd. simpl.
  destruct v as [| | | |s]; try done.
  destruct (str_encode s) as [b| | |]; try done. simpl.
  rewrite Hp. unfold write_ends, accepted.
  by destruct (tty_input_queue _ p b).
Qed.

Lemma pty_input_running (data : gmap string PyVal) (w : World) (fd : Z)
    (p : Pty) :
  running w fd p ->
  pty_input data w =
  match data !! "input"%string with
  | None => (Raise (KeyError "input"), w)
  | Some v =>
      let w1 := called (Log DEBUG "received input from browser: %s") w in
      match v with
      | PyStr s =>
          match str_encode s with
          | Ok b =>
              let tty := k_tty (kernel w) in
              (write_ends tty p b,
               set_kernel
                 (set_ptys <[fd := received tty (accepted tty p b) p]>)
                 (called (Write fd b) w1))
          | Raise e => (Raise e, w1)
          | Hang => (Hang, w1)
          | Running => (Running, w1)
          end
      | _ => (Raise AttributeError, w1)
      end
  end.
Proof. intros [Hfd Hne _ Hp _]. by apply pty_input_open. Qed.






(** ** The decoder with [errors='ignore'] *)

Lemma utf8_decode_ignore_total (fuel : nat) (s : list Z) :
  exists r, utf8_decode fuel ignore s = Ok r.
Proof.
  revert s. induction fuel as [|fuel IH]; intros s; [by exists []|].
  destruct s as [|ch s]; [by exists []|].
  cbn [utf8_decode].
  destruct (utf8_decode1 (ch :: s)) as [c len| |len|]; eauto.
  destruct (IH (drop len (ch :: s))) as [r ->]. eauto.
Qed.

Lemma bytes_decode_ignore (b : list Z) :
  bytes_decode ignore b = Ok (decode_ignore b).
Proof.
  unfold decode_ignore, bytes_decode.
  by destruct (utf8_decode_ignore_total (length b) b) as [r ->].
Qed.

(** ** One iteration of the pump *)

#[local] Opaque max_read_bytes read_size.

Lemma pump_body_detached (w : World) :
  truthy (config_fd (config w)) = false ->
  read_and_forward_pty_output_body w
  = (Ok tt, called (Sleep (PyFloat 1 100)) w).
Proof.
  intros H. unfold read_and_forward_pty_output_body. py_unfold. simpl.
  by rewrite H.
Qed.

Lemma pump_body_attached (w : World) (fd : Z) :
  config_fd (config w) = Some fd -> fd <> 0 ->
  read_and_forward_pty_output_body w =
  let w1 := called (Sleep (PyFloat 1 100)) w in
  match k_ptys (kernel w) !! fd with
  | None => (Raise (OSError EBADF), called (Select [fd] 0 []) w1)
  | Some p =>
      if readable p then
        let w2 := called (Select [fd] 0 [fd]) w1 in
        match pty_stdout p with
        | [] =>
            if k_eof_eio (kernel w) then
              (Raise (OSError EIO),
               called (Read fd max_read_bytes (Raise (OSError EIO))) w2)
            else
              (Ok tt,
               called (Emit "pty-output" (output_of []) "/pty")
                 (called (Read fd max_read_bytes (Ok [])) w2))
        | out =>
            (Ok tt,
             let n := read_size (kernel w) max_read_bytes in
             called (Emit "pty-output" (output_of (take n out)) "/pty")
               (set_kernel (set_ptys <[fd := with_stdout (drop n out) p]>)
                  (called (Read fd max_read_bytes (Ok (take n out))) w2)))
        end
      else (Ok tt, called (Select [fd] 0 []) w1)
  end.
Proof.
  intros Hfd Hne. pose proof (truthy_fd fd Hne) as Htruthy.
  unfold read_and_forward_pty_output_body, output_of. py_unfold.
  destruct (k_ptys (kernel w) !! fd) as [p|] eqn:Hp.
  - assert (Hfo : fd_open (kernel w) fd = true)
      by (unfold fd_open; by rewrite Hp).
    assert (Hfr : fd_readable (kernel w) fd = readable p)
      by (unfold fd_readable; by rewrite Hp).
    destruct (readable p) eqn:Hr.
    + destruct (pty_stdout p) as [|b0 out] eqn:Hout.
      * assert (Hopen : pty_slave_open p = false).
        { unfold readable in Hr. rewrite Hout in Hr.
          by apply negb_true_iff in Hr. }
        destruct (k_eof_eio (kernel w)) eqn:Heof;
          repeat (progress (simpl; rewrite ?Hfd, ?Htruthy, ?Hp, ?Hfo, ?Hfr,
            ?Hout, ?Hopen, ?Heof, ?filter_cons, ?filter_nil,
            ?bytes_decode_ignore));
          done.
      * repeat (progress (simpl; rewrite ?Hfd, ?Htruthy, ?Hp, ?Hfo, ?Hfr,
          ?Hout, ?filter_cons, ?filter_nil, ?bytes_decode_ignore)); done.
    + repeat (progress (simpl; rewrite ?Hfd, ?Htruthy, ?Hp, ?Hfo, ?Hfr,
        ?filter_cons, ?filter_nil)); done.
  - assert (Hfo : fd_open (kernel w) fd = false)
      by (unfold fd_open; by rewrite Hp).
    repeat (progress (simpl; rewrite ?Hfd, ?Htruthy, ?Hp, ?Hfo)); done.
Qed.

(** ** Output *)

#[global] Instance forwards_preorder : PreOrder forwards.
Proof.
  split.
  - intros w. exists []. by rewrite app_nil_r.
  - intros w1 w2 w3 (c1 & H1 & E1) (c2 & H2 & E2).
    exists (c1 ++ c2). rewrite H2, H1, <- app_assoc. split; [done|].
    unfold outputs, reads in *. by rewrite !omap_app, fmap_app, E1, E2.
Qed.

Lemma quiet_forwards (w w' : World) :
  appends (fun c => quiet_call c = true) w w' -> forwards w w'.
Proof.
  intros (calls & H & Hq). exists calls. split; [done|].
  clear H. induction Hq as [|c calls Hc _ IH]; [done|].
  destruct c as [| |? ? []| | | | | | | |]; try done.
Qed.

Lemma handler_call_quiet (c : Call) :
  handler_call c = true -> quiet_call c = true.
Proof. by destruct c. Qed.

Ltac history_grows :=
  eexists; split;
  [ unfold called, set_kernel; simpl; rewrite <- ?app_assoc; reflexivity
  | try reflexivity ].

Lemma pump_body_forwards (w : World) :
  forwards w (read_and_forward_pty_output_body w).2.
Proof.
  destruct (truthy (config_fd (config w))) eqn:Ht.
  - destruct (config_fd (config w)) as [fd|] eqn:Hfd; [|done].
    assert (Hne : fd <> 0).
    { intros ->. done. }
    rewrite (pump_body_attached w fd Hfd Hne). simpl.
    destruct (k_ptys (kernel w) !! fd) as [p|].
    + destruct (readable p).
      * destruct (pty_stdout p) as [|b0 out].
        -- destruct (k_eof_eio (kernel w)); simpl.
           ++ history_grows.
           ++ history_grows.
        -- history_grows.
      * history_grows.
    + history_grows.
  - rewrite pump_body_detached by done. history_grows.
Qed.

Lemma forwards_same_history (w w' : World) :
  history w' = history w -> forwards w w'.
Proof. intros H. exists []. by rewrite app_nil_r. Qed.

Lemma pump_forwards (i : nat) (w : World) : forwards w (pump i w).2.
Proof.
  unfold pump. destruct (tasks w !! i) as [[|e]|]; try reflexivity.
  pose proof (pump_body_forwards w) as H.
  destruct (read_and_forward_pty_output_body w) as [[[]| e | |] w'];
    simpl in *; exact H.
Qed.

Section Appends.
Context (P : Call -> Prop).

Lemma call_appends (c : Call) : P c -> stable (appends P) (call c).
Proof. intros Hc w. by apply appends_called. Qed.

Lemma pty_fork_appends : P Fork -> stable (appends P) pty_fork.
Proof.
  intros HP. unfold pty_fork. stable_auto;
    first [by apply call_appends | by apply appends_nothing].
Qed.

Lemma start_background_task_appends (target : string) :
  P (StartTask target) ->
  stable (appends P) (socketio_start_background_task target).
Proof.
  intros HP. unfold socketio_start_background_task. stable_auto;
    first [by apply call_appends | by apply appends_nothing].
Qed.

Lemma tempfile_mkdtemp_appends :
  (forall path, P (Mkdtemp path)) -> stable (appends P) tempfile_mkdtemp.
Proof.
  intros HP. unfold tempfile_mkdtemp. stable_auto;
    first [by apply call_appends | by apply appends_nothing].
Qed.

Lemma subprocess_run_appends (args : list string) (cwd : option string) :
  P (Run args cwd) -> stable (appends P) (subprocess_run args cwd).
Proof.
  intros HP. unfold subprocess_run. stable_auto;
    first [by apply call_appends | by apply appends_nothing].
Qed.

Lemma set_winsize_appends (fd : Z) (row col xpix ypix : PyVal) :
  (forall c, handler_call c = true -> P c) ->
  stable (appends P) (set_winsize fd row col xpix ypix).
Proof.
  intros HP w.
  by apply (frame_history _ any_pty), set_winsize_frame.
Qed.

Lemma connect_appends (fuel : nat) :
  (forall c, quiet_call c = true -> P c) ->
  stable (appends P) (connect fuel).
Proof.
  intros HP.
  unfold connect, connect_child_body, app_config, py_add, logging_info.
  stable_auto;
    first [ by apply call_appends, HP
          | by apply pty_fork_appends, HP
          | by apply start_background_task_appends, HP
          | by apply appends_nothing
          | by apply set_winsize_appends; intros [] ?; apply HP
          | idtac ].
  apply stable_while; [apply _|].
  stable_auto;
    first [ by apply tempfile_mkdtemp_appends; intros; apply HP
          | by apply subprocess_run_appends, HP
          | by apply appends_nothing ].
Qed.
End Appends.

Lemma step_forwards (e : Event) (w : World) : forwards w (step e w).2.
Proof.
  destruct e as [|data|data|i|fd data|fd]; simpl.
  - by apply quiet_forwards, connect_appends.
  - apply quiet_forwards, (frame_history _ any_pty).
    by apply pty_input_frame; [apply _ | apply handler_call_quiet |].
  - apply quiet_forwards, (frame_history _ any_pty).
    by apply resize_frame; [apply _ | apply handler_call_quiet |].
  - apply pump_forwards.
  - apply forwards_same_history. unfold child_writes.
    by repeat case_match.
  - apply forwards_same_history. unfold child_exits.
    by repeat case_match.
Qed.

Lemma run_forwards (es : list Event) (w : World) : forwards w (run es w).2.
Proof.
  revert w. induction es as [|e es IH]; intros w; [reflexivity|].
  rewrite run_cons. simpl. etransitivity; [apply step_forwards | apply IH].
Qed.

Lemma utf8_decode_strict_ignore (fuel : nat) (s r : list Z) :
  utf8_decode fuel strict s = Ok r -> utf8_decode fuel ignore s = Ok r.
Proof.
  revert s r. induction fuel as [|fuel IH]; intros s r; [done|].
  destruct s as [|ch s]; [done|]. cbn [utf8_decode].
  destruct (utf8_decode1 (ch :: s)) as [c len| |len|]; try done.
  destruct (utf8_decode fuel strict (drop len (ch :: s))) as [r'| | |] eqn:E;
    try done.
  by rewrite (IH _ _ E).
Qed.

(** C3, as the code has it: over any sequence of events, every read of the
    pump that returns -- a zero-length read too -- is followed by exactly
    one [pty-output] event, in the order of the reads; the event carries
    the text decoded from exactly the bytes of that read with invalid
    UTF-8 dropped, which is the whole text when the bytes are valid
    UTF-8. *)
Theorem every_read_is_forwarded (es : list Event) (w : World) :
  (exists calls,
     history (run es w).2 = history w ++ calls
     /\ outputs calls = output_of <$> reads calls)
  /\ (forall b s, bytes_decode strict b = Ok s ->
        output_of b = {[ "output"%string := PyStr s ]})
  /\ output_of [] = {[ "output"%string := PyStr [] ]}.
Proof.
  split; [apply run_forwards|]. split; [|done].
  intros b s H. unfold output_of, decode_ignore, bytes_decode in *.
  by rewrite (utf8_decode_strict_ignore _ _ _ H).
Qed.

(** C3, the claim as worded, fails: on a platform whose pty master reports
    end of file after the child is gone, the pump's read returns no bytes
    and the pump still sends an event for it: one event was sent, and no
    read was non-empty.  And on any platform, a read of bytes that are not
    valid UTF-8 is forwarded without them: the event for the one byte 0xFF
    carries the empty text. *)
Lemma zero_length_read_is_forwarded :
  let h := history (run [OnConnect; ChildExits 5; Pump 0] bsd).2 in
  let h' := history (run [OnConnect; ChildWrites 5 [0xFF]; Pump 0] linux).2 in
  reads h = [[]]
  /\ outputs h = [{[ "output"%string := PyStr [] ]}]
  /\ length (outputs h) <> length (filter (fun b => b <> []) (reads h))
  /\ reads h' = [[0xFF]]
  /\ outputs h' = [{[ "output"%string := PyStr [] ]}].
Proof. vm_compute. repeat split; discriminate. Qed.

(** ** The pump never blocks *)

Lemma max_read_bytes_value : max_read_bytes = 20480.
Proof. by vm_compute. Qed.

Lemma take_max_read_bytes (out : list Z) :
  Z.of_nat (length (take (Z.to_nat max_read_bytes) out)) <= max_read_bytes.
Proof. rewrite length_take, max_read_bytes_value. lia. Qed.

Lemma pump_body_not_hang (w : World) :
  (read_and_forward_pty_output_body w).1 <> Hang.
Proof.
  destruct (truthy (config_fd (config w))) eqn:Ht.
  - destruct (config_fd (config w)) as [fd|] eqn:Hfd; [|done].
    assert (Hne : fd <> 0) by (intros ->; done).
    rewrite (pump_body_attached w fd Hfd Hne). simpl.
    by repeat case_match.
  - by rewrite pump_body_detached.
Qed.

Lemma pump_loop_not_hang (fuel : nat) (w : World) :
  (read_and_forward_pty_output fuel w).1 <> Hang.
Proof.
  unfold read_and_forward_pty_output.
  revert w. induction fuel as [|fuel IH]; intros w; [done|].
  simpl. unfold mbind, Py_bind.
  pose proof (pump_body_not_hang w) as H.
  destruct (read_and_forward_pty_output_body w) as [[[]| e | |] w'];
    first [done | apply IH].
Qed.

#[local] Transparent read_size.

Lemma read_size_le (k : Kernel) (n : Z) :
  (read_size k n <= Z.to_nat n)%nat
  /\ (read_size k n <= Pos.to_nat (tty_read_max (k_tty k)))%nat.
Proof. unfold read_size. lia. Qed.

Lemma read_size_pos (k : Kernel) (n : Z) : 0 < n -> (0 < read_size k n)%nat.
Proof. unfold read_size. lia. Qed.

Lemma read_size_tty (k k' : Kernel) (n : Z) :
  k_tty k' = k_tty k -> read_size k' n = read_size k n.
Proof. unfold read_size. by intros ->. Qed.

#[local] Opaque read_size.

Lemma take_read_size (k : Kernel) (out : list Z) :
  Z.of_nat (length (take (read_size k max_read_bytes) out))
  <= max_read_bytes.
Proof.
  rewrite length_take. pose proof (read_size_le k max_read_bytes) as [H _].
  rewrite max_read_bytes_value in *. lia.
Qed.

(** C4: every iteration of the pump's loop first sleeps 0.01 s (10 ms).
    Without an attached descriptor it does nothing else.  With one it
    makes one [select] on that descriptor with timeout 0, and only if the
    descriptor is reported ready, one read of at most [1024 * 20 = 20480]
    bytes, which never blocks and returns at most that many bytes; no
    other read follows.  So the loop, however long it runs, is never
    stuck in a read. *)
Theorem pump_polls_without_blocking (w : World) :
  milliseconds (PyFloat 1 100) = Some 10
  /\ max_read_bytes = 20480
  /\ (exists calls,
        history (read_and_forward_pty_output_body w).2
        = history w ++ Sleep (PyFloat 1 100) :: calls
        /\ if truthy (config_fd (config w)) then
             exists fd ready rest,
               config_fd (config w) = Some fd
               /\ calls = Select [fd] 0 ready :: rest
               /\ (rest = [] \/
                   exists r rest',
                     ready = [fd]
                     /\ rest = Read fd max_read_bytes r :: rest'
                     /\ r <> Hang
                     /\ (forall b, r = Ok b ->
                           Z.of_nat (length b) <= max_read_bytes)
                     /\ count is_read rest' = O)
           else calls = [])
  /\ (forall fuel, (read_and_forward_pty_output fuel w).1 <> Hang).
Proof.
  split; [done|]. split; [apply max_read_bytes_value|].
  split; [|intros fuel; apply pump_loop_not_hang].
  destruct (truthy (config_fd (config w))) eqn:Ht.
  - destruct (config_fd (config w)) as [fd|] eqn:Hfd; [|done].
    assert (Hne : fd <> 0) by (intros ->; done).
    rewrite (pump_body_attached w fd Hfd Hne). simpl.
    destruct (k_ptys (kernel w) !! fd) as [p|].
    + destruct (readable p).
      * destruct (pty_stdout p) as [|b0 out].
        -- destruct (k_eof_eio (kernel w)); history_grows;
             exists fd, [fd]; eexists; (split; [done|]);
             (split; [done|]); right; do 2 eexists;
             (split; [done|]); (split; [done|]); (split; [done|]);
             (split; [|done]); intros b [= <-]; simpl;
             rewrite max_read_bytes_value; lia.
        -- history_grows.
           exists fd, [fd]; eexists; (split; [done|]);
             (split; [done|]); right; do 2 eexists;
             (split; [done|]); (split; [done|]); (split; [done|]);
             (split; [|done]). intros b [= <-]. apply take_read_size.
      * history_grows. exists fd, []; eexists. by auto.
    + history_grows. exists fd, []; eexists. by auto.
  - rewrite pump_body_detached by done. history_grows.
Qed.

(** ** After a read error *)

Lemma pump_raises (i : nat) (w : World) (e : PyExn) :
  (pump i w).1 = Raise e ->
  tasks w !! i = Some TaskRunning
  /\ (read_and_forward_pty_output_body w).1 = Raise e
  /\ (pump i w).2
     = set_tasks <[i := TaskDied e]> (read_and_forward_pty_output_body w).2.
Proof.
  unfold pump. destruct (tasks w !! i) as [[|e']|]; try done.
  destruct (read_and_forward_pty_output_body w) as [[[]| e' | |] w'];
    try done.
  by intros [= ->].
Qed.

Lemma pump_body_raises_oserror (w : World) (e : PyExn) :
  (read_and_forward_pty_output_body w).1 = Raise e ->
  exists errno, e = OSError errno.
Proof.
  destruct (truthy (config_fd (config w))) eqn:Ht.
  - destruct (config_fd (config w)) as [fd|] eqn:Hfd; [|done].
    assert (Hne : fd <> 0) by (intros ->; done).
    rewrite (pump_body_attached w fd Hfd Hne). simpl.
    repeat case_match; simpl; intros [= <-]; eauto.
  - by rewrite pump_body_detached.
Qed.

(** C5, as the code has it.  When an iteration of the pump raises -- it
    can only be an [OSError] of [select] or of the read -- the exception
    leaves the loop and the task is dead: it never runs again.  Nothing
    else happens: [app.config], its [fd] and [child_pid] among it, is
    unchanged and no descriptor is closed.  So a later [pty_input] with an
    encodable text still passes the check on [fd] and calls [os.write] on
    that descriptor with the bytes of the text, which the terminal gets:
    it is no no-op.  That write does not fail for the child being gone:
    the handler returns normally, or stays blocked when the input queue
    is full, and in no case raises.  On a kernel that fails reads after a
    hang-up with EIO, an iteration on a pty whose child is gone and whose
    output is drained does raise. *)
Theorem read_error_stops_only_the_pump (w : World) (i : nat) (e : PyExn) :
  (pump i w).1 = Raise e ->
  let w' := (pump i w).2 in
  (exists errno, e = OSError errno)
  /\ tasks w' !! i = Some (TaskDied e)
  /\ pump i w' = (Ok tt, w')
  /\ config w' = config w
  /\ (forall fd, is_Some (k_ptys (kernel w) !! fd)
                 <-> is_Some (k_ptys (kernel w') !! fd))
  /\ (forall fd p data s b,
        config_fd (config w') = Some fd -> fd <> 0 ->
        k_ptys (kernel w') !! fd = Some p ->
        data !! "input"%string = Some (PyStr s) -> str_encode s = Ok b ->
        let tty := k_tty (kernel w') in
        let r := pty_input data w' in
        r.1 = write_ends tty p b
        /\ (forall e', r.1 <> Raise e')
        /\ history r.2
           = history w' ++ [Log DEBUG "received input from browser: %s";
                            Write fd b]
        /\ k_ptys (kernel r.2) !! fd
           = Some (received tty (accepted tty p b) p))
  /\ (forall w0 fd p,
        tasks w0 !! i = Some TaskRunning ->
        config_fd (config w0) = Some fd -> fd <> 0 ->
        k_ptys (kernel w0) !! fd = Some p ->
        pty_slave_open p = false -> pty_stdout p = [] ->
        k_eof_eio (kernel w0) = true ->
        (pump i w0).1 = Raise (OSError EIO)).
Proof.
  intros Hraise w'.
  destruct (pump_raises i w e Hraise) as (Hrunning & Hbody & Hw').
  pose proof (pump_frame (fun _ => True) any_pty i
                (fun _ _ => I) (fun _ _ => I) w) as Hframe.
  fold w' in Hframe, Hw'.
  assert (Hdead : tasks w' !! i = Some (TaskDied e)).
  { rewrite Hw'. simpl. apply list_lookup_insert_eq.
    pose proof (read_and_forward_pty_output_body_frame (fun _ => True)
                  any_pty (fun _ _ => I) (fun _ _ => I) w) as Hb.
    rewrite (frame_tasks _ _ _ _ Hb). by eapply lookup_lt_Some. }
  split; [by eapply pump_body_raises_oserror|].
  split; [exact Hdead|].
  split; [unfold pump; by rewrite Hdead|].
  split; [exact (frame_config _ _ _ _ Hframe)|].
  split; [intros fd; exact (frame_open _ _ _ _ fd Hframe)|].
  split.
  - intros fd p data s b Hfd Hne Hp Hdata Hb tty r. unfold r.
    rewrite (pty_input_open data w' fd p Hfd Hne Hp), Hdata, Hb.
    cbn [fst snd]. split; [done|]. split.
    { intros e'. unfold write_ends.
      by destruct (tty_input_queue _ p b). }
    split; [simpl; by rewrite <- app_assoc|].
    simpl. by rewrite lookup_insert_eq.
  - intros w0 fd p Hrun Hfd Hne Hp Hopen Hout Heof.
    unfold pump. rewrite Hrun, (pump_body_attached w0 fd Hfd Hne). simpl.
    rewrite Hp. unfold readable. by rewrite Hout, Hopen, Heof.
Qed.

(** C5, the claim as worded, fails: on Linux, after the child is gone the
    pump's read raises EIO and the task dies, but [fd] and [child_pid] stay
    set and descriptor 5 stays open; the next [pty_input] is no no-op: it
    calls [os.write] on that descriptor, the byte is written to the
    terminal and the handler returns. *)
Lemma input_after_child_exit_is_written :
  let r := run [OnConnect; ChildExits 5; Pump 0;
                OnPtyInput (input_of "x")] linux in
  r.1 = [Raise TypeError; Ok tt; Raise (OSError EIO); Ok tt]
  /\ config_fd (config r.2) = Some 5
  /\ config_child_pid (config r.2) = Some 4242
  /\ pty_stdin <$> k_ptys (kernel r.2) !! 5 = Some [120]
  /\ tasks r.2 = [TaskDied (OSError EIO)]
  /\ last (history r.2) = Some (Write 5 [120]).
Proof. vm_compute. repeat split; eauto. Qed.

(** ** Resize *)

Lemma is_H_range (v : PyVal) : is_H v = true -> 0 <= H_value v <= 0xFFFF.
Proof.
  destruct v as [|[]|n| |]; simpl; try done.
  intros [? ?]%andb_prop. lia.
Qed.

Lemma pack_H_spec (v : PyVal) :
  pack_H v = if is_H v then Ok (Z_to_little_endian 2 8 (H_value v))
             else Raise StructError.
Proof.
  by destruct v as [|[]|n| |].
Qed.

Lemma H_bytes (n : Z) :
  Z_to_little_endian 2 8 n
  = [Z.land n (Z.ones 8); Z.land (n ≫ 8) (Z.ones 8)].
Proof. reflexivity. Qed.

Lemma H_roundtrip (n : Z) :
  0 <= n <= 0xFFFF ->
  little_endian_to_Z 8 [Z.land n (Z.ones 8); Z.land (n ≫ 8) (Z.ones 8)] = n.
Proof.
  intros Hn. rewrite <- H_bytes.
  rewrite little_endian_to_Z_to_little_endian by lia.
  apply Z.mod_small. simpl. lia.
Qed.

(** The bytes [set_winsize] hands to the kernel, and what the kernel reads
    back from them. *)
Lemma winsize_pack_unpack (rows cols : PyVal) :
  is_H rows = true -> is_H cols = true ->
  exists winsize,
    struct_pack_H [rows; cols; PyInt 0; PyInt 0] = Ok winsize
    /\ unpack_winsize winsize
       = Some (mkWinsize (H_value rows) (H_value cols) 0 0).
Proof.
  intros Hr Hc. cbn [struct_pack_H]. rewrite !pack_H_spec, Hr, Hc.
  change (is_H (PyInt 0)) with true. cbv iota.
  eexists. split; [reflexivity|].
  rewrite !H_bytes. cbn [app unpack_winsize].
  rewrite !H_roundtrip by (by apply is_H_range || done).
  reflexivity.
Qed.

Lemma winsize_pack_fails (rows cols : PyVal) :
  is_H rows && is_H cols = false ->
  struct_pack_H [rows; cols; PyInt 0; PyInt 0] = Raise StructError.
Proof.
  intros H. simpl. rewrite !pack_H_spec.
  destruct (is_H rows); [|done]. by destruct (is_H cols).
Qed.

Lemma resize_noop (data : gmap string PyVal) (w : World) :
  truthy (config_fd (config w)) = false
  \/ data !! "rows"%string = None \/ data !! "cols"%string = None ->
  resize data w = (Ok tt, w).
Proof.
  intros H. unfold resize, py_in. py_unfold. simpl.
  destruct H as [-> | [-> | ->]]; simpl; [done| |].
  - by rewrite andb_false_r.
  - by rewrite andb_false_r.
Qed.

#[local] Opaque struct_pack_H.

Lemma resize_attached (data : gmap string PyVal) (w : World) (fd : Z)
    (rows cols : PyVal) :
  config_fd (config w) = Some fd -> fd <> 0 ->
  data !! "rows"%string = Some rows -> data !! "cols"%string = Some cols ->
  resize data w =
  let w1 := called (Log DEBUG "setting window size with termios")
              (called (Log DEBUG
                 "Resizing window to {data['rows']}x{data['cols']}") w) in
  match struct_pack_H [rows; cols; PyInt 0; PyInt 0] with
  | Ok winsize =>
      let w2 := called (Ioctl fd TIOCSWINSZ winsize) w1 in
      match k_ptys (kernel w) !! fd with
      | None => (Raise (OSError EBADF), w2)
      | Some p =>
          match unpack_winsize winsize with
          | Some ws =>
              (Ok tt, set_kernel (set_ptys <[fd := with_winsize ws p]>) w2)
          | None => (Raise (OSError EINVAL), w2)
          end
      end
  | Raise e => (Raise e, w1)
  | Hang => (Hang, w1)
  | Running => (Running, w1)
  end.
Proof.
  intros Hfd Hne Hrows Hcols. pose proof (truthy_fd fd Hne) as Htruthy.
  unfold resize, py_in, set_winsize. py_unfold.
  repeat (progress (simpl; rewrite ?Hfd, ?Htruthy, ?Hrows, ?Hcols)).
  destruct (struct_pack_H [rows; cols; PyInt 0; PyInt 0]) as [ws| | |];
    try done.
  simpl. destruct (k_ptys (kernel w) !! fd) as [p|]; [|done].
  by destruct (unpack_winsize ws).
Qed.

#[local] Transparent struct_pack_H.

Lemma count_snoc (p : Call -> bool) (h : list Call) (c : Call) :
  count p (h ++ [c]) = (count p h + if p c then 1 else 0)%nat.
Proof. rewrite count_app. unfold count at 2. simpl. by destruct (p c). Qed.

(** C6, as the code has it.  [resize] reaches the [ioctl] exactly when a
    descriptor is attached, both [rows] and [cols] are in the payload, and
    both values are integers in [0, 65535] (zero included; a bool counts
    as 0 or 1).  There is no check that they are positive.  Then the pty,
    if open, gets exactly that size.  With no descriptor attached or a key
    missing, [resize] returns normally and changes nothing.  With both keys
    present but a value that is not such an integer (negative, above 65535,
    a float, a string, null), [struct.pack] raises [struct.error] to the
    caller and no [ioctl] is made. *)
Theorem resize_sets_winsize_iff_packable (data : gmap string PyVal)
    (w : World) :
  let w' := (resize data w).2 in
  (count is_ioctl (history w') = S (count is_ioctl (history w)) <->
     truthy (config_fd (config w)) = true
     /\ exists rows cols,
          data !! "rows"%string = Some rows
          /\ data !! "cols"%string = Some cols
          /\ is_H rows = true /\ is_H cols = true)
  /\ (truthy (config_fd (config w)) = false
      \/ data !! "rows"%string = None \/ data !! "cols"%string = None ->
      resize data w = (Ok tt, w))
  /\ (forall rows cols,
        truthy (config_fd (config w)) = true ->
        data !! "rows"%string = Some rows ->
        data !! "cols"%string = Some cols ->
        is_H rows && is_H cols = false ->
        (resize data w).1 = Raise StructError
        /\ count is_ioctl (history w') = count is_ioctl (history w))
  /\ (forall fd p rows cols,
        config_fd (config w) = Some fd -> fd <> 0 ->
        k_ptys (kernel w) !! fd = Some p ->
        data !! "rows"%string = Some rows ->
        data !! "cols"%string = Some cols ->
        is_H rows = true -> is_H cols = true ->
        (resize data w).1 = Ok tt
        /\ k_ptys (kernel w') !! fd
           = Some (with_winsize
                     (mkWinsize (H_value rows) (H_value cols) 0 0) p)).
Proof.
  intros w'. unfold w'.
  split; [|split; [apply resize_noop|split]].
  - destruct (truthy (config_fd (config w))) eqn:Ht.
    2:{ rewrite resize_noop by auto. simpl. split; [lia|]. by intros [? _]. }
    destruct (config_fd (config w)) as [fd|] eqn:Hfd; [|done].
    assert (Hne : fd <> 0) by (intros ->; done).
    destruct (data !! "rows"%string) as [rows|] eqn:Hrows.
    2:{ rewrite resize_noop by auto. simpl. split; [lia|].
        by intros [_ (? & ? & ? & _)]. }
    destruct (data !! "cols"%string) as [cols|] eqn:Hcols.
    2:{ rewrite resize_noop by auto. simpl. split; [lia|].
        by intros [_ (? & ? & _ & ? & _)]. }
    rewrite (resize_attached data w fd rows cols Hfd Hne Hrows Hcols).
    destruct (is_H rows && is_H cols) eqn:HH.
    + apply andb_prop in HH as [Hr Hc].
      destruct (winsize_pack_unpack rows cols Hr Hc) as (ws & -> & ->).
      split; [intros _; split; [done|]; by exists rows, cols|].
      intros _. simpl.
      destruct (k_ptys (kernel w) !! fd) as [p|]; simpl;
        by rewrite !count_snoc; simpl; lia.
    + rewrite (winsize_pack_fails rows cols HH). simpl.
      rewrite !count_snoc. simpl. split; [lia|].
      intros [_ (r & c & [= <-] & [= <-] & Hr & Hc)].
      by rewrite Hr, Hc in HH.
  - intros rows cols Ht Hrows Hcols HH.
    destruct (config_fd (config w)) as [fd|] eqn:Hfd; [|done].
    assert (Hne : fd <> 0) by (intros ->; done).
    rewrite (resize_attached data w fd rows cols Hfd Hne Hrows Hcols).
    rewrite (winsize_pack_fails rows cols HH). simpl.
    rewrite !count_snoc. simpl. split; [done|lia].
  - intros fd p rows cols Hfd Hne Hp Hrows Hcols Hr Hc.
    rewrite (resize_attached data w fd rows cols Hfd Hne Hrows Hcols).
    destruct (winsize_pack_unpack rows cols Hr Hc) as (ws & -> & E).
    simpl. rewrite Hp, E. simpl. by rewrite lookup_insert_eq.
Qed.

(** C6, the claim as worded, fails: on an attached session a resize to
    0 x 0, whose dimensions are not positive, is not a no-op; the [ioctl]
    is made and the pty's window becomes 0 x 0. *)
Lemma resize_to_zero_reaches_ioctl :
  let w := (run [OnConnect] linux).2 in
  let r := resize (size_of (PyInt 0) (PyInt 0)) w in
  r.1 = Ok tt
  /\ last (history r.2) = Some (Ioctl 5 TIOCSWINSZ [0; 0; 0; 0; 0; 0; 0; 0])
  /\ pty_winsize <$> (k_ptys (kernel w) !! 5) = Some (mkWinsize 50 50 0 0)
  /\ pty_winsize <$> (k_ptys (kernel r.2) !! 5) = Some (mkWinsize 0 0 0 0).
Proof. by vm_compute. Qed.

(** ** The child's loop *)

Lemma while_True_never_returns {A : Type} (fuel : nat) (body : Py unit)
    (w : World) (a : A) :
  (while_True fuel body w).1 <> Ok a.
Proof.
  revert w. induction fuel as [|fuel IH]; intros w; [done|].
  simpl. unfold mbind, Py_bind.
  destruct (body w) as [[[]| e | |] w']; first [done | apply IH].
Qed.

Lemma connect_idle_child (fuel : nat) (w : World) :
  truthy (config_child_pid (config w)) = false ->
  k_fork_side (kernel w) = Child ->
  k_nproc (kernel w) <> O ->
  connect fuel w
  = while_True fuel connect_child_body
      (called Fork (called (Log INFO "new client connected") w)).
Proof.
  intros Hidle Hside Hnproc.
  destruct (k_nproc (kernel w)) as [|nproc] eqn:Hn; [done|].
  unfold connect, logging_info, app_config, pty_fork.
  unfold call, update, lift, raise, get_world, mbind, mret, Py_bind, Py_ret.
  unfold called at 1 2 3 4.
  repeat (progress (simpl; rewrite ?Hidle, ?Hn, ?Hside)).
  reflexivity.
Qed.

Lemma connect_child_body_spec (w : World) :
  (connect_child_body w).1
  = outcome_of_run (k_exec (kernel w) (config_cmd (config w))
                           (k_runs (kernel w)))
  /\ child_ran 1 w (connect_child_body w).2.
Proof.
  unfold connect_child_body, tempfile_mkdtemp, subprocess_run, app_config.
  unfold call, update, lift, raise, hang, get_world, mbind, mret, Py_bind,
    Py_ret, set_kernel, set_config, called.
  destruct (py_truthy (config_useTmp (config w))); simpl;
    destruct (k_exec (kernel w) (config_cmd (config w)) (k_runs (kernel w)));
    simpl; (split; [done|]); split; simpl; try done;
    rewrite <- ?app_assoc, ?count_app; unfold count; simpl; lia.
Qed.

Lemma child_loop_all_return (fuel : nat) (w : World) :
  (forall i, (i < fuel)%nat ->
     exists rc, k_exec (kernel w) (config_cmd (config w))
                  (k_runs (kernel w) + i) = Returned rc) ->
  (@while_True unit fuel connect_child_body w).1 = Running
  /\ child_ran fuel w (@while_True unit fuel connect_child_body w).2.
Proof.
  revert w. induction fuel as [|fuel IH]; intros w Hret.
  - simpl. by split.
  - simpl. unfold mbind, Py_bind.
    destruct (connect_child_body_spec w) as [Hout [Hcmd Hexec Hruns Hhist]].
    destruct (Hret O ltac:(lia)) as [rc Hrc].
    rewrite Nat.add_0_r in Hrc. rewrite Hrc in Hout.
    destruct (connect_child_body w) as [[[]| e | |] w1]; try done.
    simpl in *.
    destruct (IH w1) as [Hloop [Hcmd' Hexec' Hruns' Hhist']].
    { intros i Hi. rewrite Hcmd, Hexec, Hruns.
      destruct (Hret (S i) ltac:(lia)) as [rc' Hrc']. exists rc'.
      rewrite <- Hrc'. f_equal. lia. }
    split; [done|].
    split; [congruence | congruence | lia | lia].
Qed.

Lemma child_loop_first_failure (fuel n : nat) (errno : Z) (w : World) :
  (n < fuel)%nat ->
  (forall i, (i < n)%nat ->
     exists rc, k_exec (kernel w) (config_cmd (config w))
                  (k_runs (kernel w) + i) = Returned rc) ->
  k_exec (kernel w) (config_cmd (config w)) (k_runs (kernel w) + n)
  = Failed errno ->
  (@while_True unit fuel connect_child_body w).1 = Raise (OSError errno)
  /\ child_ran (S n) w (@while_True unit fuel connect_child_body w).2.
Proof.
  revert fuel w. induction n as [|n IH]; intros fuel w Hlt Hret Hfail;
    (destruct fuel as [|fuel]; [lia|]);
    simpl; unfold mbind, Py_bind;
    destruct (connect_child_body_spec w) as [Hout [Hcmd Hexec Hruns Hhist]].
  - rewrite Nat.add_0_r in Hfail. rewrite Hfail in Hout.
    destruct (connect_child_body w) as [[[]| e | |] w1]; try done;
      simpl in *; by injection Hout as ->.
  - destruct (Hret O ltac:(lia)) as [rc Hrc].
    rewrite Nat.add_0_r in Hrc. rewrite Hrc in Hout.
    destruct (connect_child_body w) as [[[]| e | |] w1]; try done.
    simpl in *.
    destruct (IH fuel w1) as [Hloop [Hcmd' Hexec' Hruns' Hhist']];
      [lia | |  |].
    { intros i Hi. rewrite Hcmd, Hexec, Hruns.
      destruct (Hret (S i) ltac:(lia)) as [rc' Hrc']. exists rc'.
      rewrite <- Hrc'. f_equal. lia. }
    { rewrite Hcmd, Hexec, Hruns, <- Hfail. f_equal. lia. }
    split; [done|].
    split; [congruence | congruence | lia | lia].
Qed.

(** C8, as the code has it.  On the child's side of the fork, [connect]
    never returns: its loop has no exit of its own.  Whenever
    [subprocess.run] returns, whatever the return code, the command is run
    again: if the first [fuel] runs return, the loop is still running
    after them and has run the command [fuel] times.  But the loop does
    not retry a command that cannot be started: the first
    [subprocess.run] that raises leaves the loop, and [connect], with
    that [OSError], after exactly the runs made so far. *)
Theorem child_loop_reruns_until_run_raises (fuel : nat) (w : World) :
  truthy (config_child_pid (config w)) = false ->
  k_fork_side (kernel w) = Child ->
  k_nproc (kernel w) <> O ->
  let cmd := config_cmd (config w) in
  let nth_run i := k_exec (kernel w) cmd (k_runs (kernel w) + i) in
  (connect fuel w).1 <> Ok tt
  /\ ((forall i, (i < fuel)%nat -> exists rc, nth_run i = Returned rc) ->
      (connect fuel w).1 = Running
      /\ count is_run (history (connect fuel w).2)
         = (fuel + count is_run (history w))%nat)
  /\ (forall n errno,
        (n < fuel)%nat ->
        (forall i, (i < n)%nat -> exists rc, nth_run i = Returned rc) ->
        nth_run n = Failed errno ->
        (connect fuel w).1 = Raise (OSError errno)
        /\ count is_run (history (connect fuel w).2)
           = (S n + count is_run (history w))%nat).
Proof.
  intros Hidle Hside Hnproc cmd nth_run.
  rewrite (connect_idle_child fuel w Hidle Hside Hnproc).
  set (w1 := called Fork (called (Log INFO "new client connected") w)).
  assert (Hcount : count is_run (history w1) = count is_run (history w)).
  { unfold w1, called. simpl. rewrite !count_snoc. simpl. lia. }
  split; [apply while_True_never_returns|]. split.
  - intros Hret.
    destruct (child_loop_all_return fuel w1 Hret) as [Hloop [_ _ _ Hhist]].
    split; [done|]. by rewrite Hhist, Hcount.
  - intros n errno Hlt Hret Hfail.
    destruct (child_loop_first_failure fuel n errno w1 Hlt Hret Hfail)
      as [Hloop [_ _ _ Hhist]].
    split; [done|]. by rewrite Hhist, Hcount.
Qed.

(** C8, the claim as worded, fails: when the configured command cannot be
    started, [subprocess.run] raises, and the exception ends the child's
    loop after a single run; the command is not retried. *)
Lemma child_loop_left_when_command_cannot_start :
  let r := connect 5 child_of_typo in
  r.1 = Raise (OSError ENOENT)
  /\ history r.2 = [Log INFO "new client connected"; Fork;
                    Run ["bahs"%string] None].
Proof. by vm_compute. Qed.

(** ** Decoding with invalid bytes *)

Lemma utf8_decode1_decoded (s : list Z) (ch : Z) (len : nat) :
  utf8_decode1 s = Decoded ch len ->
  (1 <= len <= length s)%nat
  /\ forall rest, utf8_decode1 (take len s ++ rest) = Decoded ch len.
Proof.
  unfold utf8_decode1.
  destruct s as [|c1 [|c2 [|c3 [|c4 s]]]]; try done;
    repeat (case_match; try done); intros [= <- <-];
    (split; [simpl; lia|]); intros rest; simpl;
    repeat (case_match; try done); congruence.
Qed.


(** ** Encoding then decoding *)

Lemma lor_low_bits (hi x : Z) (n : nat) :
  0 <= x < Z.of_nat n ->
  (forall k, (k < n)%nat -> Z.lor hi (Z.of_nat k) = hi + Z.of_nat k) ->
  Z.lor hi x = hi + x.
Proof.
  intros Hx H. rewrite <- (Z2Nat.id x) by lia. apply H. lia.
Qed.

Lemma lor_0x80 (x : Z) : 0 <= x < 64 -> Z.lor 0x80 x = 0x80 + x.
Proof.
  intros Hx. apply (lor_low_bits _ _ 64); [done|].
  intros k Hk. do 64 (destruct k as [|k]; [reflexivity|]). lia.
Qed.

Lemma lor_0xC0 (x : Z) : 0 <= x < 32 -> Z.lor 0xC0 x = 0xC0 + x.
Proof.
  intros Hx. apply (lor_low_bits _ _ 32); [done|].
  intros k Hk. do 32 (destruct k as [|k]; [reflexivity|]). lia.
Qed.

Lemma lor_0xE0 (x : Z) : 0 <= x < 16 -> Z.lor 0xE0 x = 0xE0 + x.
Proof.
  intros Hx. apply (lor_low_bits _ _ 16); [done|].
  intros k Hk. do 16 (destruct k as [|k]; [reflexivity|]). lia.
Qed.

Lemma lor_0xF0 (x : Z) : 0 <= x < 8 -> Z.lor 0xF0 x = 0xF0 + x.
Proof.
  intros Hx. apply (lor_low_bits _ _ 8); [done|].
  intros k Hk. do 8 (destruct k as [|k]; [reflexivity|]). lia.
Qed.

Lemma land_0x3F (x : Z) : Z.land x 0x3F = x mod 64.
Proof. change 0x3F with (Z.ones 6). by rewrite Z.land_ones. Qed.

(** The bytes of an encoded character, as sums. *)
Lemma utf8_encode_char_bytes (ch : Z) :
  0 <= ch <= 0x10FFFF ->
  utf8_encode_char ch =
  if ch <? 0x80 then Ok [ch]
  else if ch <? 0x800 then Ok [0xC0 + ch / 64; 0x80 + ch mod 64]
  else if (0xD800 <=? ch) && (ch <=? 0xDFFF) then Raise UnicodeEncodeError
  else if ch <? 0x10000 then
    Ok [0xE0 + ch / 4096; 0x80 + (ch / 64) mod 64; 0x80 + ch mod 64]
  else
    Ok [0xF0 + ch / 262144; 0x80 + (ch / 4096) mod 64;
        0x80 + (ch / 64) mod 64; 0x80 + ch mod 64].
Proof.
  intros Hch. unfold utf8_encode_char.
  rewrite !land_0x3F, !Z.shiftr_div_pow2 by lia.
  change (2 ^ 6) with 64. change (2 ^ 12) with 4096.
  change (2 ^ 18) with 262144.
  rewrite !lor_0x80 by (apply Z.mod_pos_bound; lia).
  destruct (Z.ltb_spec ch 0x80); [done|].
  destruct (Z.ltb_spec ch 0x800).
  { rewrite lor_0xC0; [done|].
    split; [apply Z.div_pos; lia | apply Z.div_lt_upper_bound; lia]. }
  destruct (_ && _); [done|].
  destruct (Z.ltb_spec ch 0x10000).
  { rewrite lor_0xE0; [done|].
    split; [apply Z.div_pos; lia | apply Z.div_lt_upper_bound; lia]. }
  rewrite lor_0xF0; [done|].
  split; [apply Z.div_pos; lia | apply Z.div_lt_upper_bound; lia].
Qed.

Ltac decide_tests :=
  repeat match goal with
    | |- context [?x <? ?y] => destruct (Z.ltb_spec x y); try lia
    | |- context [?x <=? ?y] => destruct (Z.leb_spec x y); try lia
    | |- context [?x =? ?y] => destruct (Z.eqb_spec x y); try lia
    end.

(** Decoding the encoding of a character gives the character back, with
    whatever follows left to decode. *)
Lemma utf8_decode1_encode (ch : Z) (bs rest : list Z) :
  0 <= ch <= 0x10FFFF ->
  utf8_encode_char ch = Ok bs ->
  utf8_decode1 (bs ++ rest) = Decoded ch (length bs).
Proof.
  intros Hch. rewrite (utf8_encode_char_bytes ch Hch).
  pose proof (Z.div_mod ch 64 ltac:(lia)) as E1.
  pose proof (Z.mod_pos_bound ch 64 ltac:(lia)) as B1.
  pose proof (Z.div_mod (ch / 64) 64 ltac:(lia)) as E2.
  pose proof (Z.mod_pos_bound (ch / 64) 64 ltac:(lia)) as B2.
  pose proof (Z.div_mod (ch / 4096) 64 ltac:(lia)) as E3.
  pose proof (Z.mod_pos_bound (ch / 4096) 64 ltac:(lia)) as B3.
  assert (D2 : ch / 4096 = ch / 64 / 64) by (by rewrite Z.div_div by lia).
  assert (D3 : ch / 262144 = ch / 4096 / 64) by (by rewrite Z.div_div by lia).
  rewrite <- D2 in E2. rewrite <- D3 in E3.
  remember (ch / 262144) as q3 eqn:Hq3.
  remember (ch / 4096) as q2 eqn:Hq2.
  remember (ch / 64) as q1 eqn:Hq1.
  remember (q2 mod 64) as r3 eqn:Hr3.
  remember (q1 mod 64) as r2 eqn:Hr2.
  remember (ch mod 64) as r1 eqn:Hr1.
  clear Hq3 Hq2 Hq1 Hr3 Hr2 Hr1.
  destruct (Z.ltb_spec ch 0x80).
  { intros [= <-]. simpl. by decide_tests. }
  destruct (Z.ltb_spec ch 0x800).
  { intros [= <-]. simpl. unfold IS_CONTINUATION_BYTE.
    rewrite !Z.shiftl_mul_pow2 by lia. decide_tests; simpl; f_equal; lia. }
  destruct (Z.leb_spec 0xD800 ch); destruct (Z.leb_spec ch 0xDFFF);
    simpl; try done.
  - destruct (Z.ltb_spec ch 0x10000).
    + intros [= <-]. simpl. unfold IS_CONTINUATION_BYTE.
      rewrite !Z.shiftl_mul_pow2 by lia. decide_tests; simpl; f_equal; lia.
    + intros [= <-]. simpl. unfold IS_CONTINUATION_BYTE.
      rewrite !Z.shiftl_mul_pow2 by lia. decide_tests; simpl; f_equal; lia.
  - destruct (Z.ltb_spec ch 0x10000).
    + intros [= <-]. simpl. unfold IS_CONTINUATION_BYTE.
      rewrite !Z.shiftl_mul_pow2 by lia. decide_tests; simpl; f_equal; lia.
    + lia.
  - lia.
Qed.

Lemma utf8_decode_encode (s b : list Z) (fuel : nat) :
  Forall code_point s -> str_encode s = Ok b -> (length b <= fuel)%nat ->
  utf8_decode fuel strict b = Ok s.
Proof.
  intros Hs. revert b fuel.
  induction Hs as [|ch s Hch _ IH]; intros b fuel Hb Hfuel.
  { injection Hb as <-. by destruct fuel. }
  simpl in Hb.
  destruct (utf8_encode_char ch) as [bs| | |] eqn:Ech; try done.
  destruct (str_encode s) as [r| | |] eqn:Er; try done.
  injection Hb as <-.
  pose proof (utf8_decode1_encode ch bs r Hch Ech) as Hd.
  destruct (utf8_decode1_decoded _ _ _ Hd) as [[Hlen _] _].
  rewrite length_app in Hfuel.
  destruct fuel as [|fuel]; [lia|].
  destruct (bs ++ r) as [|c t] eqn:Ebs.
  { apply (f_equal length) in Ebs. rewrite length_app in Ebs.
    simpl in Ebs. lia. }
  cbn [utf8_decode]. rewrite Hd, <- Ebs, drop_app_length.
  by rewrite (IH r fuel eq_refl) by lia.
Qed.

(** A text that encodes decodes, strictly, to itself. *)
Lemma bytes_decode_str_encode (s b : list Z) :
  Forall code_point s -> str_encode s = Ok b -> bytes_decode strict b = Ok s.
Proof. intros Hs Hb. by apply utf8_decode_encode. Qed.

Lemma utf8_decode1_invalid_len (s : list Z) (len : nat) :
  utf8_decode1 s = InvalidContinuation len -> (1 <= len)%nat.
Proof.
  unfold utf8_decode1.
  destruct s as [|c1 [|c2 [|c3 [|c4 s]]]]; try done;
    repeat (case_match; try done); intros [= <-]; lia.
Qed.

(** More fuel than bytes changes nothing. *)
Lemma utf8_decode_fuel (errors : Errors) (f1 f2 : nat) (s : list Z) :
  (length s <= f1)%nat -> (length s <= f2)%nat ->
  utf8_decode f1 errors s = utf8_decode f2 errors s.
Proof.
  revert f2 s. induction f1 as [|f1 IH]; intros f2 s H1 H2.
  { destruct s; [|simpl in H1; lia]. by destruct f2. }
  destruct s as [|c s]; [by destruct f2|].
  destruct f2 as [|f2]; [simpl in H2; lia|].
  cbn [utf8_decode].
  destruct (utf8_decode1 (c :: s)) as [ch len| |len|] eqn:E.
  - destruct (utf8_decode1_decoded _ _ _ E) as [[Hlen _] _].
    rewrite (IH f2); [done| |]; rewrite length_drop; simpl in *; lia.
  - destruct errors; [done|].
    apply IH; rewrite length_drop; simpl in *; lia.
  - pose proof (utf8_decode1_invalid_len _ _ E).
    destruct errors; [done|].
    apply IH; rewrite length_drop; simpl in *; lia.
  - done.
Qed.

Lemma decode_ignore_fuel (fuel : nat) (s : list Z) :
  (length s <= fuel)%nat -> utf8_decode fuel ignore s = Ok (decode_ignore s).
Proof.
  intros H. rewrite <- bytes_decode_ignore. unfold bytes_decode.
  by apply utf8_decode_fuel.
Qed.

(** The encoding of a text decodes to the text, whatever follows it. *)
Lemma decode_ignore_encoded_prefix (s b rest : list Z) :
  Forall code_point s -> str_encode s = Ok b ->
  decode_ignore (b ++ rest) = s ++ decode_ignore rest.
Proof.
  intros Hs. revert b.
  induction Hs as [|ch s Hch _ IH]; intros b Hb.
  { by injection Hb as <-. }
  simpl in Hb.
  destruct (utf8_encode_char ch) as [bs| | |] eqn:Ech; try done.
  destruct (str_encode s) as [r| | |] eqn:Er; try done.
  injection Hb as <-. rewrite <- app_assoc.
  pose proof (utf8_decode1_encode ch bs (r ++ rest) Hch Ech) as Hd.
  destruct (utf8_decode1_decoded _ _ _ Hd) as [[Hlen _] _].
  unfold decode_ignore at 1, bytes_decode.
  destruct (bs ++ r ++ rest) as [|c t] eqn:Ebs.
  { apply (f_equal length) in Ebs. rewrite length_app in Ebs.
    simpl in Ebs. lia. }
  cbn [length utf8_decode]. rewrite Hd, <- Ebs, drop_app_length.
  rewrite decode_ignore_fuel.
  2:{ apply (f_equal length) in Ebs. rewrite length_app in Ebs.
      simpl in Ebs. lia. }
  by rewrite IH.
Qed.

(** The bytes of an encoded character after the first are continuation
    bytes, and the decoder finds the end of the data in every proper
    prefix of them. *)
Lemma utf8_encode_char_cut (ch : Z) (bs : list Z) (k : nat) :
  code_point ch -> utf8_encode_char ch = Ok bs ->
  (0 < k < length bs)%nat ->
  utf8_decode1 (take k bs) = UnexpectedEnd
  /\ Forall continuation (drop k bs).
Proof.
  intros Hch. unfold code_point in Hch.
  rewrite (utf8_encode_char_bytes ch Hch).
  pose proof (Z.div_mod ch 64 ltac:(lia)) as E1.
  pose proof (Z.mod_pos_bound ch 64 ltac:(lia)) as B1.
  pose proof (Z.div_mod (ch / 64) 64 ltac:(lia)) as E2.
  pose proof (Z.mod_pos_bound (ch / 64) 64 ltac:(lia)) as B2.
  pose proof (Z.div_mod (ch / 4096) 64 ltac:(lia)) as E3.
  pose proof (Z.mod_pos_bound (ch / 4096) 64 ltac:(lia)) as B3.
  assert (D2 : ch / 4096 = ch / 64 / 64) by (by rewrite Z.div_div by lia).
  assert (D3 : ch / 262144 = ch / 4096 / 64) by (by rewrite Z.div_div by lia).
  rewrite <- D2 in E2. rewrite <- D3 in E3.
  remember (ch / 262144) as q3 eqn:Hq3.
  remember (ch / 4096) as q2 eqn:Hq2.
  remember (ch / 64) as q1 eqn:Hq1.
  remember (q2 mod 64) as r3 eqn:Hr3.
  remember (q1 mod 64) as r2 eqn:Hr2.
  remember (ch mod 64) as r1 eqn:Hr1.
  clear Hq3 Hq2 Hq1 Hr3 Hr2 Hr1.
  unfold continuation.
  destruct (Z.ltb_spec ch 0x80).
  { intros [= <-] Hk. simpl in Hk. lia. }
  destruct (Z.ltb_spec ch 0x800).
  { intros [= <-] Hk. simpl in Hk.
    assert (k = 1%nat) as -> by lia. simpl. split.
    - by decide_tests.
    - repeat constructor; lia. }
  destruct (Z.leb_spec 0xD800 ch); destruct (Z.leb_spec ch 0xDFFF);
    simpl; try done;
    destruct (Z.ltb_spec ch 0x10000); try lia;
    intros [= <-] Hk; simpl in Hk;
    (destruct k as [|[|[|[|k]]]]; try lia); simpl;
    (split; [unfold IS_CONTINUATION_BYTE; by decide_tests
            | repeat constructor; lia]).
Qed.

(** Continuation bytes at the head of a read are skipped. *)
Lemma decode_ignore_continuations (cs rest : list Z) :
  Forall continuation cs -> decode_ignore (cs ++ rest) = decode_ignore rest.
Proof.
  induction 1 as [|c cs Hc _ IH]; [done|].
  unfold decode_ignore at 1, bytes_decode. cbn [app length utf8_decode].
  assert (Hd : utf8_decode1 (c :: cs ++ rest) = InvalidStart).
  { unfold continuation in Hc. unfold utf8_decode1. by decide_tests. }
  rewrite Hd. cbn [drop]. by rewrite decode_ignore_fuel.
Qed.

(** A read that ends inside a character gives the text before it. *)
Lemma decode_ignore_cut_head (s b bs : list Z) (ch : Z) (k : nat) :
  Forall code_point s -> str_encode s = Ok b ->
  code_point ch -> utf8_encode_char ch = Ok bs ->
  (0 < k < length bs)%nat ->
  decode_ignore (b ++ take k bs) = s.
Proof.
  intros Hs Hb Hch Hbs Hk.
  rewrite (decode_ignore_encoded_prefix s b _ Hs Hb).
  destruct (utf8_encode_char_cut ch bs k Hch Hbs Hk) as [Hend _].
  unfold decode_ignore, bytes_decode.
  destruct (take k bs) as [|c t] eqn:E; [by rewrite app_nil_r|].
  cbn [length utf8_decode]. rewrite Hend. by rewrite app_nil_r.
Qed.

(** A read that starts inside a character gives the text after it. *)
Lemma decode_ignore_cut_tail (t b bs : list Z) (ch : Z) (k : nat) :
  Forall code_point t -> str_encode t = Ok b ->
  code_point ch -> utf8_encode_char ch = Ok bs ->
  (0 < k < length bs)%nat ->
  decode_ignore (drop k bs ++ b) = t.
Proof.
  intros Ht Hb Hch Hbs Hk.
  destruct (utf8_encode_char_cut ch bs k Hch Hbs Hk) as [_ Hcs].
  rewrite (decode_ignore_continuations _ _ Hcs).
  rewrite <- (app_nil_r b), (decode_ignore_encoded_prefix t b [] Ht Hb).
  by rewrite app_nil_r.
Qed.





(** ** The theorems at sample worlds *)

(** C1 on the sample server: three connects, an input and a pump
    iteration make one fork and one task. *)
Lemma connect_spawns_once_witness :
  let es := [OnConnect; OnPtyInput (input_of "ls"); Pump 0; OnConnect] in
  truthy (config_child_pid (config linux)) = false
  /\ k_fork_side (kernel linux) = Parent
  /\ k_nproc (kernel linux) <> O
  /\ step OnConnect linux = (Raise TypeError, connected linux)
  /\ count is_fork (history (run es (step OnConnect linux).2).2) = 1%nat
  /\ count is_start_task (history (run es (step OnConnect linux).2).2)
     = 1%nat
  /\ length (tasks (run es (step OnConnect linux).2).2) = 1%nat.
Proof.
  intros es.
  assert (H1 : truthy (config_child_pid (config linux)) = false)
    by reflexivity.
  assert (H2 : k_fork_side (kernel linux) = Parent) by reflexivity.
  assert (H3 : k_nproc (kernel linux) <> O) by (simpl; lia).
  destruct (connect_spawns_once linux es 0 H1 H2 H3)
    as (Hfirst & _ & _ & Hforks & Htasks & Hlen & _).
  repeat split; assumption.
Defined.

(** C5 on the sample server once the child is gone. *)
Lemma read_error_stops_only_the_pump_witness :
  let w := (run [OnConnect; ChildExits 5] linux).2 in
  (pump 0 w).1 = Raise (OSError EIO)
  /\ tasks (pump 0 w).2 !! 0%nat = Some (TaskDied (OSError EIO))
  /\ config (pump 0 w).2 = config w.
Proof.
  intros w.
  assert (H : (pump 0 w).1 = Raise (OSError EIO)) by (vm_compute; reflexivity).
  split; [exact H|].
  destruct (read_error_stops_only_the_pump w 0 (OSError EIO) H)
    as (_ & Hdead & _ & Hconfig & _).
  split; assumption.
Defined.

(** C8 in the child of the sample server, whose command returns each
    time: after three iterations the loop is still running. *)
Lemma child_loop_reruns_until_run_raises_witness :
  truthy (config_child_pid (config child_of_bash)) = false
  /\ k_fork_side (kernel child_of_bash) = Child
  /\ k_nproc (kernel child_of_bash) <> O
  /\ (connect 3 child_of_bash).1 <> Ok tt
  /\ (connect 3 child_of_bash).1 = Running
  /\ count is_run (history (connect 3 child_of_bash).2)
     = (3 + count is_run (history child_of_bash))%nat.
Proof.
  assert (H1 : truthy (config_child_pid (config child_of_bash)) = false)
    by reflexivity.
  assert (H2 : k_fork_side (kernel child_of_bash) = Child) by reflexivity.
  assert (H3 : k_nproc (kernel child_of_bash) <> O) by (simpl; lia).
  destruct (child_loop_reruns_until_run_raises 3 child_of_bash H1 H2 H3)
    as (Hnever & Hreturn & _).
  destruct Hreturn as [Hrunning Hruns].
  { intros i _. by exists 0. }
  repeat split; assumption.
Defined.

(** C10 on the sample server: the child exits, the pump dies, and the
    descriptor and the pid are still there. *)
Lemma session_handles_never_cleared_witness :
  let w := (run [OnConnect] linux).2 in
  let es := [ChildExits 5; Pump 0; OnPtyInput (input_of "x"); OnConnect;
             OnResize (size_of (PyInt 24) (PyInt 80))] in
  config_fd (config w) = Some 5
  /\ config_child_pid (config w) = Some 4242
  /\ 4242 <> 0
  /\ config_fd (config (run es w).2) = Some 5
  /\ config_child_pid (config (run es w).2) = Some 4242
  /\ truthy (config_fd (config (run es w).2)) = truthy (config_fd (config w))
  /\ (is_Some (k_ptys (kernel w) !! 5) ->
      is_Some (k_ptys (kernel (run es w).2) !! 5)).
Proof.
  intros w es.
  assert (H1 : config_fd (config w) = Some 5) by reflexivity.
  assert (H2 : config_child_pid (config w) = Some 4242) by reflexivity.
  assert (H3 : 4242 <> 0) by lia.
  destruct (session_handles_never_cleared es w 5 4242 H1 H2 H3)
    as (Hfd & Hpid & Htruthy & Hopen).
  repeat split; assumption.
Defined.

(** ** Input, and an input that the child does not read *)





(** ** Two connects at once *)

(** [connect] is its test followed by the rest. *)
Lemma connect_cut (fuel : nat) (w : World) :
  connect fuel w
  = (connect_test ≫= fun started : bool =>
       if started then mret tt else connect_after_test fuel) w.
Proof.
  unfold connect, connect_test, connect_after_test, logging_info,
    app_config, call, update, get_world, mbind, mret, Py_bind, Py_ret.
  simpl. by destruct (truthy (config_child_pid (config w))).
Qed.

Lemma connect_test_idle (w : World) :
  truthy (config_child_pid (config w)) = false ->
  connect_test w = (Ok false, called (Log INFO "new client connected") w).
Proof.
  intros H. unfold connect_test, logging_info, app_config, call, update,
    get_world, mbind, mret, Py_bind, Py_ret. simpl. by rewrite H.
Qed.

(** The rest of [connect] in the server process, whatever
    [app.config["child_pid"]] holds by now. *)
Lemma connect_after_test_parent (fuel : nat) (w : World) :
  k_fork_side (kernel w) = Parent ->
  k_nproc (kernel w) <> O ->
  connect_after_test fuel w
  = (Raise TypeError,
     let k := kernel w in
     let pid := Z.pos (k_next_pid k) in
     let fd := k_next_fd k in
     mkWorld
       (set_child_pid (Some pid) (set_fd (Some fd) (config w)))
       (mkKernel
          (<[fd := mkPty pid true [] [] (mkWinsize 50 50 0 0)]> (k_ptys k))
          (Pos.succ (k_next_pid k)) (fd + 1) (pred (k_nproc k))
          (k_eof_eio k) (k_fork_side k) (k_exec k) (k_runs k) (k_tmpdirs k)
          (k_tty k))
       (tasks w ++ [TaskRunning])
       (history w ++
          [Fork; Log DEBUG "setting window size with termios";
           Ioctl fd TIOCSWINSZ [50; 0; 50; 0; 0; 0; 0; 0];
           StartTask "read_and_forward_pty_output"])).
Proof.
  intros Hside Hnproc.
  destruct (k_nproc (kernel w)) as [|nproc] eqn:Hn; [done|].
  unfold connect_after_test, logging_info, app_config, pty_fork, set_winsize,
    logging_debug, fcntl_ioctl, socketio_start_background_task, py_add,
    call, update, lift, raise, get_world, mbind, mret, Py_bind, Py_ret,
    set_kernel, set_ptys, set_config, set_tasks, called.
  repeat (progress (simpl; rewrite ?Hn, ?Hside, ?lookup_insert_eq,
                      ?insert_insert_eq)).
  by rewrite <- !app_assoc.
Qed.

(** C9, as the code has it.  [connect] is the test of
    [app.config["child_pid"]] followed by the rest of the handler, with
    no lock around the two: [pty.fork()] and the assignment of
    [child_pid] come after the test.  Two connects that run one after the
    other fork once.  When the second makes its test before the first has
    gone on, both find no child and both fork: two children, two pumps
    and two ptys, where [app.config] keeps the descriptor and the pid of
    the second only, and the pty of the first stays open. *)
Theorem second_connect_before_store_forks_again (w : World) :
  truthy (config_child_pid (config w)) = false ->
  k_fork_side (kernel w) = Parent ->
  (2 <= k_nproc (kernel w))%nat ->
  let fd := k_next_fd (kernel w) in
  let pid := k_next_pid (kernel w) in
  let one_by_one := run [OnConnect; OnConnect] w in
  let together := racing_connects w in
  (forall fuel w0,
     connect fuel w0
     = (connect_test ≫= fun started : bool =>
          if started then mret tt else connect_after_test fuel) w0)
  /\ one_by_one.1 = [Raise TypeError; Ok tt]
  /\ count is_fork (history one_by_one.2) = S (count is_fork (history w))
  /\ together.1 = [Raise TypeError; Raise TypeError]
  /\ count is_fork (history together.2) = S (S (count is_fork (history w)))
  /\ count is_start_task (history together.2)
     = S (S (count is_start_task (history w)))
  /\ tasks together.2 = tasks w ++ [TaskRunning; TaskRunning]
  /\ k_next_pid (kernel together.2) = Pos.succ (Pos.succ pid)
  /\ config_fd (config together.2) = Some (fd + 1)
  /\ config_child_pid (config together.2) = Some (Z.pos (Pos.succ pid))
  /\ k_ptys (kernel together.2) !! fd
     = Some (mkPty (Z.pos pid) true [] [] (mkWinsize 50 50 0 0))
  /\ k_ptys (kernel together.2) !! (fd + 1)
     = Some (mkPty (Z.pos (Pos.succ pid)) true [] [] (mkWinsize 50 50 0 0)).
Proof.
  intros Hidle Hside Hnproc fd pid one_by_one together.
  split; [intros fuel w0; apply connect_cut|].
  assert (Hn1 : k_nproc (kernel w) <> O) by lia.
  assert (H1 : step OnConnect w = (Raise TypeError, connected w))
    by by apply connect_idle_parent.
  assert (H2 : step OnConnect (connected w)
               = (Ok tt, called (Log INFO "new client connected")
                           (connected w)))
    by by apply connect_started.
  assert (Hone : one_by_one
                 = ([Raise TypeError; Ok tt],
                    called (Log INFO "new client connected") (connected w))).
  { unfold one_by_one. rewrite !run_cons, H1. cbn [fst snd]. by rewrite H2. }
  split; [by rewrite Hone|].
  split.
  { rewrite Hone. simpl. rewrite !count_app. unfold count at 2 3. simpl. lia. }
  set (w1 := called (Log INFO "new client connected") w).
  set (w2 := called (Log INFO "new client connected") w1).
  assert (Ht1 : connect_test w = (Ok false, w1))
    by by apply connect_test_idle.
  assert (Ht2 : connect_test w1 = (Ok false, w2))
    by by apply connect_test_idle.
  assert (Ha : k_fork_side (kernel w2) = Parent) by done.
  assert (Hb : k_nproc (kernel w2) <> O) by (simpl; lia).
  pose proof (connect_after_test_parent 0 w2 Ha Hb) as H3.
  cbv zeta in H3.
  set (w3 := (connect_after_test 0 w2).2) in *.
  assert (Hw3 : connect_after_test 0 w2 = (Raise TypeError, w3))
    by (unfold w3; by rewrite H3).
  assert (Hc : k_fork_side (kernel w3) = Parent)
    by (unfold w3; by rewrite H3).
  assert (Hd : k_nproc (kernel w3) <> O).
  { unfold w3. rewrite H3. simpl. lia. }
  pose proof (connect_after_test_parent 0 w3 Hc Hd) as H4.
  cbv zeta in H4.
  assert (Htog : together = ([Raise TypeError; Raise TypeError],
                             (connect_after_test 0 w3).2)).
  { unfold together, racing_connects, connect_rest.
    rewrite Ht1, Ht2, Hw3. by rewrite H4. }
  rewrite Htog. cbn [fst snd]. rewrite H4. unfold w3. rewrite H3.
  unfold w2, w1. simpl.
  split; [done|].
  split.
  { rewrite !count_app. unfold count at 2 3 4 5. simpl. lia. }
  split.
  { rewrite !count_app. unfold count at 2 3 4 5. simpl. lia. }
  split; [by rewrite <- app_assoc|].
  split; [done|]. split; [done|]. split; [done|].
  split.
  - rewrite lookup_insert_ne by lia. by rewrite lookup_insert_eq.
  - by rewrite lookup_insert_eq.
Qed.

(** C9 on the sample server. *)
Lemma second_connect_before_store_forks_again_witness :
  truthy (config_child_pid (config linux)) = false
  /\ k_fork_side (kernel linux) = Parent
  /\ (2 <= k_nproc (kernel linux))%nat
  /\ count is_fork (history (run [OnConnect; OnConnect] linux).2) = 1%nat
  /\ count is_fork (history (racing_connects linux).2) = 2%nat.
Proof.
  assert (H1 : truthy (config_child_pid (config linux)) = false)
    by reflexivity.
  assert (H2 : k_fork_side (kernel linux) = Parent) by reflexivity.
  assert (H3 : (2 <= k_nproc (kernel linux))%nat) by (simpl; lia).
  destruct (second_connect_before_store_forks_again linux H1 H2 H3)
    as (_ & _ & Hone & _ & Htwo & _).
  repeat split; assumption.
Defined.

(** C9, the claim as worded, fails: on the sample server, two first
    connects of which the second makes its test before the first has
    stored the pid call [pty.fork] twice: children 4242 and 4243 on the
    descriptors 5 and 6, two pump tasks, and [app.config] pointing at the
    second. *)
Lemma two_connects_at_once_spawn_two_children :
  let r := racing_connects linux in
  r.1 = [Raise TypeError; Raise TypeError]
  /\ count is_fork (history r.2) = 2%nat
  /\ tasks r.2 = [TaskRunning; TaskRunning]
  /\ pty_child <$> k_ptys (kernel r.2) !! 5 = Some 4242
  /\ pty_child <$> k_ptys (kernel r.2) !! 6 = Some 4243
  /\ config_fd (config r.2) = Some 6
  /\ config_child_pid (config r.2) = Some 4243.
Proof. vm_compute. repeat split; reflexivity. Qed.

(** * More properties of the session core *)

#[global] Instance same_output_preorder : PreOrder same_output.
Proof.
  split.
  - by intros p.
  - intros p1 p2 p3 [] []. split; congruence.
Qed.

#[global] Instance same_window_preorder : PreOrder same_window.
Proof.
  split.
  - by intros p.
  - intros p1 p2 p3. unfold same_window. congruence.
Qed.

(** ** [set_winsize] *)

Lemma struct_pack_H_spec (row col xpix ypix : PyVal) :
  struct_pack_H [row; col; xpix; ypix] =
  if is_H row && is_H col && is_H xpix && is_H ypix then
    Ok (Z_to_little_endian 2 8 (H_value row)
        ++ Z_to_little_endian 2 8 (H_value col)
        ++ Z_to_little_endian 2 8 (H_value xpix)
        ++ Z_to_little_endian 2 8 (H_value ypix))
  else Raise StructError.
Proof.
  cbn [struct_pack_H]. rewrite !pack_H_spec.
  destruct (is_H row); [|done]. destruct (is_H col); [|done].
  destruct (is_H xpix); [|done]. destruct (is_H ypix); [|done].
  cbn [andb]. by rewrite app_nil_r.
Qed.

Lemma unpack_winsize_packed (row col xpix ypix : PyVal) :
  is_H row = true -> is_H col = true ->
  is_H xpix = true -> is_H ypix = true ->
  unpack_winsize (Z_to_little_endian 2 8 (H_value row)
                  ++ Z_to_little_endian 2 8 (H_value col)
                  ++ Z_to_little_endian 2 8 (H_value xpix)
                  ++ Z_to_little_endian 2 8 (H_value ypix))
  = Some (mkWinsize (H_value row) (H_value col)
                    (H_value xpix) (H_value ypix)).
Proof.
  intros Hr Hc Hx Hy. rewrite !H_bytes. cbn [app unpack_winsize].
  by rewrite !H_roundtrip by by apply is_H_range.
Qed.

#[local] Opaque struct_pack_H.

Lemma set_winsize_result (fd : Z) (row col xpix ypix : PyVal) (w : World) :
  set_winsize fd row col xpix ypix w =
  let w1 := called (Log DEBUG "setting window size with termios") w in
  match struct_pack_H [row; col; xpix; ypix] with
  | Ok winsize =>
      let w2 := called (Ioctl fd TIOCSWINSZ winsize) w1 in
      match k_ptys (kernel w) !! fd with
      | None => (Raise (OSError EBADF), w2)
      | Some p =>
          match unpack_winsize winsize with
          | Some ws =>
              (Ok tt, set_kernel (set_ptys <[fd := with_winsize ws p]>) w2)
          | None => (Raise (OSError EINVAL), w2)
          end
      end
  | Raise e => (Raise e, w1)
  | Hang => (Hang, w1)
  | Running => (Running, w1)
  end.
Proof.
  unfold set_winsize. py_unfold. simpl.
  destruct (struct_pack_H [row; col; xpix; ypix]) as [ws| | |]; try done.
  simpl. destruct (k_ptys (kernel w) !! fd) as [p|]; [|done].
  by destruct (unpack_winsize ws).
Qed.

#[local] Transparent struct_pack_H.

(** X1: [set_winsize(fd, row, col, xpix, ypix)].  With four values that
    are integers in [0, 65535] and [fd] open on a pty, it returns normally
    and the pty's window is then exactly (row, col, xpix, ypix), the other
    descriptors being untouched: what [struct.pack] writes the kernel
    reads back.  With a value that is not such an integer it raises
    [struct.error] before any [ioctl]; on a descriptor that is not open
    the [ioctl] fails with EBADF. *)
Theorem set_winsize_sets_exactly (fd : Z) (row col xpix ypix : PyVal)
    (w : World) :
  let r := set_winsize fd row col xpix ypix w in
  let packable := is_H row && is_H col && is_H xpix && is_H ypix in
  (packable = true ->
     forall p, k_ptys (kernel w) !! fd = Some p ->
       r.1 = Ok tt
       /\ k_ptys (kernel r.2)
          = <[fd := with_winsize (mkWinsize (H_value row) (H_value col)
                                   (H_value xpix) (H_value ypix)) p]>
              (k_ptys (kernel w)))
  /\ (packable = true -> k_ptys (kernel w) !! fd = None ->
      r.1 = Raise (OSError EBADF) /\ kernel r.2 = kernel w)
  /\ (packable = false ->
      r = (Raise StructError,
           called (Log DEBUG "setting window size with termios") w)).
Proof.
  intros r packable. unfold r, packable.
  rewrite set_winsize_result, struct_pack_H_spec.
  split; [|split].
  - intros Hp p Hfd. rewrite Hp.
    apply andb_prop in Hp as [[[Hr Hc]%andb_prop Hx]%andb_prop Hy].
    cbv beta iota zeta. rewrite Hfd, unpack_winsize_packed by done. done.
  - intros Hp Hfd. rewrite Hp. cbv beta iota zeta. by rewrite Hfd.
  - by intros ->.
Qed.

(** ** The window over a run *)

Lemma attached_frame (P : Call -> Prop) (Q : Pty -> Pty -> Prop)
    (w w' : World) (fd : Z) (p : Pty) :
  attached w fd p -> frame P Q w w' ->
  exists p', attached w' fd p' /\ Q p p'.
Proof.
  intros [Hfd Hne Hpid Hp] H.
  pose proof (frame_ptys _ _ _ _ H fd) as Hq. rewrite Hp in Hq.
  inversion Hq as [? p' HQ |]; subst.
  exists p'. split; [|done].
  split; rewrite ?(frame_config _ _ _ _ H); done.
Qed.

Lemma running_is_attached (w : World) (fd : Z) (p : Pty) :
  running w fd p -> attached w fd p.
Proof. intros []. by split. Qed.

Lemma step_window (e : Event) (w : World) (fd : Z) (p : Pty) :
  attached w fd p ->
  exists p', attached (step e w).2 fd p'
             /\ pty_winsize p' = resized (pty_winsize p) e.
Proof.
  intros Hatt.
  assert (Hframe : frame (fun _ => True) same_window w (step e w).2 ->
    resized (pty_winsize p) e = pty_winsize p ->
    exists p', attached (step e w).2 fd p'
               /\ pty_winsize p' = resized (pty_winsize p) e).
  { intros H ->. exact (attached_frame _ same_window _ _ _ _ Hatt H). }
  destruct e as [|data|data|i|fd' data|fd']; simpl.
  - apply Hframe; [|done]. simpl.
    rewrite connect_started by apply (attached_started _ _ _ Hatt).
    by apply (frame_called _ same_window).
  - apply Hframe; [|done]. by apply (pty_input_frame _ same_window data).
  - clear Hframe. destruct Hatt as [Hfd Hne Hpid Hp].
    unfold requested_size.
    destruct (data !! "rows"%string) as [rows|] eqn:Hrows.
    2:{ rewrite resize_noop by auto. by exists p. }
    destruct (data !! "cols"%string) as [cols|] eqn:Hcols.
    2:{ rewrite resize_noop by auto. by exists p. }
    rewrite (resize_attached data w fd rows cols Hfd Hne Hrows Hcols).
    destruct (is_H rows && is_H cols) eqn:HH.
    + apply andb_prop in HH as [Hr Hc].
      destruct (winsize_pack_unpack rows cols Hr Hc) as (ws & -> & E).
      simpl. rewrite Hp, E. simpl.
      exists (with_winsize (mkWinsize (H_value rows) (H_value cols) 0 0) p).
      split; [|reflexivity].
      split; try done. simpl. by rewrite lookup_insert_eq.
    + rewrite (winsize_pack_fails rows cols HH). simpl. by exists p.
  - apply Hframe; [|done]. by apply (pump_frame _ same_window i).
  - apply Hframe; [|done]. by apply (child_writes_frame _ same_window).
  - apply Hframe; [|done]. by apply (child_exits_frame _ same_window).
Qed.

(** X2: the window is that of the last resize that went through.  On an
    attached descriptor, after any sequence of events (inputs, pump
    iterations, connects, output or exit of the child, resizes), the pty's
    window is the one asked for by the last [resize] whose payload had both
    keys with values in [0, 65535], with zero pixel sizes, and the window
    it had at the start if there was none: nothing but such a resize ever
    changes it, and a rejected resize leaves it as it was. *)
Theorem window_is_last_resize (es : list Event) (w : World) (fd : Z)
    (p : Pty) :
  attached w fd p ->
  exists p', attached (run es w).2 fd p'
             /\ pty_winsize p' = last_size es (pty_winsize p).
Proof.
  revert w p. induction es as [|e es IH]; intros w p Hatt.
  - by exists p.
  - rewrite run_cons. simpl.
    destruct (step_window e w fd p Hatt) as (p1 & Hatt1 & E1).
    destruct (IH _ p1 Hatt1) as (p2 & Hatt2 & E2).
    exists p2. split; [done|]. by rewrite E2, E1.
Qed.

(** X2 on the sample server: after the first connect the window is
    50 x 50; a resize to 40 x 120, a rejected resize to -1 x 3 and the exit
    of the child leave it at 40 x 120. *)
Lemma window_is_last_resize_witness :
  let w := (run [OnConnect] linux).2 in
  let p := mkPty 4242 true [] [] (mkWinsize 50 50 0 0) in
  let es := [OnResize (size_of (PyInt 40) (PyInt 120)); Pump 0;
             OnResize (size_of (PyInt (-1)) (PyInt 3)); ChildExits 5] in
  attached w 5 p
  /\ last_size es (pty_winsize p) = mkWinsize 40 120 0 0
  /\ exists p', attached (run es w).2 5 p'
                /\ pty_winsize p' = last_size es (pty_winsize p).
Proof.
  intros w p es.
  assert (H : attached w 5 p).
  { split; [reflexivity | lia | reflexivity | reflexivity]. }
  split; [exact H|]. split; [reflexivity|].
  exact (window_is_last_resize es w 5 p H).
Defined.

(** ** The child's output, from the pty to the reads *)

Lemma read_from_app (fd : Z) (h1 h2 : list Call) :
  read_from fd (h1 ++ h2) = read_from fd h1 ++ read_from fd h2.
Proof. unfold read_from. by rewrite omap_app, concat_app. Qed.

Lemma read_from_handler_calls (fd : Z) (calls : list Call) :
  Forall (fun c => handler_call c = true) calls -> read_from fd calls = [].
Proof.
  induction 1 as [|c calls Hc _ IH]; [done|].
  destruct c; try done; exact IH.
Qed.

Lemma running_frame_output (P : Call -> Prop) (w w' : World) (fd : Z)
    (p : Pty) :
  running w fd p -> frame P same_output w w' ->
  exists p', running w' fd p' /\ pty_stdout p' = pty_stdout p.
Proof.
  intros Hrun H.
  destruct (attached_frame _ _ _ _ _ _ (running_is_attached _ _ _ Hrun) H)
    as (p' & [Hfd Hne Hpid Hp] & [Hout Hopen]).
  exists p'. split; [|done]. split; try done.
  rewrite Hopen. apply (running_alive _ _ _ Hrun).
Qed.

Lemma pump_running (i : nat) (w : World) (fd : Z) (p : Pty) :
  running w fd p ->
  pump i w =
  match tasks w !! i with
  | Some TaskRunning =>
      let w2 := called (Select [fd] 0 (if readable p then [fd] else []))
                  (called (Sleep (PyFloat 1 100)) w) in
      match pty_stdout p with
      | [] => (Ok tt, w2)
      | out =>
          let n := read_size (kernel w) max_read_bytes in
          let b := take n out in
          (Ok tt,
           called (Emit "pty-output" (output_of b) "/pty")
             (set_kernel (set_ptys <[fd := with_stdout (drop n out) p]>)
                (called (Read fd max_read_bytes (Ok b)) w2)))
      end
  | _ => (Ok tt, w)
  end.
Proof.
  intros [Hfd Hne _ Hp Halive]. unfold pump.
  destruct (tasks w !! i) as [[|e]|]; try done.
  rewrite (pump_body_attached w fd Hfd Hne). simpl. rewrite Hp.
  unfold readable. rewrite Halive.
  by destruct (pty_stdout p).
Qed.

Lemma step_output (e : Event) (w : World) (fd : Z) (p : Pty) :
  running w fd p -> is_child_exit e = false ->
  exists p' calls,
    running (step e w).2 fd p'
    /\ history (step e w).2 = history w ++ calls
    /\ read_from fd calls ++ pty_stdout p' = pty_stdout p ++ arrives fd e w.
Proof.
  intros Hrun Hexit.
  assert (Hframe :
    frame (fun c => handler_call c = true) same_output w (step e w).2 ->
    arrives fd e w = [] ->
    exists p' calls,
      running (step e w).2 fd p'
      /\ history (step e w).2 = history w ++ calls
      /\ read_from fd calls ++ pty_stdout p' = pty_stdout p ++ arrives fd e w).
  { intros H ->.
    destruct (running_frame_output _ _ _ _ _ Hrun H) as (p' & Hrun' & Hout).
    destruct (frame_history _ _ _ _ H) as (calls & Hh & Hcalls).
    exists p', calls. split; [done|]. split; [done|].
    by rewrite read_from_handler_calls, Hout, app_nil_r. }
  assert (Harr : forall e', match e' with
                            | OnPtyInput _ | ChildWrites _ _ => False
                            | _ => True
                            end -> arrives fd e' w = []).
  { intros e' He'. unfold arrives.
    destruct (k_ptys (kernel w) !! fd); [|done]. by destruct e'. }
  destruct e as [|data|data|i|fd' data|fd']; try done.
  - apply Hframe; [|by apply Harr]. simpl.
    rewrite connect_started by apply (running_started _ _ _ Hrun).
    simpl. by apply (frame_called _ same_output).
  - clear Hframe Harr. simpl. rewrite (pty_input_running data w fd p Hrun).
    destruct Hrun as [Hfd Hne Hpid Hp Halive].
    unfold arrives. rewrite Hp, Hfd.
    destruct (data !! "input"%string) as [v|]; simpl.
    2:{ exists p, []. rewrite !app_nil_r. by split. }
    assert (Hlog : exists p' calls, running
        (called (Log DEBUG "received input from browser: %s") w) fd p'
        /\ history w ++ [Log DEBUG "received input from browser: %s"]
           = history w ++ calls
        /\ read_from fd calls ++ pty_stdout p' = pty_stdout p ++ []).
    { exists p. eexists. split; [by split|]. split; [done|].
      by rewrite app_nil_r. }
    destruct v as [| | | |s]; try exact Hlog.
    destruct (str_encode s) as [b| | |]; try exact Hlog. simpl.
    rewrite bool_decide_true by done.
    exists (received (k_tty (kernel w)) (accepted (k_tty (kernel w)) p b) p).
    eexists. split; [|split].
    + split; try done. simpl. by rewrite lookup_insert_eq.
    + simpl. by rewrite <- app_assoc.
    + done.
  - apply Hframe; [|by apply Harr].
    by apply (resize_frame _ same_output data).
  - clear Hframe. simpl. rewrite (pump_running i w fd p Hrun).
    rewrite Harr by done.
    destruct Hrun as [Hfd Hne Hpid Hp Halive].
    destruct (tasks w !! i) as [[|e]|];
      try (exists p, []; rewrite !app_nil_r; by split).
    destruct (pty_stdout p) as [|b0 out] eqn:Hout; simpl.
    + exists p. eexists. split; [by split|].
      split; [simpl; by rewrite <- app_assoc|]. by rewrite Hout.
    + exists (with_stdout
                (drop (read_size (kernel w) max_read_bytes) (b0 :: out)) p).
      eexists. split; [|split].
      * split; try done. simpl. by rewrite lookup_insert_eq.
      * simpl. by rewrite <- !app_assoc.
      * unfold read_from. simpl. rewrite bool_decide_true by done.
        simpl. by rewrite !app_nil_r, take_drop.
  - clear Hframe Harr. simpl. unfold child_writes, arrives.
    destruct Hrun as [Hfd Hne Hpid Hp Halive].
    rewrite Hp, Halive, andb_true_r.
    destruct (decide (fd' = fd)) as [->|Hfd'].
    + rewrite Hp, Halive, bool_decide_true by done.
      exists (with_stdout
                (pty_stdout p ++ tty_opost (k_tty (kernel w)) p data) p), [].
      split; [|split].
      * split; try done. simpl. by rewrite lookup_insert_eq.
      * by rewrite app_nil_r.
      * done.
    + rewrite bool_decide_false by done.
      exists p, []. rewrite !app_nil_r.
      destruct (k_ptys (kernel w) !! fd') as [p0|]; [|by split].
      destruct (pty_slave_open p0); [|by split].
      split; [|done].
      split; try done. simpl. by rewrite lookup_insert_ne.
Qed.

(** X3: no byte is lost, repeated or reordered between the terminal and
    the reads.  On a running session, over any sequence of events during
    which the child does not exit, the bytes the reads on the descriptor
    returned, followed by the bytes still waiting at the master, are
    exactly the bytes that were waiting at the start followed by the
    bytes the terminal has put there since, in order: what it made of
    each of the child's writes, and what it echoed of each input it
    took.  No handler and no pump iteration takes a byte away or adds
    one. *)
Theorem output_bytes_are_conserved (es : list Event) (w : World) (fd : Z)
    (p : Pty) :
  running w fd p ->
  forallb (fun e => negb (is_child_exit e)) es = true ->
  exists p' calls,
    running (run es w).2 fd p'
    /\ history (run es w).2 = history w ++ calls
    /\ read_from fd calls ++ pty_stdout p'
       = pty_stdout p ++ delivered fd es w.
Proof.
  revert w p. induction es as [|e es IH]; intros w p Hrun Hes.
  - exists p, []. rewrite !app_nil_r. by split.
  - simpl in Hes. apply andb_prop in Hes as [He Hes].
    apply negb_true_iff in He.
    destruct (step_output e w fd p Hrun He) as (p1 & c1 & Hrun1 & Hh1 & E1).
    destruct (IH _ p1 Hrun1 Hes) as (p2 & c2 & Hrun2 & Hh2 & E2).
    exists p2, (c1 ++ c2). rewrite run_cons. cbn [fst snd delivered].
    split; [done|]. split; [by rewrite Hh2, Hh1, app_assoc|].
    rewrite read_from_app, <- app_assoc, E2, app_assoc, E1.
    by rewrite <- app_assoc.
Qed.

(** X3 on the sample server: the child writes [hi], the pump runs, the
    client sends [ls], the child writes a line feed and a dollar sign, and
    the pump runs again.  The first read returns [hi]; the second returns
    the echo of [ls], the carriage return and line feed that the terminal
    makes of the line feed, and the dollar sign. *)
Lemma output_bytes_are_conserved_witness :
  let w := (run [OnConnect] linux).2 in
  let p := mkPty 4242 true [] [] (mkWinsize 50 50 0 0) in
  let es := [ChildWrites 5 [104; 105]; Pump 0; OnPtyInput (input_of "ls");
             ChildWrites 5 [10]; ChildWrites 5 [36]; Pump 0] in
  running w 5 p
  /\ delivered 5 es w = [104; 105; 108; 115; 13; 10; 36]
  /\ reads (drop (length (history w)) (history (run es w).2))
     = [[104; 105]; [108; 115; 13; 10; 36]]
  /\ exists p' calls,
       running (run es w).2 5 p'
       /\ history (run es w).2 = history w ++ calls
       /\ read_from 5 calls ++ pty_stdout p'
          = pty_stdout p ++ delivered 5 es w.
Proof.
  intros w p es.
  assert (H : running w 5 p).
  { split; [reflexivity | lia | reflexivity | reflexivity | reflexivity]. }
  split; [exact H|].
  split; [vm_compute; reflexivity|].
  split; [vm_compute; reflexivity|].
  apply (output_bytes_are_conserved es w 5 p H). reflexivity.
Defined.

(** ** Output larger than one read *)

Lemma chunks_nil (fuel n : nat) : chunks fuel n [] = [].
Proof. by destruct fuel. Qed.

Lemma outputs_app (h1 h2 : list Call) :
  outputs (h1 ++ h2) = outputs h1 ++ outputs h2.
Proof. unfold outputs. by rewrite omap_app. Qed.

Lemma reads_app (h1 h2 : list Call) :
  reads (h1 ++ h2) = reads h1 ++ reads h2.
Proof. unfold reads. by rewrite omap_app. Qed.

(** X4: output is forwarded in pieces of one read.  A read of the pump
    returns at most [n] bytes, the smaller of [1024 * 20] and of what the
    terminal hands out in one read (4095 on Linux).  On a running session
    with the pump alive, [k] iterations of the pump with nothing else
    happening all return normally and leave the pump alive; they read,
    and send as one [pty-output] event each, the successive pieces of [n]
    bytes of what was waiting (the last one may be shorter), at most [k]
    of them, and leave waiting what comes after the first [k * n]
    bytes. *)
Theorem pump_forwards_in_chunks (k i : nat) (w : World) (fd : Z) (p : Pty) :
  running w fd p ->
  tasks w !! i = Some TaskRunning ->
  let n := read_size (kernel w) max_read_bytes in
  let r := run (replicate k (Pump i)) w in
  Z.of_nat n <= 20480
  /\ (n <= Pos.to_nat (tty_read_max (k_tty (kernel w))))%nat
  /\ exists p' calls,
       running r.2 fd p'
       /\ tasks r.2 !! i = Some TaskRunning
       /\ r.1 = replicate k (Ok tt)
       /\ history r.2 = history w ++ calls
       /\ reads calls = chunks k n (pty_stdout p)
       /\ outputs calls = output_of <$> chunks k n (pty_stdout p)
       /\ pty_stdout p' = drop (k * n) (pty_stdout p).
Proof.
  intros Hrun Htask n r.
  split.
  { pose proof (read_size_le (kernel w) max_read_bytes) as [H _].
    fold n in H. rewrite max_read_bytes_value in H. lia. }
  split; [apply read_size_le|].
  unfold r. clear r.
  assert (Hn : read_size (kernel w) max_read_bytes = n) by done.
  clearbody n. revert w p Hrun Htask Hn.
  induction k as [|k IH]; intros w p Hrun Htask Hn.
  { exists p, []. rewrite app_nil_r. do 2 (split; [done|]).
    by repeat split. }
  cbn [replicate]. rewrite run_cons. cbn [fst snd step].
  rewrite (pump_running i w fd p Hrun), Htask.
  destruct Hrun as [Hfd Hne Hpid Hp Halive].
  destruct (pty_stdout p) as [|b0 out] eqn:Hout.
  - match goal with |- context [run _ ?w'] => set (w1 := w') end.
    assert (Hrun1 : running w1 fd p) by by split.
    destruct (IH w1 p Hrun1 Htask Hn)
      as (p' & calls & H1 & H2 & H3 & H4 & H5 & H6 & H7).
    exists p'. eexists. cbn [fst snd].
    split; [exact H1|]. split; [exact H2|]. split; [by rewrite H3|].
    split; [rewrite H4; unfold w1; simpl; rewrite <- !app_assoc; reflexivity|].
    rewrite Hout, chunks_nil, drop_nil in *.
    rewrite !reads_app, !outputs_app, H5, H6. by repeat split.
  - cbv zeta. rewrite Hn.
    match goal with |- context [run _ ?w'] => set (w1 := w') end.
    set (p1 := with_stdout (drop n (b0 :: out)) p).
    assert (Hrun1 : running w1 fd p1).
    { split; try done. unfold w1. simpl. by rewrite lookup_insert_eq. }
    assert (Hn1 : read_size (kernel w1) max_read_bytes = n).
    { rewrite <- Hn. by apply read_size_tty. }
    destruct (IH w1 p1 Hrun1 Htask Hn1)
      as (p' & calls & H1 & H2 & H3 & H4 & H5 & H6 & H7).
    exists p'. eexists. cbn [fst snd].
    split; [exact H1|]. split; [exact H2|]. split; [by rewrite H3|].
    split; [rewrite H4; unfold w1; simpl; rewrite <- !app_assoc; reflexivity|].
    rewrite !reads_app, !outputs_app, H5, H6, H7.
    cbn [chunks]. unfold p1. simpl. rewrite drop_drop.
    repeat split; f_equal; lia.
Qed.

(** X4 on the sample server: 5000 bytes waiting come in two reads, of
    4095 and of 905 bytes. *)
Lemma pump_forwards_in_chunks_witness :
  let x := replicate (Z.to_nat 5000) 120 in
  let w := (run [OnConnect; ChildWrites 5 x] linux).2 in
  let p := mkPty 4242 true [] x (mkWinsize 50 50 0 0) in
  let n := read_size (kernel w) max_read_bytes in
  let r := run (replicate 2 (Pump 0)) w in
  running w 5 p
  /\ tasks w !! 0%nat = Some TaskRunning
  /\ Z.of_nat n = 4095
  /\ Z.of_nat <$> (length <$> chunks 2 n (pty_stdout p)) = [4095; 905]
  /\ exists p' calls,
       running r.2 5 p'
       /\ tasks r.2 !! 0%nat = Some TaskRunning
       /\ r.1 = replicate 2 (Ok tt)
       /\ history r.2 = history w ++ calls
       /\ reads calls = chunks 2 n (pty_stdout p)
       /\ outputs calls = output_of <$> chunks 2 n (pty_stdout p)
       /\ pty_stdout p' = drop (2 * n) (pty_stdout p).
Proof.
  intros x w p n r.
  assert (H1 : running w 5 p).
  { split; [reflexivity | lia | reflexivity | vm_compute; reflexivity
           | reflexivity]. }
  assert (H2 : tasks w !! 0%nat = Some TaskRunning) by reflexivity.
  split; [exact H1|]. split; [exact H2|].
  split; [vm_compute; reflexivity|].
  split; [vm_compute; reflexivity|].
  destruct (pump_forwards_in_chunks 2 0 w 5 p H1 H2) as (_ & _ & H).
  exact H.
Defined.

(** ** Input errors *)

Lemma utf8_encode_char_ok (ch : Z) :
  (exists bs, utf8_encode_char ch = Ok bs /\ bs <> [] /\ ~ surrogate ch)
  \/ (utf8_encode_char ch = Raise UnicodeEncodeError /\ surrogate ch).
Proof.
  unfold utf8_encode_char, surrogate.
  destruct (Z.ltb_spec ch 0x80).
  { left. eexists. repeat split; [done|lia]. }
  destruct (Z.ltb_spec ch 0x800).
  { left. eexists. repeat split; [done|lia]. }
  destruct (Z.leb_spec 0xD800 ch) as [Hlo|Hlo];
    destruct (Z.leb_spec ch 0xDFFF) as [Hhi|Hhi]; simpl;
    try (right; split; [done|lia]);
    (destruct (ch <? 0x10000); left; eexists; repeat split; first [done|lia]).
Qed.

(** [str.encode()] fails exactly on the texts that hold a surrogate, and
    encodes a text that is not empty to bytes that are not. *)
Lemma str_encode_cases (s : list Z) :
  match str_encode s with
  | Ok b => Forall (fun ch => ~ surrogate ch) s /\ (s <> [] -> b <> [])
  | Raise e => e = UnicodeEncodeError /\ Exists surrogate s
  | _ => False
  end.
Proof.
  induction s as [|ch s IH]; simpl; [by split|].
  destruct (utf8_encode_char_ok ch) as [(bs & -> & Hbs & Hns) | [-> Hsur]].
  - destruct (str_encode s) as [r|e| |]; try done.
    + destruct IH as [IH _]. split; [by constructor|].
      intros _. by destruct bs.
    + destruct IH as [-> IH]. split; [done|]. by constructor.
  - split; [done|]. by constructor.
Qed.


(** X5: what [pty_input] does with a bad payload.  With a descriptor
    attached, a payload without an [input] key raises [KeyError] and
    changes nothing; an [input] that is not a string (a number, a bool,
    null) raises [AttributeError] and an [input] holding a surrogate code
    point raises [UnicodeEncodeError], both after the debug line is logged.
    In none of these cases is anything written to the pty: the kernel is as
    it was. *)
Theorem pty_input_rejects_bad_payload (data : gmap string PyVal)
    (w : World) (fd : Z) :
  config_fd (config w) = Some fd -> fd <> 0 ->
  let logged := called (Log DEBUG "received input from browser: %s") w in
  (data !! "input"%string = None ->
   pty_input data w = (Raise (KeyError "input"), w))
  /\ (forall v, data !! "input"%string = Some v ->
       (forall s, v <> PyStr s) ->
       pty_input data w = (Raise AttributeError, logged))
  /\ (forall s, data !! "input"%string = Some (PyStr s) ->
       Exists surrogate s ->
       pty_input data w = (Raise UnicodeEncodeError, logged)).
Proof.
  intros Hfd Hne logged. pose proof (truthy_fd fd Hne) as Htruthy.
  unfold pty_input. py_unfold. split; [|split].
  - intros Hdata.
    by repeat (progress (simpl; rewrite ?Hfd, ?Htruthy, ?Hdata)).
  - intros v Hdata Hv.
    destruct v as [|b|n|num den|s];
      try by repeat (progress (simpl; rewrite ?Hfd, ?Htruthy, ?Hdata)).
    by destruct (Hv s).
  - intros s Hdata Hsur. pose proof (str_encode_cases s) as Hs.
    destruct (str_encode s) as [b|e| |] eqn:Es; try done.
    + destruct Hs as [Hs _]. exfalso.
      apply Exists_exists in Hsur as (ch & Hin & Hch).
      by apply (proj1 (Forall_forall _ _) Hs ch Hin).
    + destruct Hs as [-> _].
      by repeat (progress (simpl; rewrite ?Hfd, ?Htruthy, ?Hdata, ?Es)).
Qed.

(** X5 on the sample server: an input holding the lone surrogate U+D800. *)
Lemma pty_input_rejects_bad_payload_witness :
  let w := (run [OnConnect] linux).2 in
  let data : gmap string PyVal := {[ "input"%string := PyStr [0xD800] ]} in
  config_fd (config w) = Some 5
  /\ 5 <> 0
  /\ pty_input data w
     = (Raise UnicodeEncodeError,
        called (Log DEBUG "received input from browser: %s") w).
Proof.
  intros w data.
  assert (H1 : config_fd (config w) = Some 5) by reflexivity.
  assert (H2 : 5 <> 0) by lia.
  split; [exact H1|]. split; [exact H2|].
  destruct (pty_input_rejects_bad_payload data w 5 H1 H2) as (_ & _ & H3).
  apply (H3 [0xD800]); [reflexivity|].
  apply Exists_cons_hd. unfold surrogate. lia.
Defined.

(** ** What is typed and echoed comes back *)

Lemma decode_ignore_str_encode (s b : list Z) :
  Forall code_point s -> str_encode s = Ok b -> decode_ignore b = s.
Proof.
  intros Hs Hb. pose proof (bytes_decode_str_encode s b Hs Hb) as H.
  unfold decode_ignore, bytes_decode in *.
  by rewrite (utf8_decode_strict_ignore _ _ _ H).
Qed.

Lemma run_step (e : Event) (es : list Event) (w w' : World)
    (r : Outcome unit) :
  step e w = (r, w') ->
  run (e :: es) w = (r :: (run es w').1, (run es w').2).
Proof. intros H. rewrite run_cons. by rewrite H. Qed.

(** X6: what is typed comes back as it was typed.  On a running session
    with nothing waiting and the pump alive, take an [input] text [s], not
    empty, with UTF-8 encoding [b], where the terminal takes the write of
    [b], echoes [b] as it is (as it does for printable text while ECHO is
    set) and hands it out in one read.  If the client sends [s] and the
    pump runs once, both return normally, [b] has been written to the
    master, and exactly one [pty-output] event is sent, whose text is [s]
    again: encoding, echo, read and decoding give the text back. *)
Theorem typed_text_is_echoed_back (data : gmap string PyVal) (w : World)
    (fd : Z) (p : Pty) (i : nat) (s b : list Z) :
  running w fd p ->
  pty_stdout p = [] ->
  tasks w !! i = Some TaskRunning ->
  data !! "input"%string = Some (PyStr s) ->
  Forall code_point s -> s <> [] ->
  str_encode s = Ok b ->
  tty_input_queue (k_tty (kernel w)) p b = AcceptsAll ->
  tty_echo (k_tty (kernel w)) p b = b ->
  (length b <= read_size (kernel w) max_read_bytes)%nat ->
  let r := run [OnPtyInput data; Pump i] w in
  r.1 = [Ok tt; Ok tt]
  /\ exists p' calls,
       k_ptys (kernel r.2) !! fd = Some p'
       /\ pty_stdin p' = pty_stdin p ++ b
       /\ pty_stdout p' = []
       /\ history r.2 = history w ++ calls
       /\ reads calls = [b]
       /\ outputs calls = [{[ "output"%string := PyStr s ]}].
Proof.
  intros Hrun Hout Htask Hdata Hcp Hne Hb Hall Hecho Hlen r. unfold r. clear r.
  assert (Hbne : b <> []).
  { pose proof (str_encode_cases s) as H. rewrite Hb in H. by apply H. }
  set (tty := k_tty (kernel w)) in *.
  set (p1 := received tty b p).
  set (w1 := set_kernel (set_ptys <[fd := p1]>)
               (called (Write fd b)
                  (called (Log DEBUG "received input from browser: %s") w))).
  assert (E1 : step (OnPtyInput data) w = (Ok tt, w1)).
  { simpl. rewrite (pty_input_running data w fd p Hrun), Hdata, Hb.
    cbv zeta. fold tty. unfold write_ends, accepted. by rewrite Hall. }
  destruct Hrun as [Hfd Hnz Hpid Hp Halive].
  assert (Hrun1 : running w1 fd p1).
  { split; try done. unfold w1. simpl. by rewrite lookup_insert_eq. }
  assert (Hout1 : pty_stdout p1 = b).
  { unfold p1, received. simpl. by rewrite Hout, Hecho. }
  pose proof (pump_running i w1 fd p1 Hrun1) as E2.
  change (tasks w1) with (tasks w) in E2. rewrite Htask in E2.
  rewrite Hout1 in E2.
  assert (Hn : read_size (kernel w1) max_read_bytes
               = read_size (kernel w) max_read_bytes)
    by by apply read_size_tty.
  destruct b as [|b0 b'] eqn:Eb; [done|].
  cbv beta iota zeta in E2. rewrite <- Eb in *. rewrite Hn in E2.
  rewrite take_ge, drop_ge in E2 by lia.
  rewrite (run_step _ _ _ _ _ E1).
  cbn [fst snd]. rewrite (run_step (Pump i) _ _ _ _ E2). cbn [run fst snd].
  split; [done|].
  eexists. eexists. split; [|split; [|split; [|split; [|split]]]].
  - simpl. by rewrite lookup_insert_eq.
  - by rewrite Eb.
  - reflexivity.
  - unfold w1. simpl. rewrite <- !app_assoc. reflexivity.
  - done.
  - simpl. unfold output_of.
    by rewrite (decode_ignore_str_encode s b Hcp Hb).
Qed.

(** X6 on the sample server: the client types [ls]. *)
Lemma typed_text_is_echoed_back_witness :
  let w := (run [OnConnect] linux).2 in
  let p := mkPty 4242 true [] [] (mkWinsize 50 50 0 0) in
  let r := run [OnPtyInput (input_of "ls"); Pump 0] w in
  running w 5 p
  /\ r.1 = [Ok tt; Ok tt]
  /\ exists p' calls,
       k_ptys (kernel r.2) !! 5 = Some p'
       /\ pty_stdin p' = pty_stdin p ++ [108; 115]
       /\ pty_stdout p' = []
       /\ history r.2 = history w ++ calls
       /\ reads calls = [[108; 115]]
       /\ outputs calls = [{[ "output"%string := PyStr [108; 115] ]}].
Proof.
  intros w p r.
  assert (H : running w 5 p).
  { split; [reflexivity | lia | reflexivity | reflexivity | reflexivity]. }
  split; [exact H|].
  apply (typed_text_is_echoed_back (input_of "ls") w 5 p 0 [108; 115]
           [108; 115] H);
    try reflexivity.
  - repeat constructor; unfold code_point; lia.
  - discriminate.
  - vm_compute. lia.
Defined.

(** ** [connect]: failure and return *)

Lemma connect_fork_fails (fuel : nat) (w : World) :
  truthy (config_child_pid (config w)) = false ->
  k_nproc (kernel w) = O ->
  connect fuel w
  = (Raise (OSError EAGAIN),
     set_kernel fork_failed
       (called Fork (called (Log INFO "new client connected") w))).
Proof.
  intros Hidle Hn.
  unfold connect, logging_info, app_config, pty_fork.
  unfold call, update, lift, raise, get_world, mbind, mret, Py_bind, Py_ret.
  unfold called at 1 2 3 4.
  by repeat (progress (simpl; rewrite ?Hidle, ?Hn)).
Qed.

Lemma connect_idle_forks (fuel : nat) (w : World) :
  truthy (config_child_pid (config w)) = false ->
  exists calls,
    history (connect fuel w).2
    = history w ++ Log INFO "new client connected" :: Fork :: calls.
Proof.
  intros Hidle.
  destruct (k_nproc (kernel w)) as [|nproc] eqn:Hn.
  { rewrite connect_fork_fails by done. exists []. simpl.
    by rewrite <- app_assoc. }
  destruct (k_fork_side (kernel w)) eqn:Hside.
  - rewrite connect_idle_parent by (done || by rewrite Hn).
    eexists. simpl. reflexivity.
  - rewrite connect_idle_child by (done || by rewrite Hn).
    pose proof (stable_while (appends (fun _ => True)) fuel
                  connect_child_body (A := unit)) as H.
    destruct (H ltac:(unfold connect_child_body, tempfile_mkdtemp,
                        subprocess_run, app_config; stable_auto;
                      first [by apply call_appends | by apply appends_nothing])
                (called Fork (called (Log INFO "new client connected") w)))
      as (calls & Hh & _).
    exists calls. rewrite Hh. simpl. by rewrite <- !app_assoc.
Qed.

(** X7: [connect] when [pty.fork] fails.  With no child started and no
    process to spare, [connect] raises the [OSError] of the fork to its
    caller after logging; [app.config] and the tasks are as before, so no
    [fd] or [child_pid] is stored and no pump is started.  But the pty
    that [pty.fork] opened on its way is not closed: its master and its
    slave stay open in the server, so the next descriptor is two further.
    The session stays startable and the next [connect] is not skipped but
    calls [pty.fork] again: [n] connects in a row fail alike and leave
    [2 * n] descriptors behind. *)
Theorem connect_fork_failure_leaves_idle (fuel : nat) (w : World) :
  truthy (config_child_pid (config w)) = false ->
  k_nproc (kernel w) = O ->
  let w' := (connect fuel w).2 in
  (connect fuel w).1 = Raise (OSError EAGAIN)
  /\ config w' = config w /\ tasks w' = tasks w
  /\ history w' = history w ++ [Log INFO "new client connected"; Fork]
  /\ k_ptys (kernel w')
     = <[k_next_fd (kernel w) := mkPty 0 true [] [] (mkWinsize 0 0 0 0)]>
         (k_ptys (kernel w))
  /\ k_next_fd (kernel w') = k_next_fd (kernel w) + 2
  /\ k_next_pid (kernel w') = k_next_pid (kernel w)
  /\ (forall fuel2 w2, config w2 = config w' ->
        exists calls,
          history (connect fuel2 w2).2
          = history w2 ++ Log INFO "new client connected" :: Fork :: calls)
  /\ (forall n,
        let r := run (replicate n OnConnect) w in
        r.1 = replicate n (Raise (OSError EAGAIN))
        /\ config r.2 = config w
        /\ count is_fork (history r.2) = (n + count is_fork (history w))%nat
        /\ k_next_fd (kernel r.2) = k_next_fd (kernel w) + 2 * Z.of_nat n).
Proof.
  intros Hidle Hn w'. unfold w'. rewrite connect_fork_fails by done.
  cbn [fst snd].
  split; [done|]. split; [done|]. split; [done|].
  split; [simpl; by rewrite <- app_assoc|].
  split; [done|]. split; [done|]. split; [done|].
  split.
  - intros fuel2 w2 Hc. apply connect_idle_forks. by rewrite Hc.
  - clear w'. intros n. revert w Hidle Hn.
    induction n as [|n IH]; intros w Hidle Hn.
    { simpl. repeat split; lia. }
    cbn [replicate]. rewrite run_cons. cbn [step].
    rewrite connect_fork_fails by done. cbn [fst snd].
    match goal with |- context [run _ ?w1] =>
      destruct (IH w1 Hidle eq_refl) as (H1 & H2 & H3 & H4) end.
    rewrite H1, H2, H3, H4.
    split; [done|]. split; [done|].
    split.
    + simpl. rewrite !count_app. unfold count at 2 3. simpl. lia.
    + simpl. lia.
Qed.

(** X7 on the sample server with its process limit reached: two connects
    fail and the descriptors 5 to 8 are used up. *)
Lemma connect_fork_failure_leaves_idle_witness :
  let w := initial_world PyNone ["bash"%string]
             (mkKernel ∅ 4242%positive 5 0%nat true Parent
                       (fun _ _ => Returned 0) 0 0 cooked) in
  let r := run [OnConnect; OnConnect] w in
  truthy (config_child_pid (config w)) = false
  /\ k_nproc (kernel w) = O
  /\ (connect 0 w).1 = Raise (OSError EAGAIN)
  /\ r.1 = [Raise (OSError EAGAIN); Raise (OSError EAGAIN)]
  /\ config r.2 = config w
  /\ k_next_fd (kernel r.2) = 9.
Proof.
  intros w r.
  assert (H1 : truthy (config_child_pid (config w)) = false) by reflexivity.
  assert (H2 : k_nproc (kernel w) = O) by reflexivity.
  destruct (connect_fork_failure_leaves_idle 0 w H1 H2)
    as (E & _ & _ & _ & _ & _ & _ & _ & Hn).
  destruct (Hn 2%nat) as (Hr & Hc & _ & Hfd).
  repeat split; assumption.
Defined.

(** X8: [connect] returns normally only when a child was already started.
    The first connect of a server never does: it ends in the [OSError] of a
    failed fork, in the [TypeError] of [logging.info("child pid is " +
    child_pid)] on the parent's side (the two log lines after it are never
    reached), or, on the child's side, not at all. *)
Theorem connect_returns_iff_started (fuel : nat) (w : World) :
  (connect fuel w).1 = Ok tt
  <-> truthy (config_child_pid (config w)) = true.
Proof.
  split.
  - intros Hok.
    destruct (truthy (config_child_pid (config w))) eqn:Hidle; [done|].
    exfalso.
    destruct (k_nproc (kernel w)) as [|nproc] eqn:Hn.
    { by rewrite connect_fork_fails in Hok. }
    destruct (k_fork_side (kernel w)) eqn:Hside.
    + by rewrite connect_idle_parent in Hok by (done || by rewrite Hn).
    + rewrite connect_idle_child in Hok by (done || by rewrite Hn).
      by apply while_True_never_returns in Hok.
  - intros H. by rewrite connect_started.
Qed.

(** ** Before the first connect *)

Lemma step_frame_not_connect (e : Event) (w : World) :
  is_connect e = false -> frame no_spawn any_pty w (step e w).2.
Proof.
  intros He. destruct e as [|data|data|i|fd data|fd]; try done; simpl.
  - by apply (pty_input_frame no_spawn any_pty data handler_call_no_spawn).
  - by apply (resize_frame no_spawn any_pty data handler_call_no_spawn).
  - by apply (pump_frame no_spawn any_pty i pump_call_no_spawn).
  - by apply child_writes_frame.
  - by apply child_exits_frame.
Qed.

Lemma run_frame_not_connect (es : list Event) (w : World) :
  forallb (fun e => negb (is_connect e)) es = true ->
  frame no_spawn any_pty w (run es w).2.
Proof.
  revert w. induction es as [|e es IH]; intros w Hes; [reflexivity|].
  simpl in Hes. apply andb_prop in Hes as [He Hes].
  apply negb_true_iff in He.
  rewrite run_cons. simpl.
  etransitivity; [by apply step_frame_not_connect | by apply IH].
Qed.

Lemma run_client_io_detached (es : list Event) (w : World) :
  truthy (config_fd (config w)) = false ->
  forallb is_client_io es = true ->
  run es w = (replicate (length es) (Ok tt), w).
Proof.
  intros Hfd. induction es as [|e es IH]; intros Hes; [done|].
  simpl in Hes. apply andb_prop in Hes as [He Hes].
  destruct e as [|data|data|i|fd data|fd]; try done; simpl.
  - rewrite pty_input_detached by done. by rewrite IH.
  - rewrite resize_noop by auto. by rewrite IH.
Qed.

(** X9: only [connect] starts anything.  Over any sequence of events
    without a connect (inputs, resizes, pump iterations, output and exit of
    the child), in any world, [app.config] is unchanged, no descriptor is
    opened or closed, no fork is made and no task is started.  And as long
    as no descriptor is attached, as at start-up, inputs and resizes all
    return normally and change nothing at all, whatever their payloads. *)
Theorem nothing_starts_without_connect (es : list Event) (w : World) :
  forallb (fun e => negb (is_connect e)) es = true ->
  let w' := (run es w).2 in
  config w' = config w
  /\ length (tasks w') = length (tasks w)
  /\ (forall fd, is_Some (k_ptys (kernel w) !! fd)
                 <-> is_Some (k_ptys (kernel w') !! fd))
  /\ count is_fork (history w') = count is_fork (history w)
  /\ count is_start_task (history w') = count is_start_task (history w)
  /\ (truthy (config_fd (config w)) = false ->
      forallb is_client_io es = true ->
      run es w = (replicate (length es) (Ok tt), w)).
Proof.
  intros Hes w'.
  pose proof (run_frame_not_connect es w Hes) as H. fold w' in H.
  destruct (frame_history _ _ _ _ H) as (calls & Hh & Hcalls).
  split; [exact (frame_config _ _ _ _ H)|].
  split; [exact (frame_tasks _ _ _ _ H)|].
  split; [intros fd; exact (frame_open _ _ _ _ fd H)|].
  split; [|split].
  - rewrite Hh, count_app, (count_none is_fork calls); [lia|].
    eapply Forall_impl; [exact Hcalls|]. by intros [].
  - rewrite Hh, count_app, (count_none is_start_task calls); [lia|].
    eapply Forall_impl; [exact Hcalls|]. by intros [].
  - intros Hfd Hio. by apply run_client_io_detached.
Qed.

(** X9 on the sample server before any connect. *)
Lemma nothing_starts_without_connect_witness :
  let es := [OnPtyInput (input_of "ls");
             OnResize (size_of (PyInt 24) (PyInt 80)); OnPtyInput ∅] in
  forallb (fun e => negb (is_connect e)) es = true
  /\ config (run es linux).2 = config linux
  /\ run es linux = (replicate (length es) (Ok tt), linux).
Proof.
  intros es.
  assert (H : forallb (fun e => negb (is_connect e)) es = true)
    by reflexivity.
  destruct (nothing_starts_without_connect es linux H)
    as (Hc & _ & _ & _ & _ & Hio).
  split; [exact H|]. split; [exact Hc|].
  apply Hio; reflexivity.
Defined.

(** ** The child's runs *)

Lemma connect_child_body_calls (w : World) :
  history (connect_child_body w).2
  = history w ++ child_calls (py_truthy (config_useTmp (config w)))
                             (config_cmd (config w))
                             (k_tmpdirs (kernel w)) 1
  /\ k_tmpdirs (kernel (connect_child_body w).2)
     = ((if py_truthy (config_useTmp (config w)) then 1 else 0)
        + k_tmpdirs (kernel w))%nat
  /\ config_useTmp (config (connect_child_body w).2)
     = config_useTmp (config w)
  /\ config_tmp (config (connect_child_body w).2)
     = (if py_truthy (config_useTmp (config w))
        then Some (tmp_path (k_tmpdirs (kernel w)))
        else config_tmp (config w)).
Proof.
  unfold connect_child_body, tempfile_mkdtemp, subprocess_run, app_config.
  unfold call, update, lift, raise, hang, get_world, mbind, mret, Py_bind,
    Py_ret, set_kernel, set_config, called.
  destruct (py_truthy (config_useTmp (config w))); simpl;
    destruct (k_exec (kernel w) (config_cmd (config w)) (k_runs (kernel w)));
    simpl; by rewrite <- ?app_assoc.
Qed.

Lemma child_loop_calls (fuel : nat) (w : World) :
  (forall i, (i < fuel)%nat ->
     exists rc, k_exec (kernel w) (config_cmd (config w))
                  (k_runs (kernel w) + i) = Returned rc) ->
  let w' := (@while_True unit fuel connect_child_body w).2 in
  let useTmp := py_truthy (config_useTmp (config w)) in
  history w' = history w ++ child_calls useTmp (config_cmd (config w))
                              (k_tmpdirs (kernel w)) fuel
  /\ k_tmpdirs (kernel w')
     = ((if useTmp then fuel else 0) + k_tmpdirs (kernel w))%nat
  /\ (useTmp = true -> (0 < fuel)%nat ->
      config_tmp (config w')
      = Some (tmp_path (fuel - 1 + k_tmpdirs (kernel w)))).
Proof.
  revert w. induction fuel as [|fuel IH]; intros w Hret.
  { simpl. rewrite app_nil_r.
    destruct (py_truthy _); repeat split; intros; lia. }
  simpl. unfold mbind, Py_bind.
  destruct (connect_child_body_spec w) as [Hout [Hcmd Hexec Hruns _]].
  destruct (connect_child_body_calls w) as (Hh & Htmp & Huse & Hcfg).
  destruct (Hret O ltac:(lia)) as [rc Hrc].
  rewrite Nat.add_0_r in Hrc. rewrite Hrc in Hout.
  destruct (connect_child_body w) as [[[]| e | |] w1]; try done.
  simpl in *.
  destruct (IH w1) as (Hh' & Htmp' & Hcfg').
  { intros i Hi. rewrite Hcmd, Hexec, Hruns.
    destruct (Hret (S i) ltac:(lia)) as [rc' Hrc']. exists rc'.
    rewrite <- Hrc'. f_equal. lia. }
  rewrite Huse, Hcmd in *. rewrite Hh', Hh, Htmp', Htmp.
  destruct (py_truthy (config_useTmp (config w))) eqn:Eu.
  - split; [by rewrite <- app_assoc|]. split; [lia|].
    intros _ _. destruct fuel as [|fuel].
    + simpl. by rewrite Hcfg.
    + rewrite Hcfg' by (done || lia). rewrite Htmp. do 2 f_equal. lia.
  - split; [by rewrite <- app_assoc|]. split; [lia|]. done.
Qed.

Lemma tmp_path_inj (i j : nat) : tmp_path i = tmp_path j -> i = j.
Proof.
  unfold tmp_path. intros H.
  apply (inj (String.app "/tmp/tmp")) in H. by apply (inj pretty) in H.
Qed.

(** X10: the child's runs and their directories.  On the child's side of
    the fork, as long as the runs of the command return, [n] iterations of
    the loop make exactly these calls after the fork.  When
    [app.config["useTmp"]] is true as Python sees it, each iteration first
    makes a new temporary directory and then runs the command with that
    directory as [cwd], [app.config["tmp"]] holding the last one; the
    directories all differ and none is removed, so [n] runs leave [n] more
    of them.  Otherwise each iteration is one run in the current directory
    and no directory is made. *)
Theorem child_runs_in_new_directories (n : nat) (w : World) :
  truthy (config_child_pid (config w)) = false ->
  k_fork_side (kernel w) = Child ->
  k_nproc (kernel w) <> O ->
  (forall i, (i < n)%nat ->
     exists rc, k_exec (kernel w) (config_cmd (config w))
                  (k_runs (kernel w) + i) = Returned rc) ->
  let w' := (connect n w).2 in
  let useTmp := py_truthy (config_useTmp (config w)) in
  history w'
  = history w ++ [Log INFO "new client connected"; Fork]
    ++ child_calls useTmp (config_cmd (config w)) (k_tmpdirs (kernel w)) n
  /\ k_tmpdirs (kernel w')
     = ((if useTmp then n else 0) + k_tmpdirs (kernel w))%nat
  /\ (useTmp = true -> (0 < n)%nat ->
      config_tmp (config w')
      = Some (tmp_path (n - 1 + k_tmpdirs (kernel w))))
  /\ (forall i j, tmp_path i = tmp_path j -> i = j).
Proof.
  intros Hidle Hside Hnproc Hret w' useTmp. unfold w'.
  rewrite (connect_idle_child n w Hidle Hside Hnproc).
  set (w1 := called Fork (called (Log INFO "new client connected") w)).
  destruct (child_loop_calls n w1 Hret) as (Hh & Htmp & Hcfg).
  split; [|split; [|split]].
  - rewrite Hh. unfold w1. simpl. by rewrite <- !app_assoc.
  - exact Htmp.
  - exact Hcfg.
  - apply tmp_path_inj.
Qed.

(** X10 in the child of the sample server, where [useTmp] is the string
    [False], which is true as Python sees it. *)
Lemma child_runs_in_new_directories_witness :
  truthy (config_child_pid (config child_of_bash)) = false
  /\ k_fork_side (kernel child_of_bash) = Child
  /\ k_nproc (kernel child_of_bash) <> O
  /\ history (connect 2 child_of_bash).2
     = [Log INFO "new client connected"; Fork;
        Mkdtemp "/tmp/tmp0"; Run ["bash"%string] (Some "/tmp/tmp0"%string);
        Mkdtemp "/tmp/tmp1"; Run ["bash"%string] (Some "/tmp/tmp1"%string)].
Proof.
  assert (H1 : truthy (config_child_pid (config child_of_bash)) = false)
    by reflexivity.
  assert (H2 : k_fork_side (kernel child_of_bash) = Child) by reflexivity.
  assert (H3 : k_nproc (kernel child_of_bash) <> O) by (simpl; lia).
  assert (H4 : forall i, (i < 2)%nat ->
    exists rc, k_exec (kernel child_of_bash)
                 (config_cmd (config child_of_bash))
                 (k_runs (kernel child_of_bash) + i) = Returned rc).
  { intros i _. by exists 0. }
  destruct (child_runs_in_new_directories 2 child_of_bash H1 H2 H3 H4)
    as (Hh & _).
  repeat split; assumption.
Defined.

(** ** A character cut in two by the reads *)

(** Running two lists of events one after the other. *)
Lemma run_app (es1 es2 : list Event) (w : World) :
  run (es1 ++ es2) w =
  ((run es1 w).1 ++ (run es2 (run es1 w).2).1, (run es2 (run es1 w).2).2).
Proof.
  revert w. induction es1 as [|e es1 IH]; intros w.
  - simpl. by destruct (run es2 w).
  - rewrite <- app_comm_cons, !run_cons, IH. reflexivity.
Qed.

(** X11: a character that straddles the end of a read is lost.  On a
    running session with the pump alive, let the bytes waiting at the
    master be the UTF-8 encoding of a text [s], of a character [ch] of
    several bytes and of a text [t], where a read ends after the first
    [k] bytes of [ch] and the rest fits in a second read.  Two pump
    iterations send two [pty-output] events, carrying [s] and [t]: each
    read is decoded on its own, the first bytes of [ch] are dropped at the
    end of one and its last bytes at the head of the other, and [ch] is in
    neither event, although the bytes decoded in one piece give [s],
    [ch], [t]. *)
Theorem character_cut_by_reads_is_lost (w : World) (fd : Z) (p : Pty)
    (i k : nat) (s t b_s b_t bs : list Z) (ch : Z) :
  running w fd p ->
  tasks w !! i = Some TaskRunning ->
  Forall code_point s -> str_encode s = Ok b_s ->
  Forall code_point t -> str_encode t = Ok b_t ->
  code_point ch -> utf8_encode_char ch = Ok bs ->
  (0 < k < length bs)%nat ->
  pty_stdout p = b_s ++ bs ++ b_t ->
  let n := read_size (kernel w) max_read_bytes in
  length (b_s ++ take k bs) = n ->
  (length (drop k bs ++ b_t) <= n)%nat ->
  let r := run [Pump i; Pump i] w in
  r.1 = [Ok tt; Ok tt]
  /\ (exists calls,
        history r.2 = history w ++ calls
        /\ reads calls = [b_s ++ take k bs; drop k bs ++ b_t]
        /\ outputs calls = [{[ "output"%string := PyStr s ]};
                            {[ "output"%string := PyStr t ]}])
  /\ decode_ignore (pty_stdout p) = s ++ ch :: t.
Proof.
  intros Hrun Htask Hs Hbs Ht Hbt Hch Hb Hk Hout n Hl1 Hl2 r.
  assert (Hn : read_size (kernel w) max_read_bytes = n) by done.
  clearbody n.
  assert (Hcut : b_s ++ bs ++ b_t
                 = (b_s ++ take k bs) ++ (drop k bs ++ b_t)).
  { rewrite <- (take_drop k bs) at 1. by rewrite <- !app_assoc. }
  assert (Htake : take n (pty_stdout p) = b_s ++ take k bs).
  { rewrite Hout, Hcut, <- Hl1. apply take_app_length. }
  assert (Hdrop : drop n (pty_stdout p) = drop k bs ++ b_t).
  { rewrite Hout, Hcut, <- Hl1. apply drop_app_length. }
  assert (Hx2 : drop k bs ++ b_t <> []).
  { intros E. apply (f_equal length) in E.
    rewrite length_app, length_drop in E. simpl in E. lia. }
  pose proof (pump_running i w fd p Hrun) as E1.
  rewrite Htask in E1.
  destruct (pty_stdout p) as [|c0 out] eqn:Eout.
  { apply (f_equal length) in Hout. rewrite !length_app in Hout.
    simpl in Hout. lia. }
  cbv beta iota zeta in E1. rewrite Hn, Htake, Hdrop in E1.
  destruct Hrun as [Hfd Hnz Hpid Hp Halive].
  set (p1 := with_stdout (drop k bs ++ b_t) p) in *.
  match type of E1 with _ = (_, ?w') => set (w1 := w') in * end.
  assert (Hrun1 : running w1 fd p1).
  { split; try done. unfold w1. simpl. by rewrite lookup_insert_eq. }
  pose proof (pump_running i w1 fd p1 Hrun1) as E2.
  change (tasks w1) with (tasks w) in E2. rewrite Htask in E2.
  change (pty_stdout p1) with (drop k bs ++ b_t) in E2.
  assert (Hn1 : read_size (kernel w1) max_read_bytes = n).
  { rewrite <- Hn. by apply read_size_tty. }
  destruct (drop k bs ++ b_t) as [|c1 out1] eqn:E2out; [done|].
  cbv beta iota zeta in E2. rewrite Hn1 in E2.
  rewrite take_ge, drop_ge in E2 by done.
  assert (Er : r = ([Ok tt; Ok tt], (pump i w1).2)).
  { unfold r. rewrite (run_step (Pump i) _ _ _ _ E1). cbn [fst snd].
    rewrite (run_step (Pump i) _ _ _ _ E2). by rewrite E2. }
  rewrite Er, E2. cbn [fst snd]. split; [done|]. split.
  - eexists. split; [unfold w1; simpl; rewrite <- !app_assoc; reflexivity|].
    split; [done|]. simpl. unfold output_of.
    rewrite (decode_ignore_cut_head s b_s bs ch k) by done.
    rewrite <- E2out.
    by rewrite (decode_ignore_cut_tail t b_t bs ch k) by done.
  - rewrite Hout.
    rewrite (decode_ignore_encoded_prefix s b_s _ Hs Hbs).
    assert (Hc : str_encode (ch :: t) = Ok (bs ++ b_t)).
    { simpl. by rewrite Hb, Hbt. }
    rewrite <- (app_nil_r (bs ++ b_t)).
    rewrite (decode_ignore_encoded_prefix (ch :: t) (bs ++ b_t) []); try done.
    + by rewrite app_nil_r.
    + by constructor.
Qed.

(** X11 on the sample server: the child has written 4094 times [a], the
    two bytes of U+00E9 and [b]; the first read ends between the two
    bytes. *)
Lemma character_cut_by_reads_is_lost_witness :
  let s := replicate (Z.to_nat 4094) 97 in
  let x := s ++ [0xC3; 0xA9] ++ [98] in
  let w := (run [OnConnect; ChildWrites 5 x] linux).2 in
  let p := mkPty 4242 true [] x (mkWinsize 50 50 0 0) in
  let r := run [Pump 0; Pump 0] w in
  running w 5 p
  /\ r.1 = [Ok tt; Ok tt]
  /\ exists calls,
       history r.2 = history w ++ calls
       /\ reads calls = [s ++ [0xC3]; [0xA9; 98]]
       /\ outputs calls = [{[ "output"%string := PyStr s ]};
                           {[ "output"%string := PyStr [98] ]}].
Proof.
  intros s x w p r.
  assert (H : running w 5 p).
  { split; [reflexivity | lia | reflexivity | vm_compute; reflexivity
           | reflexivity]. }
  split; [exact H|].
  assert (Hs : Forall code_point s).
  { apply Forall_replicate. unfold code_point. lia. }
  assert (Hbs : str_encode s = Ok s) by (vm_compute; reflexivity).
  assert (Ht : Forall code_point [98])
    by (repeat constructor; unfold code_point; lia).
  assert (Hch : code_point 0xE9) by (unfold code_point; lia).
  assert (Hk : (0 < 1 < length [0xC3; 0xA9])%nat) by (simpl; lia).
  destruct (character_cut_by_reads_is_lost w 5 p 0 1 s [98] s [98]
              [0xC3; 0xA9] 0xE9 H eq_refl Hs Hbs Ht eq_refl Hch eq_refl Hk
              eq_refl)
    as (Hr & Hcalls & _).
  - vm_compute. reflexivity.
  - vm_compute. lia.
  - split; assumption.
Defined.

(** ** [main]: the options and the environment *)

Lemma str_or_some (s : string) (b : option string) :
  s <> EmptyString -> str_or (Some s) b = Some s.
Proof. by destruct s. Qed.

Lemma py_or_truthy (a b : PyVal) : py_truthy a = true -> py_or a b = a.
Proof. unfold py_or. by intros ->. Qed.

Lemma py_str_nil (s : string) : py_str s = [] -> s = EmptyString.
Proof. by destruct s. Qed.

(** X12: the text of [--tmp] is not read.  Whatever the environment,
    when [main] has started the server with a [--tmp] that is not the
    empty text, and this covers the default [False] as well as [0] or
    [no], then [app.config["useTmp"]] is true as Python sees it: on the
    child's side of the fork, as long as the runs of the command return,
    each of the [n] iterations of the loop makes a new temporary directory
    and runs the command in it. *)
Theorem tmp_option_text_is_not_read (args : Args) (environ : Environ)
    (s : Served) (k : Kernel) (w : World) (n : nat) :
  main args environ = Serves s ->
  server s k = Some w ->
  args_tmp args <> EmptyString ->
  k_fork_side k = Child ->
  k_nproc k <> O ->
  (forall i, (i < n)%nat ->
     exists rc, k_exec k (config_cmd (config w)) (k_runs k + i)
                = Returned rc) ->
  py_truthy (config_useTmp (config w)) = true
  /\ history (connect n w).2
     = [Log INFO "new client connected"; Fork]
       ++ child_calls true (config_cmd (config w)) (k_tmpdirs k) n.
Proof.
  intros Hmain Hserver Htmp Hside Hnproc Hret.
  assert (Hs : served_useTmp s = Some (args_tmp args)).
  { unfold main in Hmain.
    destruct (args_version args); [done|].
    destruct (shlex_split _) as [words|msg]; [|done].
    injection Hmain as <-. by apply str_or_some. }
  assert (Hw : exists cmd,
             w = initial_world (PyStr (py_str (args_tmp args))) cmd k).
  { unfold server in Hserver. rewrite Hs in Hserver.
    destruct (mapM id _) as [cmd|]; [|done].
    injection Hserver as <-. by exists cmd. }
  destruct Hw as [cmd ->].
  assert (Huse : py_truthy (PyStr (py_str (args_tmp args))) = true).
  { apply negb_true_iff, bool_decide_eq_false. intros H.
    by apply py_str_nil in H. }
  split; [exact Huse|].
  set (w := initial_world (PyStr (py_str (args_tmp args))) cmd k) in *.
  assert (Hidle : truthy (config_child_pid (config w)) = false)
    by reflexivity.
  rewrite (connect_idle_child n w Hidle Hside Hnproc).
  destruct (child_loop_calls n
              (called Fork (called (Log INFO "new client connected") w))
              Hret) as (Hh & _).
  rewrite Hh.
  change (py_truthy (config_useTmp (config
            (called Fork (called (Log INFO "new client connected") w)))))
    with (py_truthy (PyStr (py_str (args_tmp args)))).
  by rewrite Huse.
Qed.

(** X12 for the command line without options and an empty environment:
    [--tmp] is [False], and the child works in temporary directories. *)
Lemma tmp_option_text_is_not_read_witness :
  let k := sample_kernel true Child (fun _ _ => Returned 0) in
  let s := mkServed [Some "bash"%string] (Some "False"%string) false INFO
             "serving on http://127.0.0.1:5000" PyNone (PyInt 5000)
             (Some "127.0.0.1"%string) in
  main default_args ∅ = Serves s
  /\ server s k = Some child_of_bash
  /\ history (connect 2 child_of_bash).2
     = [Log INFO "new client connected"; Fork;
        Mkdtemp "/tmp/tmp0"; Run ["bash"%string] (Some "/tmp/tmp0"%string);
        Mkdtemp "/tmp/tmp1"; Run ["bash"%string] (Some "/tmp/tmp1"%string)].
Proof.
  intros k s.
  assert (H1 : main default_args ∅ = Serves s) by reflexivity.
  assert (H2 : server s k = Some child_of_bash) by reflexivity.
  assert (H3 : args_tmp default_args <> EmptyString) by done.
  assert (H4 : k_fork_side k = Child) by reflexivity.
  assert (H5 : k_nproc k <> O) by (simpl; lia).
  assert (H6 : forall i, (i < 2)%nat ->
    exists rc, k_exec k (config_cmd (config child_of_bash)) (k_runs k + i)
               = Returned rc).
  { intros i _. by exists 0. }
  destruct (tmp_option_text_is_not_read default_args ∅ s k child_of_bash 2
              H1 H2 H3 H4 H5 H6) as [_ Hh].
  repeat split; assumption.
Defined.

(** X13: environment variables that are not read.  [PYXTERM_CMD],
    [PYXTERM_USE_TMP], [PYXTERM_PORT] and [PYXTERM_HOST] stand after an
    [or] whose first operand is the option.  When the command line leaves
    the four options at their defaults, or gives them any text but the
    empty one, [main] does the same in two environments that agree on
    [PYXTERM_CMD_ARGS], [PYXTERM_CORS] and [PYXTERM_DEBUG]. *)
Theorem environment_read_only_for_empty_options (args : Args)
    (environ environ' : Environ) :
  args_command args <> EmptyString ->
  args_tmp args <> EmptyString ->
  args_host args <> EmptyString ->
  py_truthy (args_port args) = true ->
  (forall name, name ∈ ["PYXTERM_CMD_ARGS"; "PYXTERM_CORS";
                        "PYXTERM_DEBUG"]%string ->
     environ !! name = environ' !! name) ->
  main args environ = main args environ'.
Proof.
  intros Hcmd Htmp Hhost Hport Henv.
  unfold main, os_environ_get.
  rewrite !(Henv "PYXTERM_CMD_ARGS"%string), !(Henv "PYXTERM_CORS"%string),
    !(Henv "PYXTERM_DEBUG"%string) by set_solver.
  rewrite !(str_or_some (args_command args)), !(str_or_some (args_tmp args)),
    !(str_or_some (args_host args)), !(py_or_truthy (args_port args)) by done.
  reflexivity.
Qed.

(** X13 for the command line without options: a command, a port, a host
    and a value for [useTmp] in the environment change nothing. *)
Lemma environment_read_only_for_empty_options_witness :
  main default_args
    {[ "PYXTERM_CMD" := "zsh"; "PYXTERM_PORT" := "8000";
       "PYXTERM_HOST" := "0.0.0.0"; "PYXTERM_USE_TMP" := "" ]}%string
  = main default_args ∅.
Proof.
  apply environment_read_only_for_empty_options;
    [done | done | done | reflexivity |].
  intros name Hname.
  rewrite !elem_of_cons, elem_of_nil in Hname.
  destruct Hname as [-> | [-> | [-> | []]]]; reflexivity.
Defined.

(** ** [shlex.split] on what [shlex.quote] writes *)

Lemma string_app_assoc (a b c : string) :
  (a +:+ b) +:+ c = a +:+ (b +:+ c).
Proof.
  induction a as [|x a IH]; [done|].
  change (String x ((a +:+ b) +:+ c) = String x (a +:+ (b +:+ c))).
  by rewrite IH.
Qed.

Lemma string_app_nil_r (a : string) : a +:+ EmptyString = a.
Proof.
  induction a as [|x a IH]; [done|].
  change (String x (a +:+ EmptyString) = String x a). by rewrite IH.
Qed.

Lemma string_cons_app (c : ascii) (s t : string) :
  String c s +:+ t = String c (s +:+ t).
Proof. reflexivity. Qed.

Lemma push_app (token : string) (c : ascii) (s : string) :
  push token c +:+ s = token +:+ String c s.
Proof. unfold push. by rewrite string_app_assoc. Qed.

Lemma emit_prepend (quoted : bool) (token : string) (rest : Split) :
  negb (bool_decide (token = EmptyString)) || quoted = true ->
  emit quoted token rest = prepend [token] rest.
Proof.
  unfold emit. intros H.
  destruct quoted, (bool_decide (token = EmptyString)); done.
Qed.

(** A character that [shlex.quote] leaves alone is no blank, no quote
    and no backslash. *)
Lemma shlex_safe_plain (c : ascii) :
  shlex_safe c = true ->
  lex_whitespace c = false /\ lex_quotes c = false /\ lex_escape c = false.
Proof.
  destruct c as [[] [] [] [] [] [] [] []]; vm_compute; intros H;
    first [discriminate H | done].
Qed.

(** A word of safe characters is read as it is. *)
Lemma read_token_safe (s : string) (es : LexState) (quoted : bool)
    (token rest : string) :
  forallb shlex_safe (chars s) = true ->
  read_token InWord es quoted token (s +:+ rest)
  = read_token InWord es quoted (token +:+ s) rest.
Proof.
  revert token. induction s as [|c s IH]; intros token Hs.
  { by rewrite string_app_nil_r. }
  simpl in Hs. apply andb_true_iff in Hs as [Hc Hs].
  destruct (shlex_safe_plain c Hc) as (Hw & Hq & He).
  rewrite !string_cons_app. cbn [read_token]. rewrite Hw, Hq, He.
  rewrite IH by done. by rewrite push_app.
Qed.

(** Between single quotes, what [shlex.quote] writes for [s] is read as
    [s]. *)
Lemma read_token_replace_quote (s : string) (es : LexState) (quoted : bool)
    (token rest : string) :
  read_token (InQuote "'") es quoted token
    (shlex_replace_quote s +:+ String "'" rest)
  = read_token InWord es true (token +:+ s) rest.
Proof.
  revert token quoted. induction s as [|c s IH]; intros token quoted.
  { rewrite string_app_nil_r. reflexivity. }
  cbn [shlex_replace_quote]. case_bool_decide as Hc.
  - subst c. rewrite !string_app_assoc.
    change (read_token (InQuote "'") es quoted token _)
      with (read_token (InQuote "'") es true (push token "'")
              (shlex_replace_quote s +:+ String "'" rest)).
    rewrite IH. by rewrite push_app.
  - rewrite !string_cons_app. cbn [read_token]. rewrite (bool_decide_eq_false_2 _ Hc).
    change (lex_escapedquotes "'") with false. rewrite andb_false_r.
    rewrite IH. by rewrite push_app.
Qed.

(** One quoted word, at the start of a token: the lexer is left in a
    word whose token is the word, and which is listed even if empty. *)
Lemma read_token_quote (s : string) (es : LexState) (rest : string) :
  exists quoted,
    negb (bool_decide (s = EmptyString)) || quoted = true
    /\ read_token InSpace es false EmptyString (shlex_quote s +:+ rest)
       = read_token InWord es quoted s rest.
Proof.
  unfold shlex_quote. case_bool_decide as Hs.
  { subst s. exists true. split; [done|]. reflexivity. }
  destruct (forallb shlex_safe (String.list_ascii_of_string s)) eqn:Hsafe.
  - exists false. split; [done|].
    destruct s as [|c s]; [done|].
    simpl in Hsafe. apply andb_true_iff in Hsafe as [Hc Hsafe].
    destruct (shlex_safe_plain c Hc) as (Hw & Hq & He).
    rewrite !string_cons_app. cbn [read_token]. rewrite Hw, Hq, He.
    by rewrite read_token_safe.
  - exists true. split; [done|].
    rewrite !string_app_assoc.
    change ("'" +:+ shlex_replace_quote s +:+ "'" +:+ rest)
      with (String "'" (shlex_replace_quote s +:+ String "'" rest)).
    cbn [read_token].
    change (lex_whitespace "'") with false.
    change (lex_escape "'") with false.
    change (lex_quotes "'") with true. cbv iota.
    by rewrite read_token_replace_quote.
Qed.

Lemma read_token_quoted_words (cmd : list string) (es : LexState) :
  read_token InSpace es false EmptyString
    (String.concat " " (map shlex_quote cmd))
  = Tokens cmd.
Proof.
  revert es. induction cmd as [|x cmd IH]; intros es; [reflexivity|].
  destruct cmd as [|y cmd].
  - cbn [map String.concat].
    rewrite <- (string_app_nil_r (shlex_quote x)).
    destruct (read_token_quote x es EmptyString) as (quoted & Hq & ->).
    cbn [read_token]. rewrite emit_prepend by done. reflexivity.
  - change (String.concat " " (map shlex_quote (x :: y :: cmd)))
      with (shlex_quote x
            +:+ String " " (String.concat " " (map shlex_quote (y :: cmd)))).
    destruct (read_token_quote x es
                (String " " (String.concat " " (map shlex_quote (y :: cmd)))))
      as (quoted & Hq & ->).
    cbn [read_token]. change (lex_whitespace " ") with true. cbv iota.
    rewrite Hq, emit_prepend by done. by rewrite IH.
Qed.

(** X14: the logged command line splits back into the command.
    [connect] writes [app.config["cmd"]] as one line, each word through
    [shlex.quote] and a blank between two words; [main] makes
    [app.config["cmd"]] from a line with [shlex.split].  For every list
    of words, empty words and words with blanks, quotes or backslashes
    included, [shlex.split] of the line written by [connect] is the list
    again. *)
Theorem logged_command_splits_back (cmd : list string) :
  shlex_split (String.concat " " (map shlex_quote cmd)) = Tokens cmd.
Proof. apply read_token_quoted_words. Qed.

(** ** [main]: the text of [--cmd-args] *)

Lemma shlex_quote_cons (s : string) :
  exists c t, shlex_quote s = String c t.
Proof.
  unfold shlex_quote. case_bool_decide as Hs; [by eexists _, _|].
  destruct (forallb _ _).
  - destruct s as [|c t]; [done|]. by eexists _, _.
  - by eexists _, _.
Qed.

Lemma quoted_words_cons (words : list string) :
  words <> [] ->
  exists c t, String.concat " " (map shlex_quote words) = String c t.
Proof.
  destruct words as [|x words]; [done|]. intros _.
  destruct (shlex_quote_cons x) as (c & t & Hx).
  destruct words as [|y words]; cbn [map String.concat]; rewrite Hx.
  - by eexists _, _.
  - rewrite string_cons_app. by eexists _, _.
Qed.

Lemma mapM_id_Some {A : Type} (l : list A) : mapM id (map Some l) = Some l.
Proof. induction l as [|x l IH]; [done|]. simpl. by rewrite IH. Qed.

(** The text that [main] gives to [shlex.split], when [--cmd-args] is not
    empty. *)
Lemma cmd_args_given (s : string) (b : option string) :
  s <> EmptyString ->
  default EmptyString (str_or (str_or (Some s) b) (Some EmptyString)) = s.
Proof. by destruct s. Qed.

(** X15: quoted arguments reach the command.  Take any words, at least
    one, write each through [shlex.quote] with a blank between two, and
    give the line as [--cmd-args] with a [--command] that is not empty.
    Whatever the environment, [main] starts the server, and
    [app.config["cmd"]] is the command followed by exactly these words,
    blanks, quotes and backslashes in them included. *)
Theorem quoted_arguments_reach_the_command (args : Args)
    (environ : Environ) (words : list string) (k : Kernel) :
  args_version args = false ->
  args_command args <> EmptyString ->
  words <> [] ->
  args_cmd_args args = String.concat " " (map shlex_quote words) ->
  exists s w,
    main args environ = Serves s
    /\ server s k = Some w
    /\ config_cmd (config w) = args_command args :: words.
Proof.
  intros Hv Hcmd Hwords Hargs.
  destruct (quoted_words_cons words Hwords) as (c & t & Hct).
  unfold main. rewrite Hv, cmd_args_given by (by rewrite Hargs, Hct).
  rewrite Hargs. unfold shlex_split. rewrite read_token_quoted_words.
  rewrite str_or_some by done.
  eexists _, _. split; [reflexivity|].
  unfold server. cbn [served_cmd served_useTmp].
  change ([Some (args_command args)] ++ map Some words)
    with (map Some (args_command args :: words)).
  rewrite mapM_id_Some. split; reflexivity.
Qed.

(** X15 for a script whose name has a blank and an argument with a
    backslash. *)
Lemma quoted_arguments_reach_the_command_witness :
  let args := mkArgs (PyInt 5000) (PyBool false) "127.0.0.1" false false
                "python3" "'my script.py' --sep 'a\b'" "False" in
  exists s w,
    main args ∅ = Serves s
    /\ server s (sample_kernel true Parent (fun _ _ => Returned 0)) = Some w
    /\ config_cmd (config w)
       = ["python3"; "my script.py"; "--sep"; "a\b"]%string.
Proof.
  intros args.
  apply (quoted_arguments_reach_the_command args ∅
           ["my script.py"; "--sep"; "a\b"]%string);
    [reflexivity | done | done | ].
  vm_compute. reflexivity.
Defined.

(** ** [main]: a quote left open in [--cmd-args] *)

Lemma prepend_app (l l' : list string) (r : Split) :
  prepend l (prepend l' r) = prepend (l ++ l') r.
Proof. destruct r; simpl; [|done]. by rewrite app_assoc. Qed.

Lemma prepend_nil (r : Split) : prepend [] r = r.
Proof. by destruct r. Qed.

(** Text without quotes and backslashes is cut into words: the lexer
    lists some and is left between two words or in one. *)
Lemma read_token_plain (a : string) (state es : LexState) (quoted : bool)
    (token : string) :
  Forall (fun c => lex_quotes c = false /\ lex_escape c = false) (chars a) ->
  state = InSpace \/ state = InWord ->
  exists l state' es' quoted' token',
    (state' = InSpace \/ state' = InWord)
    /\ forall rest,
         read_token state es quoted token (a +:+ rest)
         = prepend l (read_token state' es' quoted' token' rest).
Proof.
  revert state es quoted token.
  induction a as [|c a IH]; intros state es quoted token Ha Hstate.
  { exists [], state, es, quoted, token. split; [done|]. intros rest.
    by rewrite prepend_nil. }
  apply Forall_cons in Ha as [[Hq He] Ha].
  assert (Hstep : exists l state1 es1 quoted1 token1,
    (state1 = InSpace \/ state1 = InWord)
    /\ forall rest,
         read_token state es quoted token (String c rest)
         = prepend l (read_token state1 es1 quoted1 token1 rest)).
  { destruct Hstate as [-> | ->]; cbn [read_token]; rewrite Hq, He;
      destruct (lex_whitespace c);
      try destruct (negb (bool_decide (token = EmptyString)) || quoted)
        eqn:Hemit.
    all: try (exists [token], InSpace, InSpace, false, EmptyString;
              split; [by left|]; intros rest;
              by rewrite emit_prepend by done).
    all: eexists [], _, _, _, _;
      (split; [|intros rest; by rewrite prepend_nil]); auto. }
  destruct Hstep as (l1 & state1 & es1 & quoted1 & token1 & Hstate1 & H1).
  destruct (IH state1 es1 quoted1 token1 Ha Hstate1)
    as (l2 & state2 & es2 & quoted2 & token2 & Hstate2 & H2).
  exists (l1 ++ l2), state2, es2, quoted2, token2. split; [done|].
  intros rest. rewrite string_cons_app, H1, H2. apply prepend_app.
Qed.

(** Inside quotes, text without the closing quote, and without backslash
    between double quotes, runs into the end. *)
Lemma read_token_unclosed (b : string) (q : ascii) (es : LexState)
    (quoted : bool) (token : string) :
  Forall (fun c => c <> q /\ (q = dq -> c <> backslash)) (chars b) ->
  read_token (InQuote q) es quoted token b
  = ValueError "No closing quotation".
Proof.
  revert quoted token. induction b as [|c b IH]; intros quoted token Hb.
  { reflexivity. }
  apply Forall_cons in Hb as [[Hc Hesc] Hb].
  cbn [read_token]. rewrite (bool_decide_eq_false_2 _ Hc).
  assert (lex_escape c && lex_escapedquotes q = false) as ->.
  { unfold lex_escape, lex_escapedquotes.
    case_bool_decide as H1; [|done]. case_bool_decide as H2; [|done].
    by destruct (Hesc H2). }
  by apply IH.
Qed.

(** X16: a quote left open, a backslash at the end.  Let [--cmd-args] be
    a text [a] without quotes and backslashes, followed either by a quote
    and a text that does not close it (when the quote is a double quote,
    a text without backslash), or by one backslash.  Whatever the other
    options and the environment, [main] then raises the [ValueError] of
    [shlex.split], [No closing quotation] or [No escaped character]:
    nothing is stored in [app.config] and the server is not started. *)
Theorem open_quote_in_cmd_args_stops_main (args : Args) (environ : Environ)
    (a b : string) (q : ascii) :
  args_version args = false ->
  Forall (fun c => lex_quotes c = false /\ lex_escape c = false) (chars a) ->
  (lex_quotes q = true ->
   Forall (fun c => c <> q /\ (q = dq -> c <> backslash)) (chars b) ->
   args_cmd_args args = a +:+ String q b ->
   main args environ = MainRaises "No closing quotation")
  /\ (args_cmd_args args = a +:+ String backslash EmptyString ->
      main args environ = MainRaises "No escaped character").
Proof.
  intros Hv Ha.
  destruct (read_token_plain a InSpace InSpace false EmptyString Ha
              ltac:(by left))
    as (l & state & es & quoted & token & Hstate & Hread).
  assert (Hne : forall c t, a +:+ String c t <> EmptyString)
    by (intros c t; by destruct a).
  split.
  - intros Hq Hb Hargs. unfold main.
    rewrite Hv, cmd_args_given by (rewrite Hargs; apply Hne).
    rewrite Hargs. unfold shlex_split. rewrite Hread.
    assert (Hws : lex_whitespace q = false).
    { unfold lex_quotes in Hq. apply bool_decide_eq_true in Hq.
      rewrite !elem_of_cons, elem_of_nil in Hq.
      by destruct Hq as [-> | [-> | []]]. }
    assert (Hesc : lex_escape q = false).
    { unfold lex_quotes in Hq. apply bool_decide_eq_true in Hq.
      rewrite !elem_of_cons, elem_of_nil in Hq.
      by destruct Hq as [-> | [-> | []]]. }
    assert (read_token state es quoted token (String q b)
            = ValueError "No closing quotation") as ->; [|done].
    destruct Hstate as [-> | ->]; cbn [read_token];
      rewrite Hws, Hq, ?Hesc; by apply read_token_unclosed.
  - intros Hargs. unfold main.
    rewrite Hv, cmd_args_given by (rewrite Hargs; apply Hne).
    rewrite Hargs. unfold shlex_split. rewrite Hread.
    by destruct Hstate as [-> | ->].
Qed.

(** X16 for an argument whose quote is not closed. *)
Lemma open_quote_in_cmd_args_stops_main_witness :
  let args := mkArgs (PyInt 5000) (PyBool false) "127.0.0.1" false false
                "bash" "-c 'echo hello" "False" in
  main args ∅ = MainRaises "No closing quotation".
Proof.
  intros args.
  assert (Ha : Forall (fun c => lex_quotes c = false /\ lex_escape c = false)
                 (chars "-c ")) by (repeat constructor).
  assert (Hb : Forall (fun c => c <> "'"%char
                                /\ ("'"%char = dq -> c <> backslash))
                 (chars "echo hello")) by (repeat constructor; done).
  destruct (open_quote_in_cmd_args_stops_main args ∅ "-c " "echo hello"
              "'" eq_refl Ha) as [H _].
  apply H; [reflexivity | exact Hb | reflexivity].
Defined.
